(** * Box-score ingestion pipeline: a shallow embedding and its properties

    The development follows the Python sources of the repository:
    - [data_processor.py]: the positional stat mapper, the game record
      assembler and the ingestion store ([save_game_to_database]);
    - [models.py]: the four mapped classes and their attribute names;
    - [scrape_recent_data.py]: the refresh workflow ([update_game_data]);
    - [scraper.py]: the retrying fetcher ([get_html_with_retry]);
    - [parse_data_copilot.py] and [data_processor.py]: the two readers of
      the raw document store.

    Python dictionaries are finite maps keyed by strings, exceptions are an
    explicit result type, the database session is explicit state.

    What the libraries do is modelled as far as the code relies on it:
    - a parsed document is given by the cell texts of its tables;
    - [int()] and [strptime] read ASCII digits;
    - a mapped class is given by the attribute names [models.py] declares,
      and its constructor is the one of SQLAlchemy's declarative base;
    - a stored row holds the attributes that were assigned to it (column
      defaults and generated keys are left to the storage layer), a table
      is the list of its rows in storage order, and what the storage layer
      accepts is a parameter;
    - reading a file is decoding its bytes. *)

From Stdlib Require Import ZArith List Ascii String QArith Lia Bool.
From stdpp Require Import base option list gmap strings fin_maps.

Open Scope string_scope.
Open Scope Z_scope.

(** ** Python exceptions as a result type *)

Inductive exn : Type :=
  | ValueError
  | AttributeError
  | TypeError
  | KeyError
  | NameError
  | IntegrityError
  | UnicodeDecodeError.

Inductive result (A : Type) : Type :=
  | Ok (a : A)
  | Raise (e : exn).
Arguments Ok {A} a.
Arguments Raise {A} e.

Global Instance result_ret : MRet result := fun A a => Ok a.
Global Instance result_bind : MBind result := fun A B f r =>
  match r with
  | Ok a => f a
  | Raise e => Raise e
  end.

(** [try: r except (ValueError, AttributeError): d] *)
Definition except_value_or_attribute {A} (r : result A) (d : A) : result A :=
  match r with
  | Ok a => Ok a
  | Raise ValueError => Ok d
  | Raise AttributeError => Ok d
  | Raise e => Raise e
  end.

(** [try: r except Exception: d] *)
Definition except_exception {A} (r : result A) (d : A) : A :=
  match r with
  | Ok a => a
  | Raise _ => d
  end.

(** ** Characters and [int(text)] *)

Definition code (c : ascii) : Z := Z.of_N (N_of_ascii c).

Definition is_digit (c : ascii) : bool := (48 <=? code c) && (code c <=? 57).

Definition digit_val (c : ascii) : Z := code c - 48.

(** ASCII white space, as removed by [str.strip()] and by [int()]. *)
Definition is_space (c : ascii) : bool :=
  (code c =? 32) || ((9 <=? code c) && (code c <=? 13)).

Fixpoint lstrip (l : list ascii) : list ascii :=
  match l with
  | c :: r => if is_space c then lstrip r else l
  | [] => []
  end.

Definition strip (l : list ascii) : list ascii :=
  rev (lstrip (rev (lstrip l))).

(** Decimal digits with single underscores between digits, the literal
    syntax [int()] accepts after the sign. *)
Fixpoint digits_val (acc : Z) (after_digit : bool) (l : list ascii) : option Z :=
  match l with
  | [] => if after_digit then Some acc else None
  | c :: r =>
      if is_digit c then digits_val (10 * acc + digit_val c) true r
      else if (code c =? 95) && after_digit then
        match r with
        | d :: _ => if is_digit d then digits_val acc false r else None
        | [] => None
        end
      else None
  end.

(** [int(text)] on a string: the value, or [ValueError]. *)
Definition py_int (text : string) : result Z :=
  let l := strip (list_ascii_of_string text) in
  let signed :=
    match l with
    | c :: r =>
        if code c =? 45 then Z.opp <$> digits_val 0 false r
        else if code c =? 43 then digits_val 0 false r
        else digits_val 0 false l
    | [] => None
    end in
  match signed with
  | Some z => Ok z
  | None => Raise ValueError
  end.

(** ** Floating-point values

    Python floats are kept abstract: a carrier, its zero, the parser
    [float(text)] (which raises [ValueError] on text that is not a number)
    and the strict order used by [max]. *)

Class FloatModel : Type := {
  float : Type;
  float_eq_dec :: EqDecision float;
  float_zero : float;
  py_float : string -> result float;
  float_gt : float -> float -> bool;
}.

Global Instance result_fmap : FMap result := fun A B f r =>
  match r with
  | Ok a => Ok (f a)
  | Raise e => Raise e
  end.

(** A [for] loop whose body mutates a state in place and may raise: the
    loop stops at the first exception and the state reached so far stays
    (the flag tells whether the loop ran to its end). *)
Fixpoint for_each {S A} (body : S -> A -> S * bool) (s : S) (l : list A) : S * bool :=
  match l with
  | [] => (s, true)
  | a :: r =>
      let '(s', ok) := body s a in
      if ok then for_each body s' r else (s', false)
  end.

(** [enumerate(l, n)] *)
Fixpoint enumerate {A} (n : nat) (l : list A) : list (nat * A) :=
  match l with
  | [] => []
  | a :: r => (n, a) :: enumerate (S n) r
  end.

(** [sub in s] on strings *)
Definition contains (sub s : string) : bool :=
  match String.index 0 sub s with
  | Some _ => true
  | None => false
  end.

(** [l[1:-1]] *)
Definition inner_rows {A} (l : list A) : list A := removelast (tl l).

(** ** Tables of a parsed document

    A row is the list of its cells ([row.find_all(['td', 'th'])]), a cell
    being given by its stripped text ([cell.get_text(strip=True)]); a table
    is the list of its rows ([table.find_all('tr')]); a document holds its
    tables with their identifiers, in document order ([soup.find('table',
    {'id': ..})] is the first one with that identifier). *)

Definition row : Type := list string.
Definition table : Type := list row.

(** [official_links]: the links that follow the element marked
    "Officials:", each with its text and its [href]; [None] when the
    document has no such element. *)
Record soup : Type := Soup {
  tables : list (string * table);
  official_links : option (list (string * string));
}.

Fixpoint lookup_table (ts : list (string * table)) (id : string) : option table :=
  match ts with
  | [] => None
  | (i, t) :: r => if String.eqb i id then Some t else lookup_table r id
  end.

Definition find_table (doc : soup) (id : string) : option table :=
  lookup_table (tables doc) id.

(** What [_safe_int] and [_safe_float] are handed: a cell element, or (in
    the stat mapper) the text already extracted from it, a [str] that has
    no [get_text] attribute. *)
Inductive pyobj : Type :=
  | Cell (text : string)
  | Text (s : string).

Definition get_text (o : pyobj) : result string :=
  match o with
  | Cell text => Ok text
  | Text _ => Raise AttributeError
  end.

Section StatMapper.
Context `{FM : FloatModel}.

(** Values stored in the mappings handed to the store. *)
Inductive scalar : Type :=
  | SBool (b : bool)
  | SInt (z : Z)
  | SFloat (f : float)
  | SStr (s : string)
  | SDate (y m d : Z).

Global Instance scalar_eq_dec : EqDecision scalar.
Proof. solve_decision. Defined.

(** [DataProcessor._safe_int] *)
Definition _safe_int (cell : pyobj) : result Z :=
  except_value_or_attribute
    (text ← get_text cell;
     if negb (String.eqb text "") then py_int text else Ok 0)
    0.

(** [DataProcessor._safe_float] *)
Definition _safe_float (cell : pyobj) : result float :=
  except_value_or_attribute
    (text ← get_text cell;
     if negb (String.eqb text "") then py_float text else Ok float_zero)
    float_zero.

(** The two positional schemas of [_parse_stats_table]. *)
Definition basic_mapping : gmap nat string :=
  list_to_map
    [(1, "mp"); (2, "fg"); (3, "fga"); (4, "fg_pct"); (5, "fg3"); (6, "fg3a");
     (7, "fg3_pct"); (8, "ft"); (9, "fta"); (10, "ft_pct"); (11, "orb");
     (12, "drb"); (13, "trb"); (14, "ast"); (15, "stl"); (16, "blk");
     (17, "tov"); (18, "pf"); (19, "pts")]%nat.

Definition advanced_mapping : gmap nat string :=
  list_to_map
    [(1, "ts_pct"); (2, "efg_pct"); (3, "fg3a_rate"); (4, "fta_rate");
     (5, "orb_pct"); (6, "drb_pct"); (7, "trb_pct"); (8, "ast_pct");
     (9, "stl_pct"); (10, "blk_pct"); (11, "tov_pct"); (12, "usg_pct");
     (13, "off_rtg"); (14, "def_rtg"); (15, "bpm")]%nat.

Definition stat_mapping (stat_type : string) : gmap nat string :=
  if String.eqb stat_type "basic" then basic_mapping else advanced_mapping.

(** [max(a, b)] on two numbers of the same kind: [b] if [b > a], else [a]. *)
Definition py_max (a b : scalar) : scalar :=
  match a, b with
  | SInt x, SInt y => if x <? y then b else a
  | SFloat x, SFloat y => if float_gt y x then b else a
  | _, _ => a
  end.

(** Body of the loop over the cells of the totals row. *)
Definition set_total (stat_type : string) (stats : gmap string scalar)
    (ic : nat * string) : gmap string scalar * bool :=
  let '(i, cell) := ic in
  match stat_mapping stat_type !! i with
  | Some stat_name =>
      let value := cell in
      let coerced :=
        if String.eqb stat_type "basic" then
          if contains "pct" stat_name
          then SFloat <$> _safe_float (Text value)
          else SInt <$> _safe_int (Text value)
        else SFloat <$> _safe_float (Text value) in
      match coerced with
      | Ok v => (<[stat_name := v]> stats, true)
      | Raise _ => (stats, false)
      end
  | None => (stats, true)
  end.

(** Body of the inner loop over the cells of one player row. *)
Definition set_max (stat_type : string) (stats : gmap string scalar)
    (jc : nat * string) : gmap string scalar * bool :=
  let '(j, cell) := jc in
  match stat_mapping stat_type !! j with
  | Some name =>
      let stat_name := name +:+ "_max" in
      let value := cell in
      let updated :=
        if contains "pct" name then
          let current_max := default (SFloat float_zero) (stats !! stat_name) in
          new_value ← _safe_float (Text value);
          Ok (py_max current_max (SFloat new_value))
        else
          let current_max := default (SInt 0) (stats !! stat_name) in
          new_value ← _safe_int (Text value);
          Ok (py_max current_max (SInt new_value)) in
      match updated with
      | Ok v => (<[stat_name := v]> stats, true)
      | Raise _ => (stats, false)
      end
  | None => (stats, true)
  end.

Definition set_row_max (stat_type : string) (stats : gmap string scalar)
    (cells : row) : gmap string scalar * bool :=
  for_each (set_max stat_type) stats (enumerate 1 (tl cells)).

(** [DataProcessor._parse_stats_table]: the mapping is filled in place, so
    whatever was stored before an exception is what the handler returns. *)
Definition _parse_stats_table (tbl : option table) (stat_type : string)
    : gmap string scalar :=
  let stats : gmap string scalar := ∅ in
  match tbl with
  | None => stats
  | Some rows =>
      match last rows with
      | None => stats
      | Some totals_row =>
          let cells := totals_row in
          let '(stats, ok) :=
            for_each (set_total stat_type) stats (enumerate 1 (tl cells)) in
          if ok && String.eqb stat_type "basic" then
            fst (for_each (set_row_max stat_type) stats (inner_rows rows))
          else stats
      end
  end.

End StatMapper.

(** ** A concrete float model for running examples

    Plain decimal literals ([12], [.456], [-3.5]) denote their exact
    rational value; other text is not a number. *)

Fixpoint all_digits (l : list ascii) : bool :=
  match l with
  | [] => true
  | c :: r => is_digit c && all_digits r
  end.

Fixpoint digits_num (acc : Z) (l : list ascii) : Z :=
  match l with
  | [] => acc
  | c :: r => digits_num (10 * acc + digit_val c) r
  end.

Fixpoint split_dot (l : list ascii) : list ascii * option (list ascii) :=
  match l with
  | [] => ([], None)
  | c :: r =>
      if code c =? 46 then ([], Some r)
      else let '(a, b) := split_dot r in (c :: a, b)
  end.

Definition dec_unsigned (l : list ascii) : option Q :=
  let '(ip, fp) := split_dot l in
  let fp := default [] fp in
  if all_digits ip && all_digits fp && negb (Nat.eqb (length ip + length fp) 0)
  then Some (Qmake (digits_num 0 (ip ++ fp)) (Z.to_pos (10 ^ Z.of_nat (length fp))))
  else None.

Definition dec_float (text : string) : result Q :=
  let l := strip (list_ascii_of_string text) in
  let signed :=
    match l with
    | c :: r =>
        if code c =? 45 then Qopp <$> dec_unsigned r
        else if code c =? 43 then dec_unsigned r
        else dec_unsigned l
    | [] => None
    end in
  match signed with
  | Some q => Ok q
  | None => Raise ValueError
  end.

Global Instance Q_eq_dec : EqDecision Q.
Proof. solve_decision. Defined.

Global Instance decimal_floats : FloatModel := {|
  float := Q;
  float_zero := 0%Q;
  py_float := dec_float;
  float_gt := fun a b => negb (Qle_bool a b);
|}.

(** ** [datetime.strptime(text, "%Y%m%d")]

    The format compiles to the regular expression
    [(\d\d\d\d)(1[0-2]|0[1-9]|[1-9])(3[01]|[12]\d|0[1-9]|[1-9]| [1-9])],
    matched at the start of the text with the alternatives tried in order;
    text left over after the match, or a day the month does not have, is a
    [ValueError]. *)

Record date : Type := Date { year : Z; month : Z; day : Z }.

Definition alt : Type := list ascii -> option (Z * list ascii).

Definition two_chars (ok : ascii -> ascii -> bool) : alt := fun l =>
  match l with
  | a :: b :: r =>
      if is_digit b && ok a b then Some (10 * digit_val a + digit_val b, r)
      else None
  | _ => None
  end.

Definition one_char : alt := fun l =>
  match l with
  | a :: r =>
      if is_digit a && (1 <=? digit_val a) then Some (digit_val a, r) else None
  | _ => None
  end.

Definition space_char : alt := fun l =>
  match l with
  | a :: r => if code a =? 32 then one_char r else None
  | _ => None
  end.

Definition month_alts : list alt :=
  [ two_chars (fun a b => (code a =? 49) && (digit_val b <=? 2));
    two_chars (fun a b => (code a =? 48) && (1 <=? digit_val b));
    one_char ].

Definition day_alts : list alt :=
  [ two_chars (fun a b => (code a =? 51) && (digit_val b <=? 1));
    two_chars (fun a b => (code a =? 49) || (code a =? 50));
    two_chars (fun a b => (code a =? 48) && (1 <=? digit_val b));
    one_char;
    space_char ].

(** First alternative that matches and lets the continuation match. *)
Fixpoint first_alt {A} (alts : list alt) (k : Z -> list ascii -> option A)
    (l : list ascii) : option A :=
  match alts with
  | [] => None
  | a :: more =>
      match a l with
      | Some (v, r) =>
          match k v r with
          | Some x => Some x
          | None => first_alt more k l
          end
      | None => first_alt more k l
      end
  end.

Definition is_leap (y : Z) : bool :=
  ((y mod 4 =? 0) && negb (y mod 100 =? 0)) || (y mod 400 =? 0).

Definition days_in_month (y m : Z) : Z :=
  if m =? 2 then (if is_leap y then 29 else 28)
  else if (m =? 4) || (m =? 6) || (m =? 9) || (m =? 11) then 30
  else 31.

Definition strptime_Ymd (text : string) : result date :=
  match list_ascii_of_string text with
  | y1 :: y2 :: y3 :: y4 :: rest =>
      if is_digit y1 && is_digit y2 && is_digit y3 && is_digit y4 then
        let y := digits_num 0 [y1; y2; y3; y4] in
        match first_alt month_alts
                (fun m r => first_alt day_alts (fun d r' => Some (m, d, r')) r)
                rest with
        | Some (m, d, []) =>
            if (1 <=? y) && (d <=? days_in_month y m)
            then Ok (Date y m d)
            else Raise ValueError
        | _ => Raise ValueError
        end
      else Raise ValueError
  | _ => Raise ValueError
  end.

(** ** The game record assembler *)

Section Assembler.
Context `{FM : FloatModel}.

(** Values of the game mapping: a scalar, or a list of sub-record mappings
    (the [team_stats], [player_stats] and [officials] entries). *)
Inductive pyval : Type :=
  | Scalar (v : scalar)
  | Rows (l : list (gmap string scalar)).

Global Instance pyval_eq_dec : EqDecision pyval.
Proof. solve_decision. Defined.

(** [season = game_date.year; if game_date.month < 7: season -= 1] *)
Definition season_of (game_date : date) : Z :=
  let season := year game_date in
  if month game_date <? 7 then season - 1 else season.

(** Body of the loop over the line-score rows: rows with fewer than two
    cells are passed over; [int()] of the last cell may raise. *)
Definition add_line (acc : list string * list Z) (cells : row)
    : result (list string * list Z) :=
  let '(teams, scores) := acc in
  if (2 <=? length cells)%nat then
    let team := default "" (head cells) in
    total_score ← py_int (default "" (last cells));
    Ok ((teams ++ [team])%list, (scores ++ [total_score])%list)
  else Ok (teams, scores).

Fixpoint foldM {S A} (f : S -> A -> result S) (s : S) (l : list A) : result S :=
  match l with
  | [] => Ok s
  | a :: r => s' ← f s a; foldM f s' r
  end.

Definition game_info (game_id : string) (game_date : date) (season : Z)
    (home_team away_team : string) (home_score away_score : Z)
    (home_won : bool) : gmap string pyval :=
  <["game_id" := Scalar (SStr game_id)]>
  (<["date" := Scalar (SDate (year game_date) (month game_date) (day game_date))]>
  (<["season" := Scalar (SInt season)]>
  (<["home_team" := Scalar (SStr home_team)]>
  (<["away_team" := Scalar (SStr away_team)]>
  (<["home_score" := Scalar (SInt home_score)]>
  (<["away_score" := Scalar (SInt away_score)]>
  (<["home_won" := Scalar (SBool home_won)]> ∅))))))).

(** [DataProcessor._parse_basic_game_info], [stem] being [file_path.stem]. *)
Definition _parse_basic_game_info (doc : soup) (stem : string)
    : option (gmap string pyval) :=
  except_exception
    (let game_id := stem in
     let date_str := substring 0 8 game_id in
     game_date ← strptime_Ymd date_str;
     let season := season_of game_date in
     match find_table doc "line_score" with
     | None => Ok None
     | Some line_score_table =>
         let rows := tl line_score_table in
         if (length rows <? 2)%nat then Ok None
         else
           ts ← foldM add_line ([], []) rows;
           match ts with
           | ([away_team; home_team], [away_score; home_score]) =>
               let home_won := away_score <? home_score in
               Ok (Some (game_info game_id game_date season home_team
                           away_team home_score away_score home_won))
           | _ => Ok None
           end
     end)
    None.

(** [DataProcessor._parse_team_stats] *)
Definition team_stat_of (doc : soup) (game_id team : string)
    : option (gmap string scalar) :=
  let basic_table := find_table doc ("box-" +:+ team +:+ "-game-basic") in
  let advanced_table := find_table doc ("box-" +:+ team +:+ "-game-advanced") in
  match basic_table with
  | None => None
  | Some _ =>
      let basic_stats := _parse_stats_table basic_table "basic" in
      let advanced_stats :=
        match advanced_table with
        | Some _ => _parse_stats_table advanced_table "advanced"
        | None => ∅
        end in
      Some (advanced_stats ∪ (basic_stats ∪
              (<["game_id" := SStr game_id]>
              (<["team" := SStr team]>
              (<["is_home" := SBool (String.eqb team "home")]> ∅)))))
  end.

Definition _parse_team_stats (doc : soup) (game_id : string)
    : list (gmap string scalar) :=
  omap (team_stat_of doc game_id) ["home"; "away"].

(** [cells[i]] converted by [conv] when the row has more than [i] cells. *)
Definition cell_or {A} (cells : row) (i : nat) (conv : pyobj -> result A)
    (d : A) : result A :=
  match cells !! i with
  | Some c => conv (Cell c)
  | None => Ok d
  end.

Definition int_fields : list (nat * string) :=
  [(2, "fg"); (3, "fga"); (5, "fg3"); (6, "fg3a"); (8, "ft"); (9, "fta");
   (11, "orb"); (12, "drb"); (13, "trb"); (14, "ast"); (15, "stl");
   (16, "blk"); (17, "tov"); (18, "pf"); (19, "pts"); (20, "plus_minus")]%nat.

Definition float_fields : list (nat * string) :=
  [(4, "fg_pct"); (7, "fg3_pct"); (10, "ft_pct")]%nat.

Definition player_basic_stats (cells : row) (game_id team player_name : string)
    : result (gmap string scalar) :=
  let base : gmap string scalar :=
    <["game_id" := SStr game_id]>
    (<["team" := SStr team]>
    (<["player_name" := SStr player_name]>
    (<["mp" := SStr (default "0" (cells !! 1%nat))]> ∅))) in
  with_ints ←
    foldM (fun (stats : gmap string scalar) '(i, name) =>
             z ← cell_or cells i _safe_int 0; Ok (<[name := SInt z]> stats))
      base int_fields;
  foldM (fun (stats : gmap string scalar) '(i, name) =>
           f ← cell_or cells i _safe_float float_zero;
           Ok (<[name := SFloat f]> stats))
    with_ints float_fields.

(** [DataProcessor._parse_player_row]: once the basic statistics are
    built, the method looks the advanced table up through the name [soup],
    which is bound neither in the method nor in the module. *)
Definition _parse_player_row (cells : row) (game_id team : string)
    : option (gmap string scalar) :=
  except_exception
    (if (length cells <? 10)%nat then Ok None
     else
       let player_name := default "" (head cells) in
       if String.eqb player_name "" || String.eqb player_name "Reserves"
          || String.eqb player_name "Team Totals"
       then Ok None
       else
         stats ← player_basic_stats cells game_id team player_name;
         _ ← (Raise NameError : result unit);
         Ok (Some stats))
    None.

(** [DataProcessor._parse_player_stats] *)
Definition _parse_player_stats (doc : soup) (game_id : string)
    : list (gmap string scalar) :=
  mjoin
    (omap
       (fun team : string =>
          match find_table doc ("box-" +:+ team +:+ "-game-basic") with
          | None => None
          | Some basic_table =>
              Some (omap (fun cells => _parse_player_row cells game_id team)
                      (inner_rows basic_table))
          end)
       ["home"; "away"]).

(** [DataProcessor._parse_officials] *)
Definition _parse_officials (doc : soup) (game_id : string)
    : list (gmap string scalar) :=
  match official_links doc with
  | None => []
  | Some links =>
      (fun '(i, (name, href)) =>
         <["game_id" := SStr game_id]>
         (<["official_name" := SStr name]>
         (<["official_url" := SStr href]>
         (<["position" := SInt (Z.of_nat i)]> ∅))))
      <$> enumerate 1 (take 3 links)
  end.

(** [DataProcessor.parse_html_file], from the parsed document on. *)
Definition parse_html_file (doc : soup) (stem : string)
    : option (gmap string pyval) :=
  match _parse_basic_game_info doc stem with
  | None => None
  | Some game_data =>
      let game_id := stem in
      let team_stats := _parse_team_stats doc game_id in
      let game_data := <["team_stats" := Rows team_stats]> game_data in
      let player_stats := _parse_player_stats doc game_id in
      let game_data := <["player_stats" := Rows player_stats]> game_data in
      let officials := _parse_officials doc game_id in
      let game_data := <["officials" := Rows officials]> game_data in
      Some game_data
  end.

End Assembler.

(** ** The mapped classes of [models.py]

    Each class is given by the names of its columns and of its
    relationships, as declared. *)

Definition basic_columns : list string :=
  ["fg"; "fga"; "fg_pct"; "fg3"; "fg3a"; "fg3_pct"; "ft"; "fta"; "ft_pct";
   "orb"; "drb"; "trb"; "ast"; "stl"; "blk"; "tov"; "pf"; "pts"].

Definition advanced_columns : list string :=
  ["ts_pct"; "efg_pct"; "fg3a_rate"; "fta_rate"; "orb_pct"; "drb_pct";
   "trb_pct"; "ast_pct"; "stl_pct"; "blk_pct"; "tov_pct"; "usg_pct";
   "off_rtg"; "def_rtg"].

Definition max_columns : list string :=
  ["fg_max"; "fga_max"; "fg3_max"; "fg3a_max"; "ft_max"; "fta_max";
   "orb_max"; "drb_max"; "trb_max"; "ast_max"; "stl_max"; "blk_max";
   "tov_max"; "pf_max"; "pts_max"].

Record mapped_class : Type := MappedClass {
  columns : list string;
  relationships : list string;
}.

Definition Game : mapped_class :=
  MappedClass
    ["id"; "game_id"; "date"; "season"; "home_team"; "away_team";
     "home_score"; "away_score"; "home_won"]
    ["home_stats"; "away_stats"; "officials"].

Definition TeamGameStats : mapped_class :=
  MappedClass
    (["id"; "game_id"; "team"; "is_home"] ++ basic_columns ++ advanced_columns
       ++ max_columns ++ ["home_game_id"; "away_game_id"])%list
    ["home_game"; "away_game"].

Definition GameOfficial : mapped_class :=
  MappedClass
    ["id"; "game_id"; "official_name"; "official_url"; "position"]
    ["game"].

Definition PlayerGameStats : mapped_class :=
  MappedClass
    (["id"; "game_id"; "team"; "player_name"; "player_url"; "mp"]
       ++ basic_columns ++ ["plus_minus"] ++ advanced_columns ++ ["bpm"])%list
    [].

(** [hasattr(cls, key)], for the names the class declares. *)
Definition hasattr (cls : mapped_class) (key : string) : bool :=
  bool_decide (key ∈ columns cls) || bool_decide (key ∈ relationships cls).

Definition is_column (cls : mapped_class) (key : string) : bool :=
  bool_decide (key ∈ columns cls).

(** ** The ingestion store *)

Section Store.
Context `{FM : FloatModel}.

(** A stored row: the values of the attributes that were assigned. *)
Abbreviation srow := (gmap string scalar).

Record store : Type := Store {
  games : list srow;
  team_game_stats : list srow;
  player_game_stats : list srow;
  game_officials : list srow;
}.

Global Instance store_eq_dec : EqDecision store.
Proof. solve_decision. Defined.

(** The storage layer's verdict on a transaction that takes the committed
    state [old] to [new] (uniqueness and not-null constraints, write
    errors): the transaction is applied as a whole or not at all. *)
Variable db_accepts : store -> store -> bool.

(** [db.commit()]: nothing is sent to the database when the session holds
    no change. *)
Definition commit (old new : store) : result store :=
  if decide (new = old) then Ok old
  else if db_accepts old new then Ok new
  else Raise IntegrityError.

(** The three messages the store logs. *)
Inductive log_event : Type :=
  | LogSkipped
  | LogSaved
  | LogUpdated
  | LogError.

(** [d[key]] *)
Definition getitem {V} (d : gmap string V) (key : string) : result V :=
  match d !! key with
  | Some v => Ok v
  | None => Raise KeyError
  end.

(** A value bound to a column or compared with one must be a scalar. *)
Definition bind_param (v : pyval) : result scalar :=
  match v with
  | Scalar x => Ok x
  | Rows _ => Raise TypeError
  end.

(** The constructor the declarative base gives every mapped class, called
    with the mapping as keywords: a keyword that is not an attribute of the
    class is a [TypeError]; a plain value assigned to a relationship is
    refused as well. *)
Definition construct (cls : mapped_class) (kwargs : srow) : result srow :=
  if negb (bool_decide (map_Forall (fun k _ => hasattr cls k = true) kwargs))
  then Raise TypeError
  else if negb (bool_decide (map_Forall (fun k _ => is_column cls k = true) kwargs))
  then Raise AttributeError
  else Ok kwargs.

(** The same constructor on the game mapping, whose values may be lists,
    together with the binding of the row's values: a scalar goes to a
    column and an empty list to a relationship; a list of mappings is not a
    collection of mapped objects, and a list cannot be bound to a column.
    A keyword that names no attribute of [Game] ([team_stats],
    [player_stats]) is refused like any other. *)
Definition game_attr_ok (key : string) (v : pyval) : bool :=
  match v with
  | Scalar _ => is_column Game key
  | Rows l => bool_decide (key ∈ relationships Game) && bool_decide (l = [])
  end.

Definition scalar_of (v : pyval) : option scalar :=
  match v with
  | Scalar x => Some x
  | Rows _ => None
  end.

Definition construct_game (game_data : gmap string pyval) : result srow :=
  if bool_decide (map_Forall (fun k v => game_attr_ok k v = true) game_data)
  then Ok (omap scalar_of game_data)
  else Raise TypeError.

(** [db.query(Game).filter(Game.game_id == gid).first()] *)
Definition find_game (s : store) (gid : scalar) : option (nat * srow) :=
  list_find (fun g : srow => g !! "game_id" = Some gid) (games s).

(** [for x in game_data.get(key, [])]: the elements iterated over. *)
Definition iter_rows (o : option pyval) : result (list srow) :=
  match o with
  | None => Ok []
  | Some (Rows l) => Ok l
  | Some (Scalar (SStr "")) => Ok []
  | Some (Scalar _) => Raise TypeError
  end.

Fixpoint mapM {A B} (f : A -> result B) (l : list A) : result (list B) :=
  match l with
  | [] => Ok []
  | a :: r => b ← f a; bs ← mapM f r; Ok (b :: bs)
  end.

Definition add_game (game : srow) (s : store) : store :=
  Store (games s ++ [game])%list (team_game_stats s) (player_game_stats s)
    (game_officials s).

Definition add_records (ts ps os : list srow) (s : store) : store :=
  Store (games s) (team_game_stats s ++ ts)%list
    (player_game_stats s ++ ps)%list (game_officials s ++ os)%list.

(** [DataProcessor.save_game_to_database] (the same text as
    [scraper.save_game_to_database]): the resulting committed state and the
    message logged. *)
Definition save_game_to_database (s : store) (game_data : gmap string pyval)
    : store * log_event :=
  match (v ← getitem game_data "game_id"; gid ← bind_param v;
         Ok (find_game s gid)) with
  | Raise _ => (s, LogError)
  | Ok (Some _) => (s, LogSkipped)
  | Ok None =>
      match (game ← construct_game game_data; commit s (add_game game s)) with
      | Raise _ => (s, LogError)
      | Ok s1 =>
          match (team_stats ← iter_rows (game_data !! "team_stats");
                 ts ← mapM (construct TeamGameStats) team_stats;
                 player_stats ← iter_rows (game_data !! "player_stats");
                 ps ← mapM (construct PlayerGameStats) player_stats;
                 officials ← iter_rows (game_data !! "officials");
                 os ← mapM (construct GameOfficial) officials;
                 commit s1 (add_records ts ps os s1)) with
          | Raise _ => (s1, LogError)
          | Ok s2 => (s2, LogSaved)
          end
      end
  end.

(** [for key, value in payload.items(): if hasattr(existing, key):
    setattr(existing, key, value)] *)
Definition patch (cls : mapped_class) (existing payload : srow) : result srow :=
  if bool_decide (map_Forall
       (fun k _ => hasattr cls k = true -> is_column cls k = true) payload)
  then Ok (filter (fun kv => is_column cls kv.1 = true) payload ∪ existing)
  else Raise AttributeError.

(** One round of a sub-record loop of [update_game_data]. The query runs
    against the committed rows (the session does not flush before a query);
    the row it finds is patched in the session, a sub-record it does not
    find is constructed and added. *)
Definition update_record (cls : mapped_class) (stored : list srow)
    (key_of : srow -> result (srow -> bool))
    (st : list srow * list srow) (payload : srow)
    : result (list srow * list srow) :=
  let '(loaded, added) := st in
  same_key ← key_of payload;
  match list_find (fun r => same_key r = true) stored with
  | Some (i, _) =>
      match loaded !! i with
      | Some existing =>
          patched ← patch cls existing payload;
          Ok (<[i := patched]> loaded, added)
      | None => Ok (loaded, added)
      end
  | None =>
      new_record ← construct cls payload;
      Ok (loaded, (added ++ [new_record])%list)
  end.

Definition team_key (gid : scalar) (team_stat : srow) : result (srow -> bool) :=
  team ← getitem team_stat "team";
  Ok (fun r : srow =>
        bool_decide (r !! "game_id" = Some gid) &&
        bool_decide (r !! "team" = Some team)).

Definition player_key (gid : scalar) (player_stat : srow) : result (srow -> bool) :=
  player_name ← getitem player_stat "player_name";
  team ← getitem player_stat "team";
  Ok (fun r : srow =>
        bool_decide (r !! "game_id" = Some gid) &&
        bool_decide (r !! "player_name" = Some player_name) &&
        bool_decide (r !! "team" = Some team)).

(** [scrape_recent_data.update_game_data] *)
Definition update_game_data (s : store) (game_data : gmap string pyval)
    : store * option log_event :=
  let attempt : result (option store) :=
    gid ← getitem game_data "game_id" ≫= bind_param;
    match find_game s gid with
    | None => Ok None
    | Some (gi, game) =>
        home_score ← getitem game_data "home_score" ≫= bind_param;
        away_score ← getitem game_data "away_score" ≫= bind_param;
        home_won ← getitem game_data "home_won" ≫= bind_param;
        let game' :=
          <["home_won" := home_won]>
            (<["away_score" := away_score]>
               (<["home_score" := home_score]> game)) in
        team_stats ← iter_rows (game_data !! "team_stats");
        teams ← foldM (update_record TeamGameStats (team_game_stats s)
                         (team_key gid))
                  (team_game_stats s, []) team_stats;
        player_stats ← iter_rows (game_data !! "player_stats");
        players ← foldM (update_record PlayerGameStats (player_game_stats s)
                           (player_key gid))
                    (player_game_stats s, []) player_stats;
        s' ← commit s
               (Store (<[gi := game']> (games s))
                  (teams.1 ++ teams.2)%list
                  (players.1 ++ players.2)%list
                  (game_officials s));
        Ok (Some s')
    end in
  match attempt with
  | Ok None => (s, None)
  | Ok (Some s') => (s', Some LogUpdated)
  | Raise _ => (s, Some LogError)
  end.

End Store.

(** ** The retrying fetcher ([BasketballScraper.get_html_with_retry])

    One attempt is the throttled block: load the page, wait the settle
    delay, take the content. It yields the markup, or raises the browser's
    timeout, or raises something else. What the fetcher does besides is
    recorded as a trace: the attempts, the sleeps between them (as the
    factor applied to [settings.REQUEST_DELAY]) and the log messages, which
    are the only place where the address and the error appear. *)

Inductive attempt_result : Type :=
  | Loaded (html : string)
  | TimedOut
  | Failed (message : string).

Inductive fetch_event : Type :=
  | Goto (url : string) (attempt : nat)
  | Sleep (factor : Z)
  | LogTimeout (url : string) (attempt_number : Z)
  | LogGaveUp (url : string) (max_retries : Z)
  | LogFetchError (url : string) (message : string).

(** [settings.MAX_RETRIES] *)
Definition MAX_RETRIES : Z := 3.

(** [max_retries or settings.MAX_RETRIES] *)
Definition or_default (max_retries : option Z) : Z :=
  match max_retries with
  | Some n => if n =? 0 then MAX_RETRIES else n
  | None => MAX_RETRIES
  end.

Section Fetcher.
(** The page: what the attempt numbered [attempt] (from 0) at [url] yields. *)
Variable page : string -> nat -> attempt_result.

Fixpoint attempts (url : string) (max_retries : Z) (range : list nat)
    : option string * list fetch_event :=
  match range with
  | [] => (None, [])
  | attempt :: rest =>
      match page url attempt with
      | Loaded html => (Some html, [Goto url attempt])
      | TimedOut =>
          if Z.of_nat attempt =? max_retries - 1 then
            (None, [Goto url attempt; LogTimeout url (Z.of_nat attempt + 1);
                    LogGaveUp url max_retries])
          else
            let '(html, trace) := attempts url max_retries rest in
            (html, Goto url attempt :: LogTimeout url (Z.of_nat attempt + 1)
                     :: Sleep (Z.of_nat attempt + 1) :: trace)
      | Failed e =>
          if Z.of_nat attempt =? max_retries - 1 then
            (None, [Goto url attempt; LogFetchError url e])
          else
            let '(html, trace) := attempts url max_retries rest in
            (html, Goto url attempt :: LogFetchError url e
                     :: Sleep (Z.of_nat attempt + 1) :: trace)
      end
  end.

Definition get_html_with_retry (url : string) (max_retries : option Z)
    : option string * list fetch_event :=
  let max_retries := or_default max_retries in
  attempts url max_retries (seq 0 (Z.to_nat max_retries)).

End Fetcher.

(** ** Reading the raw document store

    A file is its bytes; the text read from it is a list of code points.
    [f.read()] on a file opened in text mode decodes the bytes and, the
    [newline] argument being left to its default, reads every line ending
    as a line feed. *)

Definition byte_val (b : Byte.byte) : Z := Z.of_N (Byte.to_N b).

Definition is_continuation (b : Byte.byte) : bool :=
  (128 <=? byte_val b) && (byte_val b <=? 191).

Definition low6 (b : Byte.byte) : Z := Z.land (byte_val b) 63.

(** Second byte of a three-byte sequence: [E0] wants [A0..BF] (no overlong
    form), [ED] wants [80..9F] (no surrogate). *)
Definition second_of_three (c1 : Z) (b2 : Byte.byte) : bool :=
  is_continuation b2
  && negb ((c1 =? 224) && (byte_val b2 <? 160))
  && negb ((c1 =? 237) && (160 <=? byte_val b2)).

(** Second byte of a four-byte sequence: [F0] wants [90..BF], [F4] wants
    [80..8F]. *)
Definition second_of_four (c1 : Z) (b2 : Byte.byte) : bool :=
  is_continuation b2
  && negb ((c1 =? 240) && (byte_val b2 <? 144))
  && negb ((c1 =? 244) && (144 <=? byte_val b2)).

(** The sequence that starts with [b1]: its code point, or [None] for an
    ill-formed one, and the number of bytes it spans (for an ill-formed
    sequence, the bytes the error covers). *)
Definition utf8_head (b1 : Byte.byte) (r1 : list Byte.byte) : option Z * nat :=
  let c1 := byte_val b1 in
  if c1 <? 128 then (Some c1, 1%nat)
  else if c1 <? 194 then (None, 1%nat)
  else if c1 <? 224 then
    match r1 with
    | b2 :: _ =>
        if is_continuation b2
        then (Some (Z.lor (Z.shiftl (Z.land c1 31) 6) (low6 b2)), 2%nat)
        else (None, 1%nat)
    | [] => (None, 1%nat)
    end
  else if c1 <? 240 then
    match r1 with
    | b2 :: r2 =>
        if second_of_three c1 b2 then
          match r2 with
          | b3 :: _ =>
              if is_continuation b3
              then (Some (Z.lor (Z.shiftl (Z.land c1 15) 12)
                            (Z.lor (Z.shiftl (low6 b2) 6) (low6 b3))), 3%nat)
              else (None, 2%nat)
          | [] => (None, 2%nat)
          end
        else (None, 1%nat)
    | [] => (None, 1%nat)
    end
  else if c1 <? 245 then
    match r1 with
    | b2 :: r2 =>
        if second_of_four c1 b2 then
          match r2 with
          | b3 :: r3 =>
              if is_continuation b3 then
                match r3 with
                | b4 :: _ =>
                    if is_continuation b4
                    then (Some (Z.lor (Z.shiftl (Z.land c1 7) 18)
                                  (Z.lor (Z.shiftl (low6 b2) 12)
                                     (Z.lor (Z.shiftl (low6 b3) 6) (low6 b4)))),
                          4%nat)
                    else (None, 3%nat)
                | [] => (None, 3%nat)
                end
              else (None, 2%nat)
          | [] => (None, 2%nat)
          end
        else (None, 1%nat)
    | [] => (None, 1%nat)
    end
  else (None, 1%nat).

(** The [errors] argument of [open]. *)
Inductive error_handler : Type :=
  | strict
  | ignore.

(** [bytes.decode('utf-8', errors)] *)
Fixpoint utf8_decode (errors : error_handler) (bs : list Byte.byte)
    : result (list Z) :=
  match bs with
  | [] => Ok []
  | b1 :: r1 =>
      let '(cp, n) := utf8_head b1 r1 in
      let rest :=
        match n, r1 with
        | 1%nat, _ => utf8_decode errors r1
        | 2%nat, _ :: r2 => utf8_decode errors r2
        | 3%nat, _ :: _ :: r3 => utf8_decode errors r3
        | _, _ :: _ :: _ :: r4 => utf8_decode errors r4
        | _, _ => Ok []
        end in
      match cp with
      | Some c => cons c <$> rest
      | None =>
          match errors with
          | strict => Raise UnicodeDecodeError
          | ignore => rest
          end
      end
  end.

(** [bytes.decode('ISO-8859-1')] *)
Definition latin1_decode (bs : list Byte.byte) : list Z := byte_val <$> bs.

(** Universal newlines, the translation [open(path, 'r')] applies to the
    decoded text: a carriage return followed by a line feed, and a carriage
    return alone, are read as one line feed. *)
Fixpoint universal_newlines (text : list Z) : list Z :=
  match text with
  | [] => []
  | c :: rest =>
      if c =? 13 then
        10 :: match rest with
              | c' :: rest' =>
                  if c' =? 10 then universal_newlines rest'
                  else universal_newlines rest
              | [] => []
              end
      else c :: universal_newlines rest
  end.

(** [open(path, 'r', encoding=.., errors=..).read()] for the two encodings
    the readers use. *)
Definition read_utf8 (errors : error_handler) (bs : list Byte.byte)
    : result (list Z) :=
  universal_newlines <$> utf8_decode errors bs.

Definition read_latin1 (bs : list Byte.byte) : result (list Z) :=
  Ok (universal_newlines (latin1_decode bs)).

(** [parse_data_copilot.parse_html], up to the text handed to the parser:
    [None] is the logged failure of the second read. *)
Definition parse_html_read (bs : list Byte.byte) : result (option (list Z)) :=
  match read_utf8 strict bs with
  | Ok html => Ok (Some html)
  | Raise UnicodeDecodeError =>
      Ok (except_exception (Some <$> read_latin1 bs) None)
  | Raise e => Raise e
  end.

(** [DataProcessor.parse_html_file], up to the text handed to the parser:
    [open(file_path, 'r', encoding='utf-8', errors='ignore')]. *)
Definition parse_html_file_read (bs : list Byte.byte) : result (list Z) :=
  read_utf8 ignore bs.

(** ** Sample inputs *)

(** A basic box-score table: header, three player rows with 10, 25 and 8
    points, totals. *)
Definition box1 : table :=
  [ ["Starters"; "MP"; "FG"; "FGA"; "FG%"; "3P"; "3PA"; "3P%"; "FT"; "FTA";
     "FT%"; "ORB"; "DRB"; "TRB"; "AST"; "STL"; "BLK"; "TOV"; "PF"; "PTS"; "+/-"];
    ["A"; "30:00"; "4"; "9"; ".444"; "1"; "3"; ".333"; "1"; "2";
     ".500"; "1"; "2"; "3"; "4"; "1"; "0"; "2"; "3"; "10"; "+5"];
    ["B"; "20:00"; "9"; "15"; ".600"; "1"; "3"; ".333"; "6"; "7";
     ".857"; "1"; "2"; "3"; "4"; "1"; "0"; "2"; "3"; "25"; "-2"];
    ["C"; "20:00"; "3"; "5"; ".600"; "1"; "3"; ".333"; "1"; "2";
     ".500"; "1"; "2"; "3"; "4"; "1"; "0"; "2"; "3"; "8"; "0"];
    ["Team Totals"; "240"; "16"; "29"; ".552"; "3"; "9"; ".333"; "8"; "11";
     ".727"; "3"; "6"; "9"; "12"; "3"; "0"; "6"; "9"; "43"; ""] ].

Definition line_score1 : table :=
  [ [""; "1"; "2"; "3"; "4"; "T"];
    ["NYK"; "20"; "30"; "25"; "29"; "104"];
    ["BOS"; "28"; "30"; "25"; "25"; "108"] ].

Definition doc1 : soup :=
  Soup [("line_score", line_score1); ("box-home-game-basic", box1)]
    (Some [("Ref One", "/referees/one.html")]).

(** A document with the basic tables of both sides: the home table above
    and an away table with one player. *)
Definition box_away : table :=
  [ ["Starters"; "MP"; "FG"; "FGA"; "FG%"; "3P"; "3PA"; "3P%"; "FT"; "FTA";
     "FT%"; "ORB"; "DRB"; "TRB"; "AST"; "STL"; "BLK"; "TOV"; "PF"; "PTS"; "+/-"];
    ["D"; "35:00"; "7"; "12"; ".583"; "2"; "5"; ".400"; "4"; "4";
     "1.000"; "0"; "5"; "5"; "6"; "2"; "1"; "3"; "2"; "20"; "-4"];
    ["Team Totals"; "240"; "7"; "12"; ".583"; "2"; "5"; ".400"; "4"; "4";
     "1.000"; "0"; "5"; "5"; "6"; "2"; "1"; "3"; "2"; "20"; ""] ].

Definition doc_both : soup :=
  Soup [("line_score", line_score1); ("box-home-game-basic", box1);
        ("box-away-game-basic", box_away)]
    None.

(** A storage layer that accepts every transaction, one that refuses every
    transaction, and the empty store. *)
Definition always : store -> store -> bool := fun _ _ => true.
Definition empty_store : store := Store [] [] [] [].

(** A line score with equal totals. *)
Definition doc_tie : soup :=
  Soup [("line_score",
         [ [""; "1"; "2"; "3"; "4"; "T"];
           ["NYK"; "25"; "25"; "25"; "25"; "100"];
           ["BOS"; "25"; "25"; "25"; "25"; "100"] ])]
    None.

(** A store with one game, its two team rows and one player row, and a
    refresh payload for that game: new scores, the home team's line, and a
    player who is not stored yet. *)
Definition away_row : gmap string scalar :=
  <["game_id" := SStr "202310240BOS"]>
  (<["team" := SStr "away"]> (<["pts" := SInt 104]> ∅)).

Definition home_row : gmap string scalar :=
  <["game_id" := SStr "202310240BOS"]>
  (<["team" := SStr "home"]> (<["pts" := SInt 108]> (<["ast" := SInt 25]> ∅))).

Definition tatum_row : gmap string scalar :=
  <["game_id" := SStr "202310240BOS"]>
  (<["team" := SStr "home"]>
  (<["player_name" := SStr "Jayson Tatum"]> (<["pts" := SInt 34]> ∅))).

Definition store1 : store :=
  Store
    [omap scalar_of
       (game_info "202310240BOS" (Date 2023 10 24) 2023 "BOS" "NYK" 108 104
          true)]
    [home_row; away_row] [tatum_row] [].

(** The same store without its team rows. *)
Definition store2 : store :=
  Store (games store1) [] (player_game_stats store1) [].

Definition home_line : gmap string scalar :=
  <["game_id" := SStr "202310240BOS"]>
  (<["team" := SStr "home"]> (<["pts" := SInt 110]> (<["mp" := SInt 240]> ∅))).

Definition brown_line : gmap string scalar :=
  <["game_id" := SStr "202310240BOS"]>
  (<["team" := SStr "home"]>
  (<["player_name" := SStr "Jaylen Brown"]> (<["pts" := SInt 11]> ∅))).

Definition refresh1 : gmap string pyval :=
  <["team_stats" := Rows [home_line]]>
  (<["player_stats" := Rows [brown_line]]>
  (game_info "202310240BOS" (Date 2023 10 24) 2023 "BOS" "NYK" 110 104 true)).

(** A refresh payload for the stored game whose team entry carries the
    identifier of another game. *)
Definition other_line : gmap string scalar :=
  <["game_id" := SStr "202310250LAL"]>
  (<["team" := SStr "home"]> (<["pts" := SInt 99]> ∅)).

Definition refresh_other : gmap string pyval :=
  <["team_stats" := Rows [other_line]]>
  (game_info "202310240BOS" (Date 2023 10 24) 2023 "BOS" "NYK" 110 104 true).

(** ** Predicates and reference definitions used in the statements *)

Section Reference.
Context `{FM : FloatModel}.


(** Reference for the [_max] fields, as the specification words them: the
    maximum, over the rows between the header and the totals row, of the
    integer the cell at the field's offset holds (0 for a cell that is
    missing, empty or not a number). *)
Definition coerce_int (text : string) : Z :=
  if String.eqb text "" then 0
  else match py_int text with Ok z => z | Raise _ => 0 end.

Definition spec_int_max (rows : table) (offset : nat) : Z :=
  fold_left Z.max
    ((fun cells : row => coerce_int (default "" (cells !! offset)))
       <$> inner_rows rows) 0.

(** The stored row a payload record is matched with by the query of
    [update_game_data]: the index of the first stored row with its key. *)
Definition matched_index (stored : list (gmap string scalar))
    (key_of : gmap string scalar -> result (gmap string scalar -> bool))
    (payload : gmap string scalar) : option nat :=
  match key_of payload with
  | Ok same_key => fst <$> list_find (fun r => same_key r = true) stored
  | Raise _ => None
  end.

(** A stored row after a payload record has been written over it: the
    payload's entries that name a column, the other entries as they were. *)
Definition patched (cls : mapped_class) (payload existing : gmap string scalar)
    : gmap string scalar :=
  filter (fun kv => is_column cls kv.1 = true) payload ∪ existing.

(** The entries of the game mapping under [key], when it is a list. *)
Definition payload_rows (game_data : gmap string pyval) (key : string)
    : list (gmap string scalar) :=
  match game_data !! key with
  | Some (Rows l) => l
  | _ => []
  end.

(** The natural sub-key of a stored team row appears in the payload: the
    row belongs to the payload's game and some team entry names its team. *)
Definition team_in_payload (game_data : gmap string pyval)
    (r : gmap string scalar) : Prop :=
  exists gid p team,
    game_data !! "game_id" = Some (Scalar gid) /\
    p ∈ payload_rows game_data "team_stats" /\
    p !! "team" = Some team /\
    r !! "game_id" = Some gid /\ r !! "team" = Some team.

(** The natural sub-key of a stored player row appears in the payload. *)
Definition player_in_payload (game_data : gmap string pyval)
    (r : gmap string scalar) : Prop :=
  exists gid p team player_name,
    game_data !! "game_id" = Some (Scalar gid) /\
    p ∈ payload_rows game_data "player_stats" /\
    p !! "team" = Some team /\ p !! "player_name" = Some player_name /\
    r !! "game_id" = Some gid /\ r !! "team" = Some team /\
    r !! "player_name" = Some player_name.

End Reference.

(** What the fetcher does, the log messages left out. *)
Definition is_goto (e : fetch_event) : bool :=
  match e with Goto _ _ => true | _ => false end.

Definition is_action (e : fetch_event) : bool :=
  match e with Goto _ _ | Sleep _ => true | _ => false end.

Definition attempts_made (trace : list fetch_event) : nat :=
  length (List.filter is_goto trace).

(** [count] attempts numbered from [first], with a sleep of the delay times
    the 1-based number of the failed attempt between two of them. *)
Fixpoint backoff_schedule (url : string) (first count : nat) : list fetch_event :=
  match count with
  | O => []
  | S n =>
      match n with
      | O => [Goto url first]
      | S _ =>
          Goto url first :: Sleep (Z.of_nat first + 1)
            :: backoff_schedule url (S first) n
      end
  end.

Definition loaded (r : attempt_result) : option string :=
  match r with Loaded html => Some html | _ => None end.

(** ** The migration of the stored documents

    [DataProcessor.process_existing_files]: the loop over the files of the
    scores directory, a file being given by its stem and its parsed
    document. The state is the committed store with the two counters the
    method logs at the end. Neither call of the body raises (each catches
    every exception), so the handler that counts the errors is never
    entered. *)

Section Migration.
Context `{FM : FloatModel}.
Variable db_accepts : store -> store -> bool.

Definition process_file (st : store * (nat * nat)) (html_file : string * soup)
    : store * (nat * nat) :=
  let '(s, (processed_count, error_count)) := st in
  let '(stem, doc) := html_file in
  match parse_html_file doc stem with
  | Some game_data =>
      if bool_decide (game_data = ∅) then st
      else ((save_game_to_database db_accepts s game_data).1,
            (S processed_count, error_count))
  | None => st
  end.

Definition process_existing_files (s : store) (html_files : list (string * soup))
    : store * (nat * nat) :=
  fold_left process_file html_files (s, (0%nat, 0%nat)).

End Migration.

(** ** Patterns the scrapers search for

    [re.search(pattern, text)] returns the match at the leftmost position
    where the pattern matches; a pattern is given by what it matches at the
    head of a text. As for [int()], a digit is an ASCII digit. *)

Fixpoint re_search {A} (match_at : list ascii -> option A) (text : list ascii)
    : option A :=
  match match_at text with
  | Some m => Some m
  | None =>
      match text with
      | [] => None
      | _ :: rest => re_search match_at rest
      end
  end.

Definition is_upper (c : ascii) : bool := (65 <=? code c) && (code c <=? 90).

(** [/(\d{9}[A-Z]{3})\.html]: the group. *)
Definition game_id_pattern (text : list ascii) : option (list ascii) :=
  match text with
  | slash :: rest =>
      let group := take 12 rest in
      if (code slash =? 47) && (length group =? 12)%nat
         && forallb is_digit (take 9 group) && forallb is_upper (drop 9 group)
         && bool_decide (take 5 (drop 12 rest) = list_ascii_of_string ".html")
      then Some group
      else None
  | [] => None
  end.

(** [(\d{4})(\d{2})(\d{2})]: the three groups. *)
Definition date_pattern (text : list ascii)
    : option (list ascii * list ascii * list ascii) :=
  let digits := take 8 text in
  if (length digits =? 8)%nat && forallb is_digit digits
  then Some (take 4 digits, take 2 (drop 4 digits), drop 6 digits)
  else None.

(** [(\d{4}-\d{2}-\d{2})]: the group. *)
Definition iso_date_pattern (text : list ascii) : option (list ascii) :=
  match take 10 text with
  | [y1; y2; y3; y4; dash1; m1; m2; dash2; d1; d2] =>
      if forallb is_digit [y1; y2; y3; y4; m1; m2; d1; d2]
         && (code dash1 =? 45) && (code dash2 =? 45)
      then Some (take 10 text)
      else None
  | _ => None
  end.

(** [text.split('/')] and [text.replace('.html', '')] *)
Fixpoint split_slash (text : list ascii) : list (list ascii) :=
  match text with
  | [] => [[]]
  | c :: rest =>
      if code c =? 47 then [] :: split_slash rest
      else
        match split_slash rest with
        | segment :: more => (c :: segment) :: more
        | [] => [[c]]
        end
  end.

Fixpoint remove_html (text : list ascii) : list ascii :=
  match text with
  | [] => []
  | c1 :: rest =>
      match rest with
      | c2 :: c3 :: c4 :: c5 :: after =>
          if bool_decide ([c1; c2; c3; c4; c5] = list_ascii_of_string ".html")
          then remove_html after
          else c1 :: remove_html rest
      | _ => c1 :: remove_html rest
      end
  end.

(** [datetime(year, month, day)]: the date, or [ValueError] when it is not
    one of the calendar. *)
Definition datetime (y m d : Z) : result date :=
  if (1 <=? y) && (y <=? 9999) && (1 <=? m) && (m <=? 12) && (1 <=? d)
     && (d <=? days_in_month y m)
  then Ok (Date y m d)
  else Raise ValueError.

(** [datetime.strptime(text, "%Y-%m-%d")]: the pattern of [strptime_Ymd]
    with a dash before the month and before the day; each dash has to
    match for the alternative tried before it to be kept. *)
Definition strptime_iso (text : string) : result date :=
  match list_ascii_of_string text with
  | y1 :: y2 :: y3 :: y4 :: dash :: rest =>
      if is_digit y1 && is_digit y2 && is_digit y3 && is_digit y4
         && (code dash =? 45) then
        let y := digits_num 0 [y1; y2; y3; y4] in
        match first_alt month_alts
                (fun m r =>
                   match r with
                   | dash2 :: r' =>
                       if code dash2 =? 45
                       then first_alt day_alts (fun d r'' => Some (m, d, r'')) r'
                       else None
                   | [] => None
                   end)
                rest with
        | Some (m, d, []) =>
            if (1 <=? y) && (d <=? days_in_month y m)
            then Ok (Date y m d)
            else Raise ValueError
        | _ => Raise ValueError
        end
      else Raise ValueError
  | _ => Raise ValueError
  end.

(** [settings.BASE_URL] *)
Definition BASE_URL : string := "https://www.basketball-reference.com".

(** ** The scrapers' parsers

    [BasketballScraper._parse_player_row] and
    [EnhancedBasketballScraper._parse_player_row] build the same mapping as
    the processor's method and return it; they do not look for an advanced
    table. The two classes read the line score as the processor does and
    differ in where they take the date from. *)

Module Scraper.
Section Parsers.
Context `{FM : FloatModel}.

Definition _parse_player_row (cells : row) (game_id team : string)
    : option (gmap string scalar) :=
  except_exception
    (if (length cells <? 10)%nat then Ok None
     else
       let player_name := default "" (head cells) in
       if String.eqb player_name "" || String.eqb player_name "Reserves"
          || String.eqb player_name "Team Totals"
       then Ok None
       else
         stats ← player_basic_stats cells game_id team player_name;
         Ok (Some stats))
    None.

Definition _parse_player_stats (doc : soup) (game_id : string)
    : list (gmap string scalar) :=
  mjoin
    (omap
       (fun team : string =>
          match find_table doc ("box-" +:+ team +:+ "-game-basic") with
          | None => None
          | Some basic_table =>
              Some (omap (fun cells => _parse_player_row cells game_id team)
                      (inner_rows basic_table))
          end)
       ["home"; "away"]).

(** [BasketballScraper.parse_game_id] *)
Definition parse_game_id (url : string) : string :=
  let text := list_ascii_of_string url in
  match re_search game_id_pattern text with
  | Some group => string_of_list_ascii group
  | None =>
      string_of_list_ascii (remove_html (default [] (last (split_slash text))))
  end.

(** [BasketballScraper.parse_date_from_filename] *)
Definition parse_date_from_filename (filename : string) : result date :=
  let date_str := substring 0 8 filename in
  strptime_Ymd date_str.

(** [BasketballScraper._parse_basic_game_info]. [scorebox] is the text of
    the first [div] of class [scorebox] ([None] when the page has none),
    [today] is [datetime.now().strftime("%Y-%m-%d")]. *)
Definition _parse_basic_game_info (scorebox : option string) (today : string)
    (doc : soup) (game_id : string) : option (gmap string pyval) :=
  except_exception
    (match find_table doc "line_score" with
     | None => Ok None
     | Some line_score_table =>
         let rows := tl line_score_table in
         if (length rows <? 2)%nat then Ok None
         else
           ts ← foldM add_line ([], []) rows;
           match ts with
           | ([away_team; home_team], [away_score; home_score]) =>
               let home_won := away_score <? home_score in
               let date_match :=
                 match scorebox with
                 | Some date_text =>
                     re_search iso_date_pattern (list_ascii_of_string date_text)
                 | None => None
                 end in
               let date_str :=
                 match date_match with
                 | Some group => string_of_list_ascii group
                 | None => today
                 end in
               game_date ← strptime_iso date_str;
               let season := season_of game_date in
               Ok (Some (game_info game_id game_date season home_team
                           away_team home_score away_score home_won))
           | _ => Ok None
           end
     end)
    None.

End Parsers.
End Scraper.

(** [EnhancedBasketballScraper._parse_basic_game_info] reads the date off
    the identifier, and takes the clock's when the identifier has no eight
    digits in a row; [now] is the date of [datetime.now()]. *)

Module Enhanced.
Section Parsers.
Context `{FM : FloatModel}.
Variable now : date.

Definition game_date_of (game_id : string) : result date :=
  match re_search date_pattern (list_ascii_of_string game_id) with
  | Some (year, month, day) =>
      y ← py_int (string_of_list_ascii year);
      m ← py_int (string_of_list_ascii month);
      d ← py_int (string_of_list_ascii day);
      datetime y m d
  | None => Ok now
  end.

Definition _parse_basic_game_info (doc : soup) (game_id : string)
    : option (gmap string pyval) :=
  except_exception
    (match find_table doc "line_score" with
     | None => Ok None
     | Some line_score_table =>
         let rows := tl line_score_table in
         if (length rows <? 2)%nat then Ok None
         else
           ts ← foldM add_line ([], []) rows;
           match ts with
           | ([away_team; home_team], [away_score; home_score]) =>
               let home_won := away_score <? home_score in
               game_date ← game_date_of game_id;
               let season := season_of game_date in
               Ok (Some (game_info game_id game_date season home_team
                           away_team home_score away_score home_won))
           | _ => Ok None
           end
     end)
    None.

(** [EnhancedBasketballScraper._parse_leaders_table]. The entry of a row
    is built field by field, in the order of the dictionary display; a
    conversion that raises ends the loop, and the handler returns the
    entries collected so far. *)
Definition leader_of (cells : row) : result (gmap string scalar) :=
  rank ← py_int (default "" (cells !! 0%nat));
  let player := default "" (cells !! 1%nat) in
  let team := default "" (cells !! 2%nat) in
  value ← py_float (default "" (cells !! 3%nat));
  games ← py_int (default "" (cells !! 4%nat));
  let minutes := default "" (cells !! 5%nat) in
  Ok (<["rank" := SInt rank]>
      (<["player" := SStr player]>
      (<["team" := SStr team]>
      (<["value" := SFloat value]>
      (<["games" := SInt games]>
      (<["minutes" := SStr minutes]> ∅)))))).

Definition add_leader (leaders : list (gmap string scalar)) (cells : row)
    : list (gmap string scalar) * bool :=
  if (8 <=? length cells)%nat then
    match leader_of cells with
    | Ok leader => ((leaders ++ [leader])%list, true)
    | Raise _ => (leaders, false)
    end
  else (leaders, true).

Definition _parse_leaders_table (doc : soup) (category : string)
    : list (gmap string scalar) :=
  match find_table doc "stats" with
  | Some table => (for_each add_leader [] (tl table)).1
  | None => []
  end.

End Parsers.
End Enhanced.

(** The entry a row of the leaders table gives, when it is wide enough and
    its numbers can be read. *)
Definition leader_entry `{FM : FloatModel} (cells : row)
    : option (gmap string scalar) :=
  if (8 <=? length cells)%nat then
    match Enhanced.leader_of cells with
    | Ok leader => Some leader
    | Raise _ => None
    end
  else None.

(** A row that cannot stop the loop: too narrow to be read, or read. *)
Definition passes `{FM : FloatModel} (cells : row) : Prop :=
  (length cells < 8)%nat \/ is_Some (leader_entry cells).

(** A leaders table whose third row holds a dash for the rank. *)
Definition leaders1 : soup :=
  Soup [("stats",
         [ ["Rk"; "Player"; "Tm"; "PTS"; "G"; "MP"; "FG"; "FGA"];
           ["1"; "Joel Embiid"; "PHI"; "33.1"; "66"; "34.6"; "11.0"; "20.1"];
           ["2"; "Luka Doncic"; "DAL"; "32.4"; "66"; "36.2"; "10.9"; "22.0"];
           ["-"; "Damian Lillard"; "POR"; "32.2"; "58"; "36.3"; "9.6"; "20.7"];
           ["4"; "Shai Gilgeous-Alexander"; "OKC"; "31.4"; "68"; "35.5";
            "10.4"; "20.3"] ])]
    None.

(** ** Further reference definitions *)

(** The identifiers of the stored games, in storage order. *)
Definition game_ids `{FM : FloatModel} (s : store) : list (option scalar) :=
  (fun g : gmap string scalar => g !! "game_id") <$> games s.

(** The waits between attempts a trace adds up to, in units of
    [settings.REQUEST_DELAY], and their number. These are the sleeps of the
    two handlers; the wait of one delay the throttled block makes after the
    page has loaded belongs to the attempt and is no event of the trace. *)
Definition backoff_total (trace : list fetch_event) : Z :=
  fold_right (fun e acc => match e with Sleep factor => factor + acc | _ => acc end)
    0 trace.

Definition is_sleep (e : fetch_event) : bool :=
  match e with Sleep _ => true | _ => false end.

(** A file in which every byte is below 128. *)
Definition is_ascii (bs : list Byte.byte) : Prop :=
  Forall (fun b => byte_val b < 128) bs.

(** The keys of a positional schema: the names of the schema and, for the
    basic one, the same names with the suffix of the maxima. *)
Definition schema_key `{FM : FloatModel} (stat_type key : string) : Prop :=
  exists i name,
    stat_mapping stat_type !! i = Some name /\
    (key = name \/ (stat_type = "basic" /\ key = name +:+ "_max")).

(** Where a key of the mapper's result comes from: a cell of the totals
    row at the offset of its name, or a maximum of the basic schema. *)
Definition key_origin `{FM : FloatModel} (st : string) (totals : row)
    (k : string) : Prop :=
  (exists i, stat_mapping st !! i = Some k /\ (i < length totals)%nat) \/
  (exists i name, stat_mapping st !! i = Some name /\ st = "basic" /\
     k = name +:+ "_max").

(** The text ends in [_max]. *)
Fixpoint ends_in_max (s : string) : bool :=
  match s with
  | EmptyString => false
  | String _ r => String.eqb s "_max" || ends_in_max r
  end.

(** What is checked of each entry of a schema, the schema being given by
    the list of its entries: offsets start at 1, no name ends in [_max] or
    is one of the three identifying keys, and no name has two offsets. *)
Definition entry_ok (entries : list (nat * string)) (p : nat * string) : Prop :=
  (1 <= fst p)%nat /\ ends_in_max (snd p) = false /\
  (snd p ∉ ["game_id"; "team"; "is_home"]) /\
  Forall (fun q : nat * string => snd q = snd p -> fst q = fst p) entries.

Global Instance entry_ok_dec entries p : Decision (entry_ok entries p).
Proof. unfold entry_ok. apply _. Defined.

(** ** Standings ([DatabaseManager.get_team_standings])

    The query returns the [Game] rows of a season; a loaded row is given by
    the columns the method reads, none of which is null. The standings are
    the dictionary the loop builds, keyed by team. The data frame made of
    it has one row per team; it is given here as a map from the team to
    its row, the order in which [sort_values] puts the rows being left
    out. [sort_values('wins')] on the frame of an empty list, which has no
    column, is a [KeyError]; the quotient [win_pct] is kept exact. *)

Module DatabaseManager.

Record game_row : Type := GameRow {
  season : Z;
  home_team : string;
  away_team : string;
  home_score : Z;
  away_score : Z;
  home_won : bool;
}.

Record standing : Type := Standing {
  wins : Z;
  losses : Z;
  points_for : Z;
  points_against : Z;
}.

Global Instance standing_eq_dec : EqDecision standing.
Proof. solve_decision. Defined.

(** One side of one game: the entry of the team is created with zeros when
    it is missing, then the result and the points are added to it. *)
Definition record_side (team : string) (won : bool) (scored conceded : Z)
    (standings : gmap string standing) : gmap string standing :=
  let stats := default (Standing 0 0 0 0) (standings !! team) in
  <[team := Standing (if won then wins stats + 1 else wins stats)
              (if won then losses stats else losses stats + 1)
              (points_for stats + scored)
              (points_against stats + conceded)]> standings.

(** Body of the loop: the home side, then the away side. *)
Definition record_game (standings : gmap string standing) (game : game_row)
    : gmap string standing :=
  record_side (away_team game) (negb (home_won game)) (away_score game)
    (home_score game)
    (record_side (home_team game) (home_won game) (home_score game)
       (away_score game) standings).

(** [session.query(Game).filter(Game.season == season).all()] *)
Definition games_of_season (games : list game_row) (year : Z) : list game_row :=
  filter (fun game => season game = year) games.

Definition standings (games : list game_row) (year : Z) : gmap string standing :=
  fold_left record_game (games_of_season games year) ∅.

Record standing_row : Type := StandingRow {
  row_wins : Z;
  row_losses : Z;
  win_pct : Q;
  row_points_for : Z;
  row_points_against : Z;
  point_diff : Z;
}.

Definition row_of (stats : standing) : standing_row :=
  StandingRow (wins stats) (losses stats)
    (if 0 <? wins stats + losses stats
     then Qmake (wins stats) (Z.to_pos (wins stats + losses stats))
     else 0%Q)
    (points_for stats) (points_against stats)
    (points_for stats - points_against stats).

Definition get_team_standings (games : list game_row) (year : Z)
    : result (gmap string standing_row) :=
  let data := row_of <$> standings games year in
  if decide (data = ∅) then Raise KeyError else Ok data.

End DatabaseManager.

(** The sum of a column of the standings, and the number of times a team
    appears in a list of games, at home or away. *)
Definition column_total (column : DatabaseManager.standing -> Z)
    (standings : gmap string DatabaseManager.standing) : Z :=
  map_fold (fun _ stats acc => column stats + acc) 0 standings.

Definition appearances (team : string) (games : list DatabaseManager.game_row)
    : Z :=
  Z.of_nat (length (filter (fun game => DatabaseManager.home_team game = team) games))
  + Z.of_nat (length (filter (fun game => DatabaseManager.away_team game = team) games)).

(** * Properties *)

(** ** Properties of the stat mapper *)

Section StatMapperFacts.
Context `{FM : FloatModel}.

Lemma _safe_int_cell (t : string) :
  _safe_int (Cell t) =
  Ok (if String.eqb t "" then 0
      else match py_int t with Ok z => z | Raise _ => 0 end).
Proof.
  unfold _safe_int, get_text; simpl.
  destruct (String.eqb t ""); simpl; [reflexivity|].
  unfold py_int.
  destruct (match strip (list_ascii_of_string t) with [] => None | _ => _ end);
    reflexivity.
Qed.

Lemma _safe_float_cell (t : string) :
  _safe_float (Cell t) =
  match (if String.eqb t "" then Ok float_zero else py_float t) with
  | Ok f => Ok f
  | Raise ValueError | Raise AttributeError => Ok float_zero
  | Raise e => Raise e
  end.
Proof.
  unfold _safe_float, get_text; simpl.
  destruct (String.eqb t ""); simpl; reflexivity.
Qed.

Lemma _safe_int_text (s : string) : _safe_int (Text s) = Ok 0.
Proof. reflexivity. Qed.

Lemma _safe_float_text (s : string) : _safe_float (Text s) = Ok float_zero.
Proof. reflexivity. Qed.

Lemma _safe_int_never_raises (o : pyobj) : exists z, _safe_int o = Ok z.
Proof.
  destruct o as [t|s]; [rewrite _safe_int_cell | rewrite _safe_int_text]; eauto.
Qed.

(** In the stat mapper every coercion receives a [str]. *)
Lemma set_total_eq st stats i cell :
  set_total st stats (i, cell) =
  match stat_mapping st !! i with
  | Some name =>
      (<[name := if String.eqb st "basic" then
                   if contains "pct" name then SFloat float_zero else SInt 0
                 else SFloat float_zero]> stats, true)
  | None => (stats, true)
  end.
Proof.
  unfold set_total. destruct (stat_mapping st !! i) as [name|]; [|reflexivity].
  destruct (String.eqb st "basic"); [destruct (contains "pct" name)|];
    reflexivity.
Qed.

Lemma set_max_eq st stats j cell :
  set_max st stats (j, cell) =
  match stat_mapping st !! j with
  | Some name =>
      (<[name +:+ "_max" :=
           if contains "pct" name
           then py_max (default (SFloat float_zero) (stats !! (name +:+ "_max")))
                  (SFloat float_zero)
           else py_max (default (SInt 0) (stats !! (name +:+ "_max")))
                  (SInt 0)]> stats, true)
  | None => (stats, true)
  end.
Proof.
  unfold set_max. destruct (stat_mapping st !! j) as [name|]; [|reflexivity].
  destruct (contains "pct" name); reflexivity.
Qed.

(** A loop whose body never raises is a left fold. *)
Lemma for_each_total {S A} (body : S -> A -> S * bool) (s : S) (l : list A) :
  (forall s a, (body s a).2 = true) ->
  for_each body s l = (fold_left (fun s a => (body s a).1) l s, true).
Proof.
  intros Hok. revert s. induction l as [|a l IH]; intros s; simpl; [reflexivity|].
  specialize (Hok s a). destruct (body s a) as [s' ok]; simpl in *. subst ok.
  apply IH.
Qed.

Lemma set_total_ok st stats ic : (set_total st stats ic).2 = true.
Proof.
  destruct ic as [i c]. rewrite set_total_eq.
  destruct (stat_mapping st !! i); reflexivity.
Qed.

Lemma set_max_ok st stats jc : (set_max st stats jc).2 = true.
Proof.
  destruct jc as [j c]. rewrite set_max_eq.
  destruct (stat_mapping st !! j); reflexivity.
Qed.

Lemma set_row_max_ok st stats cells : (set_row_max st stats cells).2 = true.
Proof.
  unfold set_row_max. rewrite for_each_total; [reflexivity|].
  intros; apply set_max_ok.
Qed.

(** Invariants of a fold are invariants of its result. *)
Lemma fold_left_invariant {S A} (P : S -> Prop) (f : S -> A -> S) l s :
  (forall s a, P s -> P (f s a)) -> P s -> P (fold_left f l s).
Proof.
  intros Hstep. revert s. induction l as [|a l IH]; simpl; auto.
Qed.






(** The mapper as two folds. *)
Lemma _parse_stats_table_eq (rows : table) (totals : row) (st : string) :
  last rows = Some totals ->
  _parse_stats_table (Some rows) st =
  let stats :=
    fold_left (fun s ic => (set_total st s ic).1) (enumerate 1 (tl totals)) ∅ in
  if String.eqb st "basic"
  then fold_left (fun s r => (set_row_max st s r).1) (inner_rows rows) stats
  else stats.
Proof.
  intros Hlast. unfold _parse_stats_table. rewrite Hlast.
  rewrite for_each_total by (intros; apply set_total_ok). simpl.
  destruct (String.eqb st "basic"); [|reflexivity].
  rewrite for_each_total by (intros; apply set_row_max_ok). reflexivity.
Qed.


End StatMapperFacts.

Section StatMapperKeys.
Context `{FM : FloatModel}.

Lemma set_total_keeps st stats ic k :
  is_Some (stats !! k) -> is_Some ((set_total st stats ic).1 !! k).
Proof.
  intros Hk. destruct ic as [i c]. rewrite set_total_eq.
  destruct (stat_mapping st !! i) as [name|]; simpl; [|exact Hk].
  apply lookup_insert_is_Some'. by right.
Qed.

Lemma set_max_keeps st stats jc k :
  is_Some (stats !! k) -> is_Some ((set_max st stats jc).1 !! k).
Proof.
  intros Hk. destruct jc as [j c]. rewrite set_max_eq.
  destruct (stat_mapping st !! j) as [name|]; simpl; [|exact Hk].
  apply lookup_insert_is_Some'. by right.
Qed.

Lemma set_row_max_keeps st stats cells k :
  is_Some (stats !! k) -> is_Some ((set_row_max st stats cells).1 !! k).
Proof.
  intros Hk. unfold set_row_max.
  rewrite for_each_total by (intros; apply set_max_ok). simpl.
  apply fold_left_invariant; [|exact Hk].
  intros; by apply set_max_keeps.
Qed.

Lemma basic_offset_1 : stat_mapping "basic" !! 1%nat = Some "mp".
Proof. reflexivity. Qed.

(** A totals row with a cell at offset 1 puts the key [mp] in the basic
    mapping. *)
Lemma basic_mapping_has_mp (rows : table) (c0 c1 : string) (cells : row) :
  last rows = Some (c0 :: c1 :: cells) ->
  is_Some (_parse_stats_table (Some rows) "basic" !! "mp").
Proof.
  intros Hlast. rewrite (_parse_stats_table_eq _ _ _ Hlast).
  cbn [tl enumerate fold_left String.eqb Ascii.eqb Bool.eqb].
  apply fold_left_invariant; [intros; by apply set_row_max_keeps|].
  apply fold_left_invariant; [intros; by apply set_total_keeps|].
  rewrite set_total_eq, basic_offset_1. cbn [fst].
  rewrite lookup_insert_eq. eauto.
Qed.

(** A row between the header and the totals row with a cell at offset 1
    puts the key [mp_max] in the basic mapping. *)
Lemma basic_mapping_has_mp_max (rows : table) (totals : row)
    (c0 c1 : string) (cells : row) :
  last rows = Some totals ->
  (c0 :: c1 :: cells) ∈ inner_rows rows ->
  is_Some (_parse_stats_table (Some rows) "basic" !! "mp_max").
Proof.
  intros Hlast Hin. rewrite (_parse_stats_table_eq _ _ _ Hlast).
  cbn [String.eqb Ascii.eqb Bool.eqb].
  apply list_elem_of_split in Hin as (l1 & l2 & ->).
  rewrite fold_left_app. cbn [fold_left].
  apply fold_left_invariant; [intros; by apply set_row_max_keeps|].
  unfold set_row_max at 1.
  rewrite for_each_total by (intros; apply set_max_ok).
  cbn [fst tl enumerate fold_left].
  apply fold_left_invariant; [intros; by apply set_max_keeps|].
  rewrite set_max_eq, basic_offset_1. cbn [fst].
  rewrite lookup_insert_eq. eauto.
Qed.

End StatMapperKeys.

(** C6 (as the code has it). The helper converts the text of a cell
    element, but the stat mapper hands it the text itself: the text "43"
    of the points cell of the totals row is a number, [_safe_int] of the
    cell is 43, [_safe_int] of the text is 0, and 0 is what the mapper
    stores under [pts]. *)
Theorem stat_mapper_stores_zero_for_numeric_text :
  py_int "43" = Ok 43 /\
  _safe_int (Cell "43") = Ok 43 /\
  _safe_int (Text "43") = Ok 0 /\
  _parse_stats_table (Some box1) "basic" !! "pts" = Some (SInt 0).
Proof. repeat split; reflexivity. Qed.

(** C7 (as the code has it). For player rows with 10, 25 and 8 points the
    field-wise maximum is 25, and the mapper stores 0 under [pts_max]. *)
Theorem pts_max_of_10_25_8_is_zero :
  spec_int_max box1 19 = 25 /\
  _parse_stats_table (Some box1) "basic" !! "pts_max" = Some (SInt 0).
Proof. split; reflexivity. Qed.

(** ** Properties of the assembler *)

Section AssemblerFacts.
Context `{FM : FloatModel}.

Lemma add_line_length acc cells acc' :
  add_line acc cells = Ok acc' ->
  (length acc'.1 <= length acc.1 + 1)%nat.
Proof.
  destruct acc as [teams scores]. unfold add_line.
  destruct (2 <=? length cells)%nat.
  - destruct (py_int (default "" (last cells))); simpl; [|discriminate].
    intros [= <-]. simpl. rewrite length_app. simpl. lia.
  - intros [= <-]. simpl. lia.
Qed.

Lemma foldM_add_line_length rows acc acc' :
  foldM add_line acc rows = Ok acc' ->
  (length acc'.1 <= length acc.1 + length rows)%nat.
Proof.
  revert acc. induction rows as [|cells rows IH]; intros acc; simpl.
  - intros [= <-]. lia.
  - destruct (add_line acc cells) as [acc1|] eqn:E; simpl; [|discriminate].
    intros H. apply IH in H. apply add_line_length in E. lia.
Qed.

(** The record the assembler returns, when the identifier starts with a
    date and the line score yields two (team, score) pairs. *)
Lemma _parse_basic_game_info_two_teams (doc : soup) (stem : string)
    (d : date) (tbl : table) (t1 t2 : string) (s1 s2 : Z) :
  strptime_Ymd (substring 0 8 stem) = Ok d ->
  find_table doc "line_score" = Some tbl ->
  foldM add_line ([], []) (tl tbl) = Ok ([t1; t2], [s1; s2]) ->
  _parse_basic_game_info doc stem =
  Some (game_info stem d (season_of d) t2 t1 s2 s1 (s1 <? s2)).
Proof.
  intros Hd Ht Hp. unfold _parse_basic_game_info.
  rewrite Hd. simpl. rewrite Ht.
  pose proof (foldM_add_line_length _ _ _ Hp) as Hlen. simpl in Hlen.
  destruct (length (tl tbl) <? 2)%nat eqn:E.
  - apply Nat.ltb_lt in E. lia.
  - rewrite Hp. reflexivity.
Qed.

(** What a returned record holds: the date read from the identifier and
    the season derived from it. *)
Lemma _parse_basic_game_info_some (doc : soup) (stem : string)
    (game_data : gmap string pyval) :
  _parse_basic_game_info doc stem = Some game_data ->
  exists d home_team away_team home_score away_score,
    strptime_Ymd (substring 0 8 stem) = Ok d /\
    game_data = game_info stem d (season_of d) home_team away_team
                  home_score away_score (away_score <? home_score).
Proof.
  unfold _parse_basic_game_info.
  destruct (strptime_Ymd (substring 0 8 stem)) as [d|] eqn:Hd; simpl;
    [|discriminate].
  destruct (find_table doc "line_score") as [tbl|]; simpl; [|discriminate].
  destruct (length (tl tbl) <? 2)%nat; simpl; [discriminate|].
  destruct (foldM add_line ([], []) (tl tbl)) as [[teams scores]|]; simpl;
    [|discriminate].
  destruct teams as [|t1 [|t2 [|? ?]]]; try discriminate.
  destruct scores as [|s1 [|s2 [|? ?]]]; try discriminate.
  intros [= <-]. eauto 10.
Qed.

End AssemblerFacts.

(** C4 (amended). When the identifier starts with a date and the line
    score yields exactly two (team, score) pairs, the assembler returns a
    record whose away side is the first pair and whose home side is the
    second, with [home_won] equal to [home_score > away_score]; nothing is
    said about equal scores. *)
Theorem assemble_two_team_line_score `{FM : FloatModel} (doc : soup)
    (stem : string) (d : date) (tbl : table) (t1 t2 : string) (s1 s2 : Z) :
  strptime_Ymd (substring 0 8 stem) = Ok d ->
  find_table doc "line_score" = Some tbl ->
  foldM add_line ([], []) (tl tbl) = Ok ([t1; t2], [s1; s2]) ->
  exists game_data,
    _parse_basic_game_info doc stem = Some game_data /\
    game_data !! "away_team" = Some (Scalar (SStr t1)) /\
    game_data !! "home_team" = Some (Scalar (SStr t2)) /\
    game_data !! "away_score" = Some (Scalar (SInt s1)) /\
    game_data !! "home_score" = Some (Scalar (SInt s2)) /\
    game_data !! "home_won" = Some (Scalar (SBool (bool_decide (s2 > s1)))).
Proof.
  intros Hd Ht Hp. eexists. split.
  - apply (_parse_basic_game_info_two_teams _ _ _ _ _ _ _ _ Hd Ht Hp).
  - replace (bool_decide (s2 > s1)) with (s1 <? s2).
    + unfold game_info. repeat split; by simplify_map_eq.
    + case_bool_decide; [apply Z.ltb_lt | apply Z.ltb_ge]; lia.
Qed.

Lemma assemble_two_team_line_score_witness :
  exists game_data,
    _parse_basic_game_info doc1 "202310240BOS" = Some game_data /\
    game_data !! "away_team" = Some (Scalar (SStr "NYK")) /\
    game_data !! "home_team" = Some (Scalar (SStr "BOS")) /\
    game_data !! "away_score" = Some (Scalar (SInt 104)) /\
    game_data !! "home_score" = Some (Scalar (SInt 108)) /\
    game_data !! "home_won" = Some (Scalar (SBool (bool_decide (108 > 104)))).
Proof.
  apply (assemble_two_team_line_score doc1 "202310240BOS"
           (Date 2023 10 24) line_score1 "NYK" "BOS" 104 108);
    reflexivity.
Defined.

(** C4 (as stated) fails: a line score with two pairs and equal totals
    yields a record whose home and away scores are equal; and the same line
    score under an identifier that does not start with a date yields no
    record. *)
Lemma assemble_accepts_a_tie :
  foldM add_line ([], []) (tl (default [] (find_table doc_tie "line_score")))
    = Ok (["NYK"; "BOS"], [100; 100]) /\
  _parse_basic_game_info doc_tie "boxscore_BOS" = None /\
  exists game_data,
    _parse_basic_game_info doc_tie "202310240BOS" = Some game_data /\
    game_data !! "home_score" = Some (Scalar (SInt 100)) /\
    game_data !! "away_score" = Some (Scalar (SInt 100)) /\
    game_data !! "home_score" = game_data !! "away_score".
Proof.
  split; [reflexivity|]. split; [reflexivity|].
  exists (game_info "202310240BOS" (Date 2023 10 24) 2023 "BOS" "NYK"
            100 100 false).
  split.
  - apply (_parse_basic_game_info_two_teams doc_tie "202310240BOS"
             (Date 2023 10 24)
             (default [] (find_table doc_tie "line_score"))
             "NYK" "BOS" 100 100); reflexivity.
  - unfold game_info. repeat split; by simplify_map_eq.
Qed.

(** C5. The season is the year of the date, less one exactly when the
    month is before July: 2023-06-15 gives 2022 and 2023-10-15 gives 2023;
    and every record the assembler returns carries the date read from its
    identifier together with the season of that date. *)
Theorem season_is_year_less_one_before_july `{FM : FloatModel} :
  (forall d : date,
     season_of d = year d - (if bool_decide (month d < 7) then 1 else 0)) /\
  season_of (Date 2023 6 15) = 2022 /\
  season_of (Date 2023 10 15) = 2023 /\
  (forall (doc : soup) (stem : string) (game_data : gmap string pyval),
     _parse_basic_game_info doc stem = Some game_data ->
     exists d,
       strptime_Ymd (substring 0 8 stem) = Ok d /\
       game_data !! "date" = Some (Scalar (SDate (year d) (month d) (day d))) /\
       game_data !! "season" = Some (Scalar (SInt (season_of d)))).
Proof.
  split; [|split; [reflexivity|split; [reflexivity|]]].
  - intros d. unfold season_of. simpl.
    case_bool_decide as H; destruct (Z.ltb_spec (month d) 7); lia.
  - intros doc stem game_data H.
    apply _parse_basic_game_info_some in H
      as (d & ht & awt & hs & aws & Hd & ->).
    exists d. unfold game_info. repeat split; [done|by simplify_map_eq..].
Qed.

Lemma season_is_year_less_one_before_july_witness :
  exists d,
    strptime_Ymd (substring 0 8 "202306150DEN") = Ok d /\
    game_info "202306150DEN" (Date 2023 6 15) 2022 "DEN" "MIA" 94 89 true
      !! "date" = Some (Scalar (SDate (year d) (month d) (day d))) /\
    game_info "202306150DEN" (Date 2023 6 15) 2022 "DEN" "MIA" 94 89 true
      !! "season" = Some (Scalar (SInt (season_of d))).
Proof.
  apply (proj2 (proj2 (proj2 season_is_year_less_one_before_july))
           (Soup [("line_score",
                   [ ["";"T"]; ["MIA"; "89"]; ["DEN"; "94"] ])] None)
           "202306150DEN").
  reflexivity.
Defined.

(** ** Properties of the ingestion store *)

Section StoreFacts.
Context `{FM : FloatModel}.
Variable db_accepts : store -> store -> bool.

Abbreviation srow := (gmap string scalar).

Lemma commit_same (s : store) : commit db_accepts s s = Ok s.
Proof. unfold commit. by rewrite decide_True. Qed.

Lemma commit_cases (old new s' : store) :
  commit db_accepts old new = Ok s' -> s' = new.
Proof.
  unfold commit. case_decide as E; [by intros [= <-]|].
  destruct (db_accepts old new); [by intros [= <-]|discriminate].
Qed.

Lemma add_records_nil (s : store) : add_records [] [] [] s = s.
Proof. destruct s. unfold add_records. simpl. by rewrite !app_nil_r. Qed.

(** The [Game] constructor refuses the sub-record entries of an assembled
    record: [team_stats] and [player_stats] are not attributes of the
    class, and [officials] can only be the empty list. *)
Lemma construct_game_entry (game_data : gmap string pyval) (game : srow)
    (key : string) (v : pyval) :
  construct_game game_data = Ok game ->
  game_data !! key = Some v ->
  game_attr_ok key v = true.
Proof.
  unfold construct_game. case_bool_decide as H; [|discriminate].
  intros _ Hk. exact (H key v Hk).
Qed.

Lemma construct_game_no_subrecords (game_data : gmap string pyval) (game : srow) :
  construct_game game_data = Ok game ->
  iter_rows (game_data !! "team_stats") = Ok [] /\
  iter_rows (game_data !! "player_stats") = Ok [] /\
  iter_rows (game_data !! "officials") = Ok [].
Proof.
  intros Hc. repeat split.
  - destruct (game_data !! "team_stats") as [v|] eqn:E; [|reflexivity].
    pose proof (construct_game_entry _ _ _ _ Hc E) as Hok.
    destruct v; vm_compute in Hok; discriminate.
  - destruct (game_data !! "player_stats") as [v|] eqn:E; [|reflexivity].
    pose proof (construct_game_entry _ _ _ _ Hc E) as Hok.
    destruct v; vm_compute in Hok; discriminate.
  - destruct (game_data !! "officials") as [v|] eqn:E; [|reflexivity].
    pose proof (construct_game_entry _ _ _ _ Hc E) as Hok.
    destruct v as [x|l]; [vm_compute in Hok; discriminate|].
    unfold game_attr_ok in Hok. apply andb_true_iff in Hok as [_ Hl].
    apply bool_decide_eq_true in Hl. by subst l.
Qed.

(** The three outcomes of [save_game_to_database]. *)
Lemma save_game_to_database_cases (s : store) (game_data : gmap string pyval) :
  let r := save_game_to_database db_accepts s game_data in
  (r = (s, LogSkipped) /\
     exists gid found,
       game_data !! "game_id" = Some (Scalar gid) /\ find_game s gid = Some found)
  \/ r = (s, LogError)
  \/ (exists game,
        construct_game game_data = Ok game /\
        r = (add_game game s, LogSaved)).
Proof.
  unfold save_game_to_database.
  destruct (game_data !! "game_id") as [[gid|l]|] eqn:Hid;
    unfold getitem; rewrite ?Hid; simpl; auto.
  destruct (find_game s gid) as [found|] eqn:Hf; [left; eauto|].
  destruct (construct_game game_data) as [game|] eqn:Hc; simpl; auto.
  destruct (commit db_accepts s (add_game game s)) as [s1|] eqn:Hc1; simpl; auto.
  apply commit_cases in Hc1 as ->.
  destruct (construct_game_no_subrecords _ _ Hc) as (-> & -> & ->). simpl.
  rewrite add_records_nil, commit_same. right; right. eauto.
Qed.

(** Skip-if-present: a game whose identifier is stored is not written. *)
Lemma save_present (s : store) (game_data : gmap string pyval)
    (gid : scalar) (found : nat * srow) :
  game_data !! "game_id" = Some (Scalar gid) ->
  find_game s gid = Some found ->
  save_game_to_database db_accepts s game_data = (s, LogSkipped).
Proof.
  intros Hid Hf. unfold save_game_to_database, getitem.
  rewrite Hid. simpl. by rewrite Hf.
Qed.

Lemma construct_game_id (game_data : gmap string pyval) (game : srow) (gid : scalar) :
  construct_game game_data = Ok game ->
  game_data !! "game_id" = Some (Scalar gid) ->
  game !! "game_id" = Some gid.
Proof.
  unfold construct_game. case_bool_decide; [|discriminate].
  intros [= <-] Hid. by rewrite lookup_omap, Hid.
Qed.

Lemma find_game_added (s : store) (game : srow) (gid : scalar) :
  game !! "game_id" = Some gid ->
  is_Some (find_game (add_game game s) gid).
Proof.
  intros Hg. unfold find_game, add_game. simpl.
  apply list_find_elem_of with game; [|done].
  apply elem_of_app. right. by apply list_elem_of_singleton.
Qed.

(** Running the store twice leaves what running it once leaves. *)
Lemma save_twice (s : store) (game_data : gmap string pyval) :
  (save_game_to_database db_accepts
     (save_game_to_database db_accepts s game_data).1 game_data).1
  = (save_game_to_database db_accepts s game_data).1.
Proof.
  destruct (save_game_to_database_cases s game_data)
    as [[E _]|[E|(game & Hc & E)]]; rewrite E; simpl; rewrite ?E;
    try reflexivity.
  unfold save_game_to_database at 1, getitem.
  destruct (game_data !! "game_id") as [[gid|l]|] eqn:Hid; simpl; try reflexivity.
  destruct (find_game_added s game gid) as [found ->]; [|reflexivity].
  by apply construct_game_id with game_data.
Qed.

(** No team, player or official row is ever written by the store. *)
Lemma save_writes_no_subrecord (s : store) (game_data : gmap string pyval) :
  let s' := (save_game_to_database db_accepts s game_data).1 in
  team_game_stats s' = team_game_stats s /\
  player_game_stats s' = player_game_stats s /\
  game_officials s' = game_officials s.
Proof.
  destruct (save_game_to_database_cases s game_data)
    as [[E _]|[E|(game & Hc & E)]]; rewrite E; simpl; auto.
Qed.

(** Every record the assembler hands over carries the [team_stats] entry,
    so its [Game] row cannot be constructed. *)
Lemma parse_html_file_some (doc : soup) (stem : string)
    (game_data : gmap string pyval) :
  parse_html_file doc stem = Some game_data ->
  game_data !! "game_id" = Some (Scalar (SStr stem)) /\
  game_data !! "team_stats" = Some (Rows (_parse_team_stats doc stem)).
Proof.
  unfold parse_html_file.
  destruct (_parse_basic_game_info doc stem) as [info|] eqn:E; [|discriminate].
  apply _parse_basic_game_info_some in E as (d & ht & awt & hs & aws & _ & ->).
  intros [= <-]. unfold game_info. split; by simplify_map_eq.
Qed.

Lemma construct_game_parsed (doc : soup) (stem : string)
    (game_data : gmap string pyval) :
  parse_html_file doc stem = Some game_data ->
  construct_game game_data = Raise TypeError.
Proof.
  intros H. apply parse_html_file_some in H as [_ Hts].
  unfold construct_game. case_bool_decide as Hall; [|reflexivity].
  specialize (Hall _ _ Hts). vm_compute in Hall. discriminate.
Qed.

Lemma save_parsed_game (doc : soup) (stem : string)
    (game_data : gmap string pyval) (s : store) :
  parse_html_file doc stem = Some game_data ->
  find_game s (SStr stem) = None ->
  save_game_to_database db_accepts s game_data = (s, LogError).
Proof.
  intros Hp Hf. pose proof (construct_game_parsed _ _ _ Hp) as Hc.
  apply parse_html_file_some in Hp as [Hid _].
  unfold save_game_to_database, getitem. rewrite Hid. simpl.
  rewrite Hf, Hc. reflexivity.
Qed.

End StoreFacts.

Section IngestOutcome.
Context `{FM : FloatModel}.
Variable db_accepts : store -> store -> bool.



End IngestOutcome.



(** C2 (as the code has it). The record assembled from a parsed document
    is handed to the store twice, starting from the empty store: both runs
    log an error and no [Game] row is stored. *)
Theorem ingest_twice_of_assembled_record_stores_no_game :
  exists game_data,
    parse_html_file doc1 "202310240BOS" = Some game_data /\
    let once := save_game_to_database always empty_store game_data in
    let twice := save_game_to_database always once.1 game_data in
    once = (empty_store, LogError) /\
    twice = (empty_store, LogError) /\
    games twice.1 = [].
Proof.
  eexists. split; [reflexivity|]. cbv zeta. repeat split; reflexivity.
Qed.

Section TeamStatFacts.
Context `{FM : FloatModel}.

Lemma construct_unknown_keyword (cls : mapped_class)
    (kwargs : gmap string scalar) (key : string) :
  is_Some (kwargs !! key) ->
  hasattr cls key = false ->
  construct cls kwargs = Raise TypeError.
Proof.
  intros [v Hk] Hno. unfold construct.
  case_bool_decide as Hall; [|reflexivity].
  specialize (Hall _ _ Hk). simpl in Hall. congruence.
Qed.

Lemma team_stat_of_has_mp (doc : soup) (game_id team : string)
    (basic : table) (c0 c1 : string) (cells : row) :
  find_table doc ("box-" +:+ team +:+ "-game-basic") = Some basic ->
  last basic = Some (c0 :: c1 :: cells) ->
  exists team_stat,
    team_stat_of doc game_id team = Some team_stat /\
    is_Some (team_stat !! "mp").
Proof.
  intros Hb Hlast. unfold team_stat_of. rewrite Hb.
  eexists. split; [reflexivity|].
  apply lookup_union_is_Some. right.
  apply lookup_union_is_Some. left.
  by apply basic_mapping_has_mp with c0 c1 cells.
Qed.

End TeamStatFacts.

(** The team-stat record of a side cannot be constructed. A basic table
    whose totals row has a cell at offset 1 gives a mapping with the key
    [mp], and with the key [mp_max] when a row between the header and the
    totals row has a cell at offset 1. [TeamGameStats] has no attribute of
    either name, so the team-stat record of that side, which the assembled
    record carries, is refused by the constructor; and the store writes no
    team row for the game. *)
Theorem team_stat_record_cannot_be_constructed `{FM : FloatModel}
    (db_accepts : store -> store -> bool) (s : store) (doc : soup)
    (stem team : string) (basic : table) (c0 c1 : string) (cells : row)
    (game_data : gmap string pyval) :
  team ∈ ["home"; "away"] ->
  find_table doc ("box-" +:+ team +:+ "-game-basic") = Some basic ->
  last basic = Some (c0 :: c1 :: cells) ->
  parse_html_file doc stem = Some game_data ->
  is_Some (_parse_stats_table (Some basic) "basic" !! "mp") /\
  (forall p0 p1 ps, (p0 :: p1 :: ps) ∈ inner_rows basic ->
     is_Some (_parse_stats_table (Some basic) "basic" !! "mp_max")) /\
  hasattr TeamGameStats "mp" = false /\
  hasattr TeamGameStats "mp_max" = false /\
  (exists team_stats team_stat,
     game_data !! "team_stats" = Some (Rows team_stats) /\
     team_stat_of doc stem team = Some team_stat /\
     team_stat ∈ team_stats /\
     is_Some (team_stat !! "mp") /\
     construct TeamGameStats team_stat = Raise TypeError) /\
  team_game_stats (save_game_to_database db_accepts s game_data).1
    = team_game_stats s.
Proof.
  intros Hteam Hb Hlast Hp.
  split; [by apply basic_mapping_has_mp with c0 c1 cells|].
  split; [intros p0 p1 ps Hin;
          by apply basic_mapping_has_mp_max with (c0 :: c1 :: cells) p0 p1 ps|].
  split; [reflexivity|]. split; [reflexivity|].
  split; [|apply save_writes_no_subrecord].
  destruct (team_stat_of_has_mp doc stem team basic c0 c1 cells Hb Hlast)
    as (team_stat & Hts & Hmp).
  apply parse_html_file_some in Hp as [_ Hrows].
  exists (_parse_team_stats doc stem), team_stat.
  split; [exact Hrows|]. split; [exact Hts|]. split; [|split; [exact Hmp|]].
  - unfold _parse_team_stats. apply list_elem_of_omap. eauto.
  - by apply construct_unknown_keyword with "mp".
Qed.

Lemma team_stat_record_cannot_be_constructed_witness :
  is_Some (_parse_stats_table (Some box1) "basic" !! "mp") /\
  (forall p0 p1 ps, (p0 :: p1 :: ps) ∈ inner_rows box1 ->
     is_Some (_parse_stats_table (Some box1) "basic" !! "mp_max")) /\
  hasattr TeamGameStats "mp" = false /\
  hasattr TeamGameStats "mp_max" = false /\
  (exists team_stats team_stat,
     default ∅ (parse_html_file doc1 "202310240BOS") !! "team_stats"
       = Some (Rows team_stats) /\
     team_stat_of doc1 "202310240BOS" "home" = Some team_stat /\
     team_stat ∈ team_stats /\
     is_Some (team_stat !! "mp") /\
     construct TeamGameStats team_stat = Raise TypeError) /\
  team_game_stats
    (save_game_to_database always empty_store
       (default ∅ (parse_html_file doc1 "202310240BOS"))).1
    = team_game_stats empty_store.
Proof.
  apply (team_stat_record_cannot_be_constructed always empty_store doc1
           "202310240BOS" "home" box1 "Team Totals" "240"
           (tl (tl (default [] (last box1))))).
  - apply list_elem_of_here.
  - reflexivity.
  - reflexivity.
  - reflexivity.
Defined.

(** C3 (as the code has it). The record assembled from a document whose
    home table has a totals row with a cell at offset 1 is handed to the
    store. Its team-stat record carries the key [mp] and cannot be
    constructed, and no team row is written, as the claim says; but the
    [Game] row is not persisted either: the [Game] constructor refuses the
    assembled record before the first commit, an error is logged and the
    store holds no [Game] row afterwards. *)
Theorem assembled_record_is_not_stored :
  (exists c0 c1 cells,
     find_table doc1 "box-home-game-basic" = Some box1 /\
     last box1 = Some (c0 :: c1 :: cells)) /\
  exists game_data,
    parse_html_file doc1 "202310240BOS" = Some game_data /\
    games (save_game_to_database always empty_store game_data).1 = [] /\
    (exists team_stats team_stat,
       game_data !! "team_stats" = Some (Rows team_stats) /\
       team_stat ∈ team_stats /\
       is_Some (team_stat !! "mp") /\
       construct TeamGameStats team_stat = Raise TypeError) /\
    construct_game game_data = Raise TypeError /\
    save_game_to_database always empty_store game_data
      = (empty_store, LogError) /\
    team_game_stats (save_game_to_database always empty_store game_data).1
      = [].
Proof.
  split.
  - do 3 eexists. split; reflexivity.
  - eexists. split; [reflexivity|]. split; [reflexivity|].
    split; [|repeat split; reflexivity].
    destruct (team_stat_of_has_mp doc1 "202310240BOS" "home" box1
                "Team Totals" "240" (tl (tl (default [] (last box1))))
                eq_refl eq_refl) as (team_stat & Hts & Hmp).
    exists [team_stat], team_stat.
    split; [|split; [apply list_elem_of_here|split; [exact Hmp|]]].
    + change (Some (Rows (_parse_team_stats doc1 "202310240BOS"))
              = Some (Rows [team_stat])).
      unfold _parse_team_stats. cbn [omap list_omap]. rewrite Hts.
      reflexivity.
    + by apply construct_unknown_keyword with "mp".
Qed.

(** ** Properties of the refresh workflow *)

Lemma bind_ok {A B} (f : A -> result B) (a : A) : Ok a ≫= f = f a.
Proof. reflexivity. Qed.

Lemma foldM_cons {S A} (f : S -> A -> result S) (s : S) (a : A) (l : list A) :
  foldM f s (a :: l) = f s a ≫= fun s' => foldM f s' l.
Proof. reflexivity. Qed.

Section UpdateRecordFacts.
Context `{FM : FloatModel}.
Variable cls : mapped_class.
Variable stored : list (gmap string scalar).
Variable key_of : gmap string scalar -> result (gmap string scalar -> bool).

Abbreviation srow := (gmap string scalar).
Abbreviation hit := (matched_index stored key_of).

Lemma patch_eq (existing payload r : srow) :
  patch cls existing payload = Ok r -> r = patched cls payload existing.
Proof.
  unfold patch. case_bool_decide; [by intros [= <-]|discriminate].
Qed.

Lemma patched_twice (payload existing : srow) :
  patched cls payload (patched cls payload existing)
  = patched cls payload existing.
Proof.
  unfold patched. by rewrite (assoc_L (∪)), (idemp_L (∪)).
Qed.

(** One round: the length of the loaded rows, what is added, and which
    loaded row changes. *)
Lemma update_record_round (loaded added loaded' added' : list srow)
    (payload : srow) :
  length loaded = length stored ->
  update_record cls stored key_of (loaded, added) payload
    = Ok (loaded', added') ->
  length loaded' = length stored /\
  match hit payload with
  | Some i =>
      added' = added /\
      (forall j, j <> i -> loaded' !! j = loaded !! j) /\
      (forall e, loaded !! i = Some e ->
         loaded' !! i = Some (patched cls payload e))
  | None =>
      loaded' = loaded /\ added' = (added ++ [payload])%list /\
      construct cls payload = Ok payload
  end.
Proof.
  intros Hlen. unfold update_record, matched_index.
  destruct (key_of payload) as [same_key|]; simpl; [|discriminate].
  destruct (list_find _ stored) as [[i r]|] eqn:Hfind; simpl.
  - destruct (loaded !! i) as [existing|] eqn:Hi.
    + destruct (patch cls existing payload) as [p|] eqn:Hp; simpl;
        [|discriminate].
      intros [= <- <-]. apply patch_eq in Hp as ->.
      rewrite length_insert. repeat split; auto.
      * intros j Hj. by rewrite list_lookup_insert_ne.
      * intros e [= <-]. apply list_lookup_insert_eq.
        by apply lookup_lt_Some with existing.
    + apply list_find_Some in Hfind as (Hr & _).
      apply lookup_lt_Some in Hr. apply lookup_ge_None in Hi. lia.
  - destruct (construct cls payload) as [p|] eqn:Hc; simpl; [|discriminate].
    intros [= <- <-]. repeat split; auto.
    + revert Hc. unfold construct.
      repeat (case_match; try discriminate). by intros [= <-].
    + revert Hc. unfold construct.
      repeat (case_match; try discriminate). by intros [= <-].
Qed.

(** The whole loop. *)
Lemma update_records_loop (payloads : list srow)
    (loaded added loaded' added' : list srow) :
  length loaded = length stored ->
  foldM (update_record cls stored key_of) (loaded, added) payloads
    = Ok (loaded', added') ->
  length loaded' = length stored /\
  (exists extra,
     added' = (added ++ extra)%list /\
     forall p, p ∈ payloads -> hit p = None -> p ∈ extra) /\
  (forall i, (forall p, p ∈ payloads -> hit p <> Some i) ->
     loaded' !! i = loaded !! i) /\
  (forall i p0 e,
     (forall p, p ∈ payloads -> hit p = Some i -> p = p0) ->
     (exists p, p ∈ payloads /\ hit p = Some i) ->
     loaded !! i = Some e ->
     loaded' !! i = Some (patched cls p0 e)).
Proof.
  revert loaded added.
  induction payloads as [|p l IH]; intros loaded added Hlen.
  - simpl. intros [= <- <-]. repeat split; auto.
    + exists []. split; [by rewrite app_nil_r|]. intros p Hp. inversion Hp.
    + intros i p0 e _ (p & Hp & _). inversion Hp.
  - rewrite foldM_cons.
    destruct (update_record cls stored key_of (loaded, added) p)
      as [[loaded1 added1]|] eqn:Hstep; [|discriminate].
    rewrite bind_ok. intros Hrest.
    destruct (update_record_round _ _ _ _ _ Hlen Hstep) as [Hlen1 Hround].
    destruct (IH _ _ Hlen1 Hrest) as (Hlen' & (extra & -> & Hextra) & Hframe & Hpatch).
    split; [exact Hlen'|]. split; [|split].
    + destruct (hit p) as [i|] eqn:Hp.
      * destruct Hround as (-> & _). exists extra. split; [done|].
        intros q Hq Hnone. apply elem_of_cons in Hq as [->|Hq]; [congruence|].
        by apply Hextra.
      * destruct Hround as (_ & -> & _). exists (p :: extra).
        split; [by rewrite <- app_assoc|].
        intros q Hq Hnone. apply elem_of_cons in Hq as [->|Hq];
          [apply list_elem_of_here|].
        apply list_elem_of_further. by apply Hextra.
    + intros i Hno. rewrite Hframe.
      * destruct (hit p) as [j|] eqn:Hp.
        -- destruct Hround as (_ & Hother & _). apply Hother.
           intros ->. apply (Hno p); [apply list_elem_of_here|done].
        -- by destruct Hround as (-> & _).
      * intros q Hq. apply Hno. by apply list_elem_of_further.
    + intros i p0 e Hall (q & Hq & Hqi) He.
      destruct (decide (hit p = Some i)) as [Hpi|Hpi].
      * assert (p = p0) as -> by (apply Hall; [apply list_elem_of_here|done]).
        rewrite Hpi in Hround. destruct Hround as (_ & _ & Hset).
        specialize (Hset e He).
        destruct (decide (Exists (fun q => hit q = Some i) l)) as [Hex|Hex].
        -- apply Exists_exists in Hex as (q' & Hq' & Hq'i).
           rewrite (Hpatch i p0 (patched cls p0 e)); [by rewrite patched_twice| | |done].
           ++ intros q'' Hq'' Hh. apply Hall; [by apply list_elem_of_further|done].
           ++ exists q'. split; done.
        -- rewrite Hframe; [done|].
           intros q' Hq' Hh. apply Hex. apply Exists_exists.
           exists q'. split; done.
      * apply elem_of_cons in Hq as [->|Hq]; [congruence|].
        apply (Hpatch i p0 e).
        -- intros q'' Hq'' Hh. apply Hall; [by apply list_elem_of_further|done].
        -- eauto.
        -- destruct (hit p) as [j|] eqn:Hp.
           ++ destruct Hround as (_ & Hother & _). rewrite Hother; [done|].
              intros ->. by apply Hpi.
           ++ by destruct Hround as (-> & _).
Qed.

End UpdateRecordFacts.

Section UpdateFacts.
Context `{FM : FloatModel}.
Variable db_accepts : store -> store -> bool.

Abbreviation srow := (gmap string scalar).

Lemma iter_rows_payload (game_data : gmap string pyval) (key : string)
    (l : list srow) :
  iter_rows (game_data !! key) = Ok l -> l = payload_rows game_data key.
Proof.
  unfold iter_rows, payload_rows.
  destruct (game_data !! key) as [[x|rows]|]; try by intros [= <-].
  destruct x; try discriminate. destruct s; [by intros [= <-]|discriminate].
Qed.

Lemma getitem_bind_param (game_data : gmap string pyval) (key : string)
    (x : scalar) :
  getitem game_data key ≫= bind_param = Ok x ->
  game_data !! key = Some (Scalar x).
Proof.
  unfold getitem. destruct (game_data !! key) as [[y|l]|]; simpl;
    try discriminate. by intros [= <-].
Qed.

(** The outcomes of [update_game_data]: nothing done, everything rolled
    back, or the game row and the two loops committed together. *)
Lemma update_game_data_cases (s : store) (game_data : gmap string pyval) :
  let r := update_game_data db_accepts s game_data in
  r = (s, None) \/ r = (s, Some LogError) \/
  exists gid gi game home_score away_score home_won teams players,
    game_data !! "game_id" = Some (Scalar gid) /\
    find_game s gid = Some (gi, game) /\
    game_data !! "home_score" = Some (Scalar home_score) /\
    game_data !! "away_score" = Some (Scalar away_score) /\
    game_data !! "home_won" = Some (Scalar home_won) /\
    foldM (update_record TeamGameStats (team_game_stats s) (team_key gid))
      (team_game_stats s, []) (payload_rows game_data "team_stats")
      = Ok teams /\
    foldM (update_record PlayerGameStats (player_game_stats s) (player_key gid))
      (player_game_stats s, []) (payload_rows game_data "player_stats")
      = Ok players /\
    r = (Store
           (<[gi := <["home_won" := home_won]>
                      (<["away_score" := away_score]>
                         (<["home_score" := home_score]> game))]> (games s))
           (teams.1 ++ teams.2)%list (players.1 ++ players.2)%list
           (game_officials s),
         Some LogUpdated).
Proof.
  unfold update_game_data.
  destruct (getitem game_data "game_id" ≫= bind_param) as [gid|] eqn:Hid;
    [|right; left; reflexivity].
  rewrite bind_ok.
  destruct (find_game s gid) as [[gi game]|] eqn:Hf; [|by left].
  destruct (getitem game_data "home_score" ≫= bind_param) as [hs|] eqn:Hhs;
    [|right; left; reflexivity].
  rewrite bind_ok.
  destruct (getitem game_data "away_score" ≫= bind_param) as [aws|] eqn:Has;
    [|right; left; reflexivity].
  rewrite bind_ok.
  destruct (getitem game_data "home_won" ≫= bind_param) as [hw|] eqn:Hhw;
    [|right; left; reflexivity].
  rewrite bind_ok.
  destruct (iter_rows (game_data !! "team_stats")) as [ts|] eqn:Hts;
    [|right; left; reflexivity].
  rewrite bind_ok. apply iter_rows_payload in Hts as ->.
  destruct (foldM (update_record TeamGameStats _ _) _ _) as [teams|] eqn:Ht;
    [|right; left; reflexivity].
  rewrite bind_ok.
  destruct (iter_rows (game_data !! "player_stats")) as [ps|] eqn:Hps;
    [|right; left; reflexivity].
  rewrite bind_ok. apply iter_rows_payload in Hps as ->.
  destruct (foldM (update_record PlayerGameStats _ _) _ _) as [players|] eqn:Hp;
    [|right; left; reflexivity].
  rewrite bind_ok.
  destruct (commit db_accepts s _) as [s'|] eqn:Hc;
    [|right; left; reflexivity].
  rewrite bind_ok. apply commit_cases in Hc as ->.
  right; right.
  exists gid, gi, game, hs, aws, hw, teams, players.
  repeat split; auto using getitem_bind_param.
Qed.

End UpdateFacts.

Section UpdateFrame.
Context `{FM : FloatModel}.

Abbreviation srow := (gmap string scalar).

Lemma matched_index_Some (stored : list srow)
    (key_of : srow -> result (srow -> bool)) (p : srow) (i : nat) :
  matched_index stored key_of p = Some i ->
  exists same_key r,
    key_of p = Ok same_key /\ stored !! i = Some r /\ same_key r = true.
Proof.
  unfold matched_index. destruct (key_of p) as [f|]; [|discriminate].
  destruct (list_find _ stored) as [[j r]|] eqn:Hfind; [|discriminate].
  simpl. intros [= <-]. apply list_find_Some in Hfind as (Hr & Hf & _). eauto.
Qed.

Lemma team_hit_in_payload (game_data : gmap string pyval) (gid : scalar)
    (stored : list srow) (p r : srow) (i : nat) :
  game_data !! "game_id" = Some (Scalar gid) ->
  p ∈ payload_rows game_data "team_stats" ->
  matched_index stored (team_key gid) p = Some i ->
  stored !! i = Some r ->
  team_in_payload game_data r.
Proof.
  intros Hid Hp Hhit Hr.
  apply matched_index_Some in Hhit as (f & r' & Hk & Hr' & Hf).
  rewrite Hr in Hr'. injection Hr' as <-.
  revert Hk. unfold team_key, getitem.
  destruct (p !! "team") as [team|] eqn:Ht; [|discriminate].
  simpl. intros [= <-].
  apply andb_true_iff in Hf as [H1 H2].
  apply bool_decide_eq_true in H1, H2.
  exists gid, p, team. auto.
Qed.

Lemma player_hit_in_payload (game_data : gmap string pyval) (gid : scalar)
    (stored : list srow) (p r : srow) (i : nat) :
  game_data !! "game_id" = Some (Scalar gid) ->
  p ∈ payload_rows game_data "player_stats" ->
  matched_index stored (player_key gid) p = Some i ->
  stored !! i = Some r ->
  player_in_payload game_data r.
Proof.
  intros Hid Hp Hhit Hr.
  apply matched_index_Some in Hhit as (f & r' & Hk & Hr' & Hf).
  rewrite Hr in Hr'. injection Hr' as <-.
  revert Hk. unfold player_key, getitem.
  destruct (p !! "player_name") as [name|] eqn:Hn; [|discriminate].
  destruct (p !! "team") as [team|] eqn:Ht; [|discriminate].
  simpl. intros [= <-].
  apply andb_true_iff in Hf as [H12 H3].
  apply andb_true_iff in H12 as [H1 H2].
  apply bool_decide_eq_true in H1, H2, H3.
  exists gid, p, team, name. auto 10.
Qed.

(** What a committed loop leaves of the stored rows and of the payload. *)
Lemma update_loop_result (cls : mapped_class) (stored : list srow)
    (key_of : srow -> result (srow -> bool)) (payloads : list srow)
    (res : list srow * list srow) :
  foldM (update_record cls stored key_of) (stored, []) payloads = Ok res ->
  (forall i r, stored !! i = Some r ->
     exists r', (res.1 ++ res.2)%list !! i = Some r' /\
       ((forall p, p ∈ payloads -> matched_index stored key_of p <> Some i) ->
        r' = r)) /\
  (forall p, p ∈ payloads ->
     match matched_index stored key_of p with
     | Some i =>
         exists e, stored !! i = Some e /\
           ((forall q, q ∈ payloads ->
               matched_index stored key_of q = Some i -> q = p) ->
            (res.1 ++ res.2)%list !! i = Some (patched cls p e))
     | None =>
         exists j, (length stored <= j)%nat /\ (res.1 ++ res.2)%list !! j = Some p
     end).
Proof.
  destruct res as [loaded added]. intros Hfold. simpl.
  destruct (update_records_loop cls stored key_of payloads stored [] loaded
              added eq_refl Hfold)
    as (Hlen & (extra & -> & Hextra) & Hframe & Hpatch).
  simpl. split.
  - intros i r Hr.
    assert (i < length loaded)%nat as Hi
      by (rewrite Hlen; by apply lookup_lt_Some with r).
    destruct (lookup_lt_is_Some_2 loaded i Hi) as [r' Hr'].
    exists r'. split; [by rewrite lookup_app_l|].
    intros Hno. rewrite (Hframe i Hno), Hr in Hr'. by injection Hr'.
  - intros p Hp. destruct (matched_index stored key_of p) as [i|] eqn:Hhit.
    + destruct (matched_index_Some _ _ _ _ Hhit) as (f & e & _ & He & _).
      exists e. split; [exact He|]. intros Hall.
      rewrite lookup_app_l
        by (rewrite Hlen; by apply lookup_lt_Some with e).
      apply (Hpatch i p e Hall); eauto.
    + apply Hextra in Hp; [|exact Hhit].
      apply list_elem_of_lookup in Hp as [j Hj].
      exists (length loaded + j)%nat. split; [lia|].
      by rewrite lookup_app_r, Nat.add_comm, Nat.add_sub by lia.
Qed.

End UpdateFrame.

(** What holds of every run of the refresh. [update_game_data] never
    removes a row and never touches the officials. A [Game] row keeps
    every field but the two scores and the outcome, and a [Game] row with
    another identifier keeps those as well. A stored team or player row is
    matched as the query does, by the payload's game identifier together
    with the team (and the player name) of an entry; a row that no entry
    matches is left as it was. When the update goes through, the game's
    scores and outcome are the payload's, and every team and player entry
    of the payload is either written over the stored row it matches (the
    entries that name a column replace the row's, the only entry for that
    row deciding its final value) or present as a new row after the stored
    ones. *)
Theorem update_changes_only_payload_rows `{FM : FloatModel}
    (db_accepts : store -> store -> bool) (s : store)
    (game_data : gmap string pyval) :
  let r := update_game_data db_accepts s game_data in
  let s' := r.1 in
  length (games s') = length (games s) /\
  (forall i g, games s !! i = Some g ->
     exists g', games s' !! i = Some g' /\
       (forall k, k <> "home_score" -> k <> "away_score" -> k <> "home_won" ->
          g' !! k = g !! k) /\
       (Scalar <$> g !! "game_id" <> game_data !! "game_id" -> g' = g)) /\
  game_officials s' = game_officials s /\
  (forall i row, team_game_stats s !! i = Some row ->
     exists row', team_game_stats s' !! i = Some row' /\
       (~ team_in_payload game_data row -> row' = row)) /\
  (forall i row, player_game_stats s !! i = Some row ->
     exists row', player_game_stats s' !! i = Some row' /\
       (~ player_in_payload game_data row -> row' = row)) /\
  (r.2 = Some LogUpdated ->
   exists gid gi game home_score away_score home_won,
     game_data !! "game_id" = Some (Scalar gid) /\
     find_game s gid = Some (gi, game) /\
     game_data !! "home_score" = Some (Scalar home_score) /\
     game_data !! "away_score" = Some (Scalar away_score) /\
     game_data !! "home_won" = Some (Scalar home_won) /\
     games s' !! gi =
       Some (<["home_won" := home_won]>
               (<["away_score" := away_score]>
                  (<["home_score" := home_score]> game))) /\
     (forall p, p ∈ payload_rows game_data "team_stats" ->
        match matched_index (team_game_stats s) (team_key gid) p with
        | Some i =>
            exists e, team_game_stats s !! i = Some e /\
              ((forall q, q ∈ payload_rows game_data "team_stats" ->
                  matched_index (team_game_stats s) (team_key gid) q = Some i ->
                  q = p) ->
               team_game_stats s' !! i = Some (patched TeamGameStats p e))
        | None =>
            exists j, (length (team_game_stats s) <= j)%nat /\
              team_game_stats s' !! j = Some p
        end) /\
     (forall p, p ∈ payload_rows game_data "player_stats" ->
        match matched_index (player_game_stats s) (player_key gid) p with
        | Some i =>
            exists e, player_game_stats s !! i = Some e /\
              ((forall q, q ∈ payload_rows game_data "player_stats" ->
                  matched_index (player_game_stats s) (player_key gid) q = Some i ->
                  q = p) ->
               player_game_stats s' !! i = Some (patched PlayerGameStats p e))
        | None =>
            exists j, (length (player_game_stats s) <= j)%nat /\
              player_game_stats s' !! j = Some p
        end)).
Proof.
  intros r s'. subst s' r.
  destruct (update_game_data_cases db_accepts s game_data)
    as [E|[E|(gid & gi & game & hs & aws & hw & teams & players & Hid & Hf
              & Hhs & Has & Hhw & Ht & Hp & E)]]; rewrite E; simpl.
  1,2: repeat split; eauto; discriminate.
  pose proof Hf as Hf'. apply list_find_Some in Hf' as (Hgi & Hgid & _).
  destruct (update_loop_result _ _ _ _ _ Ht) as [Htframe Htpos].
  destruct (update_loop_result _ _ _ _ _ Hp) as [Hpframe Hppos].
  split; [apply length_insert|].
  split; [|split; [reflexivity|split; [|split]]].
  - intros i g Hg. destruct (decide (i = gi)) as [->|Hne].
    + rewrite Hgi in Hg. injection Hg as <-.
      eexists. split; [apply list_lookup_insert_eq; by apply lookup_lt_Some with game|].
      split.
      * intros k H1 H2 H3. by rewrite !lookup_insert_ne.
      * intros Hdiff. exfalso. apply Hdiff. by rewrite Hgid, Hid.
    + exists g. rewrite list_lookup_insert_ne by done. auto.
  - intros i row Hrow. destruct (Htframe i row Hrow) as (row' & Hrow' & Hsame).
    exists row'. split; [exact Hrow'|]. intros Hno. apply Hsame.
    intros p Hp' Hhit. apply Hno.
    by apply team_hit_in_payload with gid (team_game_stats s) p i.
  - intros i row Hrow. destruct (Hpframe i row Hrow) as (row' & Hrow' & Hsame).
    exists row'. split; [exact Hrow'|]. intros Hno. apply Hsame.
    intros p Hp' Hhit. apply Hno.
    by apply player_hit_in_payload with gid (player_game_stats s) p i.
  - intros _. exists gid, gi, game, hs, aws, hw.
    repeat split; auto.
    apply list_lookup_insert_eq. by apply lookup_lt_Some with game.
Qed.

Lemma update_changes_only_payload_rows_witness :
  let r := update_game_data always store1 refresh1 in
  r.2 = Some LogUpdated /\
  team_game_stats r.1 !! 1%nat = Some away_row /\
  team_game_stats r.1 !! 0%nat = Some (patched TeamGameStats home_line home_row) /\
  player_game_stats r.1 !! 0%nat = Some tatum_row /\
  exists j, (1 <= j)%nat /\ player_game_stats r.1 !! j = Some brown_line.
Proof.
  pose proof (update_changes_only_payload_rows always store1 refresh1)
    as (_ & _ & _ & Hteam & Hplayer & Hsucc).
  assert (payload_rows refresh1 "team_stats" = [home_line]) as Hts
    by reflexivity.
  assert (payload_rows refresh1 "player_stats" = [brown_line]) as Hps
    by reflexivity.
  split; [reflexivity|].
  destruct (Hsucc eq_refl)
    as (gid & gi & game & hs & aws & hw & Hid & _ & _ & _ & _ & _ & Ht & Hp).
  assert (gid = SStr "202310240BOS") as -> by (by injection Hid).
  split; [|split; [|split]].
  - destruct (Hteam 1%nat away_row eq_refl) as (row' & -> & Hsame).
    f_equal. apply Hsame.
    intros (g & p & team & _ & Hin & Hteam' & _ & Hrow).
    rewrite Hts in Hin. apply list_elem_of_singleton in Hin as ->.
    assert (team = SStr "home") as -> by (by injection Hteam').
    discriminate Hrow.
  - specialize (Ht home_line). rewrite Hts in Ht.
    specialize (Ht (list_elem_of_here _ _)).
    change (matched_index (team_game_stats store1)
              (team_key (SStr "202310240BOS")) home_line)
      with (Some 0%nat) in Ht.
    destruct Ht as (e & He & Hfinal). injection He as <-.
    apply Hfinal. intros q Hq _. by apply list_elem_of_singleton in Hq.
  - destruct (Hplayer 0%nat tatum_row eq_refl) as (row' & -> & Hsame).
    f_equal. apply Hsame.
    intros (g & p & team & name & _ & Hin & _ & Hname & _ & _ & Hrow).
    rewrite Hps in Hin. apply list_elem_of_singleton in Hin as ->.
    assert (name = SStr "Jaylen Brown") as -> by (by injection Hname).
    discriminate Hrow.
  - specialize (Hp brown_line). rewrite Hps in Hp.
    specialize (Hp (list_elem_of_here _ _)).
    change (matched_index (player_game_stats store1)
              (player_key (SStr "202310240BOS")) brown_line)
      with (@None nat) in Hp.
    exact Hp.
Defined.

Section UpdateRefusal.
Context `{FM : FloatModel}.

Abbreviation srow := (gmap string scalar).

(** A loop that meets an entry it has to insert and cannot construct does
    not go through. *)
Lemma update_records_raise (cls : mapped_class) (stored : list srow)
    (key_of : srow -> result (srow -> bool)) (payloads : list srow)
    (p : srow) (loaded added : list srow) (res : list srow * list srow) :
  length loaded = length stored ->
  p ∈ payloads ->
  matched_index stored key_of p = None ->
  construct cls p <> Ok p ->
  foldM (update_record cls stored key_of) (loaded, added) payloads <> Ok res.
Proof.
  intros Hlen Hin Hhit Hno. revert loaded added Hlen.
  induction payloads as [|q l IH]; intros loaded added Hlen;
    [by apply elem_of_nil in Hin|].
  rewrite foldM_cons.
  destruct (update_record cls stored key_of (loaded, added) q)
    as [[loaded1 added1]|] eqn:Hstep; [|discriminate].
  rewrite bind_ok.
  destruct (update_record_round _ _ _ _ _ _ _ _ Hlen Hstep) as [Hlen1 Hround].
  apply elem_of_cons in Hin as [<-|Hin].
  - rewrite Hhit in Hround. by destruct Hround as (_ & _ & Hc).
  - by apply IH.
Qed.

(** A team entry that no stored row matches and that carries a key
    [TeamGameStats] does not have, as the entries of the stat mapper do
    with [mp], makes the whole update fail: nothing is written. *)
Lemma update_cannot_insert_unknown_keyword
    (db_accepts : store -> store -> bool) (s : store)
    (game_data : gmap string pyval) (gid : scalar) (p : srow) (key : string) :
  game_data !! "game_id" = Some (Scalar gid) ->
  p ∈ payload_rows game_data "team_stats" ->
  matched_index (team_game_stats s) (team_key gid) p = None ->
  is_Some (p !! key) -> hasattr TeamGameStats key = false ->
  (update_game_data db_accepts s game_data).1 = s /\
  (update_game_data db_accepts s game_data).2 <> Some LogUpdated.
Proof.
  intros Hid Hp Hhit Hkey Hattr.
  destruct (update_game_data_cases db_accepts s game_data)
    as [E|[E|(gid' & gi & game & hs & aws & hw & teams & players & Hid' & _
              & _ & _ & _ & Ht & _)]].
  - rewrite E. by split.
  - rewrite E. by split.
  - exfalso. rewrite Hid in Hid'. injection Hid' as <-.
    revert Ht. apply update_records_raise with p; [done..|].
    by rewrite (construct_unknown_keyword _ _ _ Hkey Hattr).
Qed.

End UpdateRefusal.

(** C9 (as the code has it). The stored game is refreshed with a record
    whose team entry, like every entry of the stat mapper, carries the key
    [mp], and no team row of the game is stored. The entry has to be
    inserted, [TeamGameStats] has no attribute [mp], the constructor
    raises, and the handler rolls the whole update back: the team row is
    not inserted and the scores are not overwritten (the stored home score
    stays 108 where the record has 110). *)
Theorem update_rolls_back_on_unknown_keyword :
  matched_index (team_game_stats store2) (team_key (SStr "202310240BOS"))
    home_line = None /\
  construct TeamGameStats home_line = Raise TypeError /\
  update_game_data always store2 refresh1 = (store2, Some LogError) /\
  payload_rows refresh1 "team_stats" = [home_line] /\
  is_Some (find_game store2 (SStr "202310240BOS")) /\
  refresh1 !! "home_score" = Some (Scalar (SInt 110)) /\
  (games (update_game_data always store2 refresh1).1 !! 0%nat
     ≫= (.!! "home_score")) = Some (SInt 108) /\
  team_game_stats (update_game_data always store2 refresh1).1 = [].
Proof.
  repeat split; try reflexivity. apply is_Some_alt. exact I.
Qed.

(** The query matches a stored team row by the payload's game identifier,
    not by the entry's: an entry that carries another game's identifier is
    written over the row of the payload's game, whose identifier it
    replaces. *)
Lemma update_matches_rows_by_the_payload_identifier :
  refresh_other !! "game_id" = Some (Scalar (SStr "202310240BOS")) /\
  payload_rows refresh_other "team_stats" = [other_line] /\
  other_line !! "game_id" = Some (SStr "202310250LAL") /\
  team_game_stats store1 !! 0%nat = Some home_row /\
  home_row !! "game_id" = Some (SStr "202310240BOS") /\
  (update_game_data always store1 refresh_other).2 = Some LogUpdated /\
  team_game_stats (update_game_data always store1 refresh_other).1 !! 0%nat
    = Some (patched TeamGameStats other_line home_row) /\
  patched TeamGameStats other_line home_row !! "game_id"
    = Some (SStr "202310250LAL").
Proof. repeat split; reflexivity. Qed.

(** ** Properties of the fetcher *)

Section FetcherFacts.
Variable page : string -> nat -> attempt_result.
Variable url : string.
Variable n : Z.

Lemma last_attempt (i m : nat) :
  (i + S m = Z.to_nat n)%nat ->
  (Z.of_nat i =? n - 1) = bool_decide (m = 0%nat).
Proof.
  intros H. case_bool_decide; [apply Z.eqb_eq | apply Z.eqb_neq]; lia.
Qed.

Lemma attempts_shape (m i : nat) :
  (i + m = Z.to_nat n)%nat ->
  let r := attempts page url n (seq i m) in
  ((0 < m)%nat -> (0 < attempts_made r.2)%nat) /\
  (attempts_made r.2 <= m)%nat /\
  List.filter is_action r.2 = backoff_schedule url i (attempts_made r.2) /\
  match r.1 with
  | Some html =>
      exists k, attempts_made r.2 = S k /\
        page url (i + k)%nat = Loaded html /\
        forall j, (j < k)%nat -> loaded (page url (i + j)%nat) = None
  | None =>
      attempts_made r.2 = m /\
      forall j, (j < m)%nat -> loaded (page url (i + j)%nat) = None
  end.
Proof.
  revert i. induction m as [|m IH]; intros i Hsum.
  - cbn. repeat split; intros; lia.
  - cbn [seq attempts]. pose proof (last_attempt i m Hsum) as Hlast.
    assert (forall r' : option string * list fetch_event,
              r' = attempts page url n (seq (S i) m) ->
              forall (log : fetch_event), is_action log = false ->
              is_goto log = false ->
              loaded (page url i) = None ->
              m <> 0%nat ->
              let r := (r'.1, Goto url i :: log :: Sleep (Z.of_nat i + 1) :: r'.2) in
              ((0 < S m)%nat -> (0 < attempts_made r.2)%nat) /\
              (attempts_made r.2 <= S m)%nat /\
              List.filter is_action r.2
                = backoff_schedule url i (attempts_made r.2) /\
              match r.1 with
              | Some html =>
                  exists k, attempts_made r.2 = S k /\
                    page url (i + k)%nat = Loaded html /\
                    forall j, (j < k)%nat -> loaded (page url (i + j)%nat) = None
              | None =>
                  attempts_made r.2 = S m /\
                  forall j, (j < S m)%nat -> loaded (page url (i + j)%nat) = None
              end) as Hrec.
    { intros r' -> log Hlog Hgoto Hfail Hm.
      destruct (IH (S i) ltac:(lia)) as (Hpos & Hle & Hsched & Hres).
      specialize (Hpos ltac:(lia)).
      cbn [fst snd]. unfold attempts_made in *. cbn [List.filter is_goto is_action].
      rewrite Hlog, Hgoto. cbn [length]. rewrite Hsched.
      repeat split; try lia.
      - destruct (length (List.filter is_goto
                    (attempts page url n (seq (S i) m)).2)) as [|c]; [lia|].
        reflexivity.
      - destruct ((attempts page url n (seq (S i) m)).1) as [html|].
        + destruct Hres as (k & Hk & Hload & Hbefore).
          exists (S k). rewrite Hk. split; [reflexivity|].
          split; [by replace (i + S k)%nat with (S i + k)%nat by lia|].
          intros [|j] Hj; [by rewrite Nat.add_0_r|].
          replace (i + S j)%nat with (S i + j)%nat by lia. apply Hbefore. lia.
        + destruct Hres as (Hk & Hbefore). split; [lia|].
          intros [|j] Hj; [by rewrite Nat.add_0_r|].
          replace (i + S j)%nat with (S i + j)%nat by lia. apply Hbefore. lia. }
    destruct (page url i) as [html| |e] eqn:Hpage.
    + cbn. repeat split; try lia.
      exists 0%nat. rewrite Nat.add_0_r. repeat split; auto. intros; lia.
    + rewrite Hlast. case_bool_decide as Hm.
      * subst m. cbn. repeat split; try lia.
        intros [|j] Hj; [by rewrite Nat.add_0_r, Hpage|lia].
      * specialize (Hrec _ eq_refl (LogTimeout url (Z.of_nat i + 1))
                      eq_refl eq_refl eq_refl Hm).
        destruct (attempts page url n (seq (S i) m)) as [h t]. exact Hrec.
    + rewrite Hlast. case_bool_decide as Hm.
      * subst m. cbn. repeat split; try lia.
        intros [|j] Hj; [by rewrite Nat.add_0_r, Hpage|lia].
      * specialize (Hrec _ eq_refl (LogFetchError url e)
                      eq_refl eq_refl eq_refl Hm).
        destruct (attempts page url n (seq (S i) m)) as [h t]. exact Hrec.
Qed.

End FetcherFacts.

Lemma attempts_alike (page page' : string -> nat -> attempt_result)
    (url : string) (n : Z) (range : list nat) :
  (forall k, loaded (page url k) = loaded (page' url k)) ->
  (attempts page url n range).1 = (attempts page' url n range).1 /\
  List.filter is_action (attempts page url n range).2
    = List.filter is_action (attempts page' url n range).2.
Proof.
  intros Hsame. induction range as [|i rest IH]; [done|].
  cbn [attempts]. specialize (Hsame i).
  destruct (attempts page url n rest) as [h t],
           (attempts page' url n rest) as [h' t'].
  cbn [fst snd] in IH. destruct IH as [-> Ht].
  destruct (page url i), (page' url i); try discriminate;
    try (injection Hsame as ->); try done;
    destruct (Z.of_nat i =? n - 1); cbn; rewrite ?Ht; done.
Qed.

(** C8 (amended). With [n] the number of retries in force ([max_retries]
    when it is given and not zero, [settings.MAX_RETRIES] = 3 otherwise),
    the fetcher makes at most [n] attempts; what it does is attempt, sleep
    the delay times 1, attempt, sleep the delay times 2, and so on; it
    returns the markup of the first attempt that loads, and [None], without
    raising, when all [n] attempts fail; whether a failed attempt timed out
    or raised something else changes neither the result nor the schedule. *)
Theorem fetch_retries_with_linear_backoff
    (page : string -> nat -> attempt_result) (url : string)
    (max_retries : option Z) :
  let n := or_default max_retries in
  let r := get_html_with_retry page url max_retries in
  or_default None = 3 /\
  (attempts_made r.2 <= Z.to_nat n)%nat /\
  List.filter is_action r.2 = backoff_schedule url 0 (attempts_made r.2) /\
  match r.1 with
  | Some html =>
      exists k, attempts_made r.2 = S k /\ page url k = Loaded html /\
        forall j, (j < k)%nat -> loaded (page url j) = None
  | None =>
      attempts_made r.2 = Z.to_nat n /\
      forall j, (j < Z.to_nat n)%nat -> loaded (page url j) = None
  end /\
  ((forall j, (j < Z.to_nat n)%nat -> loaded (page url j) = None) ->
   r.1 = None) /\
  (forall page' : string -> nat -> attempt_result,
     (forall k, loaded (page url k) = loaded (page' url k)) ->
     let r' := get_html_with_retry page' url max_retries in
     r'.1 = r.1 /\ List.filter is_action r'.2 = List.filter is_action r.2).
Proof.
  intros n r. subst r. unfold get_html_with_retry. fold n.
  destruct (attempts_shape page url n (Z.to_nat n) 0 eq_refl)
    as (_ & Hle & Hsched & Hres).
  split; [reflexivity|]. split; [exact Hle|]. split; [exact Hsched|].
  split; [exact Hres|]. split.
  - intros Hfail.
    destruct ((attempts page url n (seq 0 (Z.to_nat n))).1) as [html|];
      [|reflexivity].
    destruct Hres as (k & Hk & Hload & _).
    specialize (Hfail k ltac:(lia)). simpl in Hload. rewrite Hload in Hfail.
    discriminate.
  - intros page' Hsame.
    destruct (attempts_alike page page' url n (seq 0 (Z.to_nat n)) Hsame)
      as [-> ->]. done.
Qed.

Lemma fetch_retries_with_linear_backoff_witness :
  let page := fun (_ : string) (k : nat) =>
    match k with 0%nat => TimedOut | 1%nat => Failed "reset" | _ => Loaded "<table>" end in
  let r := get_html_with_retry page "https://example.org/boxscores/x.html" None in
  r.1 = Some "<table>" /\
  List.filter is_action r.2 =
    [Goto "https://example.org/boxscores/x.html" 0; Sleep 1;
     Goto "https://example.org/boxscores/x.html" 1; Sleep 2;
     Goto "https://example.org/boxscores/x.html" 2] /\
  get_html_with_retry (fun _ _ => TimedOut) "https://example.org/boxscores/x.html"
    (Some 2) = 
  (None, [Goto "https://example.org/boxscores/x.html" 0;
          LogTimeout "https://example.org/boxscores/x.html" 1; Sleep 1;
          Goto "https://example.org/boxscores/x.html" 1;
          LogTimeout "https://example.org/boxscores/x.html" 2;
          LogGaveUp "https://example.org/boxscores/x.html" 2]).
Proof.
  intros page r.
  pose proof (fetch_retries_with_linear_backoff (fun _ _ => TimedOut)
                "https://example.org/boxscores/x.html" (Some 2))
    as (_ & _ & _ & _ & Hnone & _).
  specialize (Hnone (fun j _ => eq_refl)).
  split; [reflexivity|]. split; [reflexivity|].
  destruct (get_html_with_retry (fun _ _ => TimedOut)
              "https://example.org/boxscores/x.html" (Some 2)) as [h t] eqn:E.
  simpl in Hnone. subst h. rewrite <- E. reflexivity.
Defined.

(** C8 (as stated) fails in its last part: when the attempts are
    exhausted the value returned is [None] whatever the address and the
    error were, so neither can be read off it. Besides, a [max_retries] of
    0 stands for the default: three attempts are made. *)
Lemma fetch_failure_carries_neither_url_nor_error :
  let r1 := get_html_with_retry (fun _ _ => TimedOut) "https://a.example/1.html" None in
  let r2 := get_html_with_retry (fun _ _ => Failed "connection reset")
              "https://b.example/2.html" None in
  r1.1 = None /\ r2.1 = None /\
  attempts_made
    (get_html_with_retry (fun _ _ => TimedOut) "https://a.example/1.html"
       (Some 0)).2 = 3%nat /\
  ~ exists carried : option string -> string * bool,
      carried r1.1 = ("https://a.example/1.html", true) /\
      carried r2.1 = ("https://b.example/2.html", false).
Proof.
  cbv zeta. split; [reflexivity|]. split; [reflexivity|].
  split; [reflexivity|].
  intros (carried & H1 & H2).
  change (carried None = ("https://a.example/1.html", true)) in H1.
  change (carried None = ("https://b.example/2.html", false)) in H2.
  rewrite H1 in H2. discriminate.
Qed.

(** ** Properties of the two readers *)

Lemma utf8_head_span (b1 : Byte.byte) (r1 : list Byte.byte) :
  (1 <= (utf8_head b1 r1).2 <= 4)%nat /\
  ((utf8_head b1 r1).2 - 1 <= length r1)%nat.
Proof.
  unfold utf8_head. repeat case_match; simpl; lia.
Qed.

(** One step of the decoder: the sequence at the head, then the bytes
    after it. *)
Lemma utf8_decode_cons (errors : error_handler) (b1 : Byte.byte)
    (r1 : list Byte.byte) :
  utf8_decode errors (b1 :: r1) =
  let rest := utf8_decode errors (drop ((utf8_head b1 r1).2 - 1) r1) in
  match (utf8_head b1 r1).1 with
  | Some c => cons c <$> rest
  | None =>
      match errors with
      | strict => Raise UnicodeDecodeError
      | ignore => rest
      end
  end.
Proof.
  pose proof (utf8_head_span b1 r1) as [Hn Hlen].
  cbn [utf8_decode]. destruct (utf8_head b1 r1) as [cp n]. cbn [fst snd] in *.
  destruct n as [|[|[|[|[|n]]]]]; try lia;
    destruct r1 as [|b2 [|b3 [|b4 r4]]]; simpl in Hlen; try lia; reflexivity.
Qed.

Lemma utf8_decode_by_length (P : list Byte.byte -> Prop) :
  P [] ->
  (forall b1 r1,
     (forall bs, (length bs <= length r1)%nat -> P bs) -> P (b1 :: r1)) ->
  forall bs, P bs.
Proof.
  intros Hnil Hcons bs.
  assert (forall k bs, (length bs <= k)%nat -> P bs) as H; [|by apply (H (length bs))].
  induction k as [|k IH]; intros [|b1 r1] Hlen; simpl in Hlen; try done; try lia.
  apply Hcons. intros bs' Hbs'. apply IH. lia.
Qed.

(** Ignoring errors, decoding never fails. *)
Lemma utf8_decode_ignore_total (bs : list Byte.byte) :
  exists text, utf8_decode ignore bs = Ok text.
Proof.
  induction bs as [|b1 r1 IH] using utf8_decode_by_length; [by exists []|].
  rewrite utf8_decode_cons. cbn zeta.
  destruct (IH (drop ((utf8_head b1 r1).2 - 1) r1)) as [text ->].
  { rewrite length_drop. lia. }
  destruct ((utf8_head b1 r1).1); simpl; eauto.
Qed.

(** Strict decoding fails with [UnicodeDecodeError] only. *)
Lemma utf8_decode_strict_raises (bs : list Byte.byte) (e : exn) :
  utf8_decode strict bs = Raise e -> e = UnicodeDecodeError.
Proof.
  induction bs as [|b1 r1 IH] using utf8_decode_by_length; [discriminate|].
  rewrite utf8_decode_cons. cbn zeta.
  destruct ((utf8_head b1 r1).1); [|by intros [= <-]].
  destruct (utf8_decode strict (drop ((utf8_head b1 r1).2 - 1) r1))
    as [text|e'] eqn:E; simpl; [discriminate|].
  intros [= <-]. apply IH in E; [done|]. rewrite length_drop. lia.
Qed.

(** On a well-formed file both handlers give the same text. *)
Lemma utf8_decode_ignore_strict (bs : list Byte.byte) (text : list Z) :
  utf8_decode strict bs = Ok text -> utf8_decode ignore bs = Ok text.
Proof.
  revert text.
  induction bs as [|b1 r1 IH] using utf8_decode_by_length; [done|].
  intros text. rewrite !utf8_decode_cons. cbn zeta.
  destruct ((utf8_head b1 r1).1); [|discriminate].
  destruct (utf8_decode strict (drop ((utf8_head b1 r1).2 - 1) r1))
    as [rest|e'] eqn:E; simpl; [|discriminate].
  intros [= <-]. apply IH in E as ->; [done|]. rewrite length_drop. lia.
Qed.

Lemma byte_val_inj (a b : Byte.byte) : byte_val a = byte_val b -> a = b.
Proof.
  unfold byte_val. intros H. apply N2Z.inj in H.
  pose proof (Byte.of_to_N a) as Ha. rewrite H, Byte.of_to_N in Ha.
  by injection Ha.
Qed.

(** The fallback keeps every byte: the bytes can be read back from the
    text. *)
Lemma latin1_decode_inj (bs bs' : list Byte.byte) :
  latin1_decode bs = latin1_decode bs' -> bs = bs'.
Proof.
  unfold latin1_decode. revert bs'.
  induction bs as [|b r IH]; intros [|b' r']; simpl; try done.
  intros [= Hb Hr]. f_equal; [by apply byte_val_inj|by apply IH].
Qed.

(** One step of the line-ending translation. *)
Lemma universal_newlines_cons (c : Z) (rest : list Z) :
  universal_newlines (c :: rest) =
  if c =? 13 then
    10 :: universal_newlines
            match rest with
            | c' :: rest' => if c' =? 10 then rest' else rest
            | [] => []
            end
  else c :: universal_newlines rest.
Proof.
  cbn [universal_newlines]. destruct (c =? 13); [|reflexivity].
  destruct rest as [|c' rest']; [reflexivity|]. by destruct (c' =? 10).
Qed.

Lemma universal_newlines_by_length (P : list Z -> Prop) :
  P [] ->
  (forall c rest,
     (forall text, (length text <= length rest)%nat -> P text) ->
     P (c :: rest)) ->
  forall text, P text.
Proof.
  intros Hnil Hcons text.
  assert (forall k text, (length text <= k)%nat -> P text) as H;
    [|by apply (H (length text))].
  induction k as [|k IH]; intros [|c rest] Hlen; simpl in Hlen; try done;
    try lia.
  apply Hcons. intros text' Hlen'. apply IH. lia.
Qed.

(** A text without carriage return is read as it is. *)
Lemma universal_newlines_id (text : list Z) :
  13 ∉ text -> universal_newlines text = text.
Proof.
  induction text as [|c rest IH]; [reflexivity|].
  intros Hno. rewrite universal_newlines_cons.
  destruct (Z.eqb_spec c 13) as [->|_].
  - exfalso. apply Hno, list_elem_of_here.
  - rewrite IH; [reflexivity|]. intros Hin. by apply Hno, list_elem_of_further.
Qed.

(** The translation adds nothing but line feeds, leaves no carriage
    return, and never lengthens the text. *)
Lemma universal_newlines_spec (text : list Z) :
  (13 ∉ universal_newlines text) /\
  (forall c, c ∈ universal_newlines text -> c = 10 \/ c ∈ text) /\
  (length (universal_newlines text) <= length text)%nat.
Proof.
  induction text as [|c rest IH] using universal_newlines_by_length.
  { split; [by intros Hin%elem_of_nil|]. split; [|done].
    by intros c Hin%elem_of_nil. }
  rewrite universal_newlines_cons.
  destruct (Z.eqb_spec c 13) as [->|Hc].
  - set (next := match rest with
                 | c' :: rest' => if c' =? 10 then rest' else rest
                 | [] => []
                 end).
    assert ((length next <= length rest)%nat /\
            forall x, x ∈ next -> x ∈ rest) as [Hlen Hsub].
    { subst next. destruct rest as [|c' rest']; [done|].
      destruct (c' =? 10); simpl; split; try lia; auto.
      intros x Hx. by apply list_elem_of_further. }
    destruct (IH next Hlen) as (H1 & H2 & H3).
    split; [|split].
    + intros Hin. apply elem_of_cons in Hin as [Hin|Hin]; [discriminate|done].
    + intros x Hx. apply elem_of_cons in Hx as [->|Hx]; [by left|].
      destruct (H2 x Hx) as [->|Hx']; [by left|].
      right. by apply list_elem_of_further, Hsub.
    + simpl. lia.
  - destruct (IH rest (Nat.le_refl _)) as (H1 & H2 & H3).
    split; [|split].
    + intros Hin. apply elem_of_cons in Hin as [Hin|Hin]; [congruence|done].
    + intros x Hx. apply elem_of_cons in Hx as [->|Hx];
        [right; apply list_elem_of_here|].
      destruct (H2 x Hx) as [->|Hx']; [by left|].
      right. by apply list_elem_of_further.
    + simpl. lia.
Qed.

Lemma latin1_decode_no_cr (bs : list Byte.byte) :
  Byte.x0d ∉ bs -> 13 ∉ latin1_decode bs.
Proof.
  unfold latin1_decode. intros Hno Hin.
  apply list_elem_of_fmap in Hin as (b & Hb & Hin).
  apply Hno. assert (b = Byte.x0d) as <-; [|exact Hin].
  apply byte_val_inj. by rewrite <- Hb.
Qed.

(** [parse_html] always hands a text to the parser: the UTF-8 reading of
    the file, or else its Latin-1 reading, with the line endings read as
    line feeds. *)
Lemma parse_html_read_fallback (bs : list Byte.byte) :
  exists text,
    parse_html_read bs = Ok (Some (universal_newlines text)) /\
    (utf8_decode strict bs = Ok text \/
     (utf8_decode strict bs = Raise UnicodeDecodeError /\
      text = latin1_decode bs)).
Proof.
  unfold parse_html_read, read_utf8, read_latin1.
  destruct (utf8_decode strict bs) as [text|e] eqn:E; [simpl; eauto|].
  apply utf8_decode_strict_raises in E as ->. simpl. eauto.
Qed.

(** Text mode folds the line endings before the parser sees the text: a
    file with a carriage return before its line feed is read as the file
    without it, through the fallback as well. *)
Lemma text_mode_folds_line_endings :
  parse_html_read [Byte.xe9; Byte.x0d; Byte.x0a] = Ok (Some [233; 10]) /\
  parse_html_read [Byte.xe9; Byte.x0a] = Ok (Some [233; 10]) /\
  parse_html_read [Byte.xe9; Byte.x0d] = Ok (Some [233; 10]) /\
  parse_html_file_read [Byte.x61; Byte.x0d; Byte.x0a; Byte.x62]
    = Ok [97; 10; 98].
Proof. repeat split; reflexivity. Qed.

(** X21. Neither reader fails on the encoding of a file. [parse_html] hands
    over the UTF-8 reading of the file or, when the file is not UTF-8, its
    Latin-1 reading, and [parse_html_file] the UTF-8 reading with the
    ill-formed sequences left out, which is the UTF-8 reading itself when
    the file is well formed; in each case the line endings are read as
    line feeds, so that no carriage return reaches the parser. Line
    endings apart the fallback loses nothing: two files without a carriage
    return that have the same Latin-1 reading are the same file. *)
Lemma readers_never_fail_on_encoding (file : list Byte.byte) :
  (exists text,
     parse_html_read file = Ok (Some (universal_newlines text)) /\
     (utf8_decode strict file = Ok text \/
      (utf8_decode strict file = Raise UnicodeDecodeError /\
       text = latin1_decode file))) /\
  (forall file',
     Byte.x0d ∉ file -> Byte.x0d ∉ file' ->
     read_latin1 file = read_latin1 file' -> file = file') /\
  (exists text,
     parse_html_file_read file = Ok (universal_newlines text) /\
     utf8_decode ignore file = Ok text) /\
  (forall text,
     utf8_decode strict file = Ok text ->
     parse_html_file_read file = Ok (universal_newlines text) /\
     parse_html_read file = Ok (Some (universal_newlines text))) /\
  (forall text, parse_html_read file = Ok (Some text) -> 13 ∉ text) /\
  (forall text, parse_html_file_read file = Ok text -> 13 ∉ text).
Proof.
  split; [apply parse_html_read_fallback|].
  split.
  { intros file' Hno Hno'. unfold read_latin1. intros [= Heq].
    rewrite !universal_newlines_id in Heq by (by apply latin1_decode_no_cr).
    by apply latin1_decode_inj. }
  split.
  { destruct (utf8_decode_ignore_total file) as [text Ht]. exists text.
    split; [|exact Ht]. unfold parse_html_file_read, read_utf8.
    by rewrite Ht. }
  split.
  { intros text H. unfold parse_html_file_read, parse_html_read, read_utf8.
    by rewrite (utf8_decode_ignore_strict _ _ H), H. }
  split.
  - intros text. destruct (parse_html_read_fallback file) as (t & -> & _).
    intros [= <-]. apply universal_newlines_spec.
  - intros text. unfold parse_html_file_read, read_utf8.
    destruct (utf8_decode ignore file) as [t|]; [|discriminate].
    intros [= <-]. apply universal_newlines_spec.
Qed.

(** C10 (as the code has it). The fallback is applied by [parse_html] and
    not by [parse_html_file]. The bytes "caf" followed by the Latin-1
    e-acute are not UTF-8: [parse_html] falls back on Latin-1 and reads
    four characters; [parse_html_file] reads three, the text of the file
    that holds "caf" alone. *)
Theorem parse_html_file_drops_undecodable_bytes :
  let file := [Byte.x63; Byte.x61; Byte.x66; Byte.xe9] in
  utf8_decode strict file = Raise UnicodeDecodeError /\
  parse_html_read file = Ok (Some (latin1_decode file)) /\
  latin1_decode file = [99; 97; 102; 233] /\
  parse_html_file_read file = Ok [99; 97; 102] /\
  parse_html_file_read file <> Ok (latin1_decode file) /\
  parse_html_file_read [Byte.x63; Byte.x61; Byte.x66] = parse_html_file_read file.
Proof. repeat split; try reflexivity. discriminate. Qed.

(** * Properties of the rest of the pipeline *)

(** ** The processor's player rows *)

Section ProcessorPlayers.
Context `{FM : FloatModel}.

Lemma _parse_player_row_none (cells : row) (game_id team : string) :
  _parse_player_row cells game_id team = None.
Proof.
  unfold _parse_player_row.
  destruct (length cells <? 10)%nat; [reflexivity|]. cbv zeta.
  destruct (_ || _); [reflexivity|].
  destruct (player_basic_stats _ _ _ _); reflexivity.
Qed.

Lemma _parse_player_rows_none (rows : list row) (game_id team : string) :
  omap (fun cells => _parse_player_row cells game_id team) rows = [].
Proof.
  induction rows as [|cells rows IH]; [reflexivity|].
  cbn [omap list_omap]. by rewrite _parse_player_row_none.
Qed.

End ProcessorPlayers.

(** X1. The processor never returns a player record: in
    [_parse_player_row] the look-up of the advanced table goes through an
    unbound name, so every row that passes the two filters ends in the
    handler; [_parse_player_stats] is the empty list for every document,
    and so is the [player_stats] entry of every assembled record. *)
Theorem processor_returns_no_player_record `{FM : FloatModel} (doc : soup)
    (game_id : string) :
  (forall cells team, _parse_player_row cells game_id team = None) /\
  _parse_player_stats doc game_id = [] /\
  (forall game_data, parse_html_file doc game_id = Some game_data ->
     game_data !! "player_stats" = Some (Rows [])).
Proof.
  assert (_parse_player_stats doc game_id = []) as Hnone.
  { unfold _parse_player_stats. cbn [omap list_omap].
    destruct (find_table doc _), (find_table doc _); cbn;
      rewrite ?_parse_player_rows_none; reflexivity. }
  split; [intros; apply _parse_player_row_none|]. split; [exact Hnone|].
  intros game_data. unfold parse_html_file.
  destruct (_parse_basic_game_info doc game_id) as [info|]; [|discriminate].
  intros [= <-]. rewrite Hnone. by simplify_map_eq.
Qed.

(** ** The store, once more *)

Section IngestFacts.
Context `{FM : FloatModel}.
Variable db_accepts : store -> store -> bool.

(** What a run that logs success has done, and what the other runs leave. *)
Lemma save_game_to_database_saved (s : store) (game_data : gmap string pyval) :
  let r := save_game_to_database db_accepts s game_data in
  (r.2 <> LogSaved /\ r.1 = s) \/
  (exists gid game,
     game_data !! "game_id" = Some (Scalar gid) /\
     find_game s gid = None /\
     construct_game game_data = Ok game /\
     r = (add_game game s, LogSaved)).
Proof.
  unfold save_game_to_database, getitem.
  destruct (game_data !! "game_id") as [[gid|l]|] eqn:Hid; simpl;
    try (left; split; [discriminate|reflexivity]).
  destruct (find_game s gid) as [found|] eqn:Hf;
    [left; split; [discriminate|reflexivity]|].
  destruct (construct_game game_data) as [game|] eqn:Hc; simpl;
    [|left; split; [discriminate|reflexivity]].
  destruct (commit db_accepts s (add_game game s)) as [s1|] eqn:Hc1; simpl;
    [|left; split; [discriminate|reflexivity]].
  apply commit_cases in Hc1 as ->.
  destruct (construct_game_no_subrecords _ _ Hc) as (-> & -> & ->). simpl.
  rewrite add_records_nil, commit_same. right. eauto 10.
Qed.

Lemma find_game_None (s : store) (gid : scalar) :
  find_game s gid = None -> Some gid ∉ game_ids s.
Proof.
  unfold find_game, game_ids. intros Hnone Hin.
  apply list_elem_of_fmap in Hin as (g & Hg & Hin).
  apply list_find_None in Hnone.
  rewrite Forall_forall in Hnone. by apply (Hnone g).
Qed.

(** The eight fields of the basic information are columns of [Game]. *)
Lemma construct_game_info (game_id : string) (d : date) (season : Z)
    (home_team away_team : string) (home_score away_score : Z) (home_won : bool) :
  let info := game_info game_id d season home_team away_team home_score
                away_score home_won in
  construct_game info = Ok (omap scalar_of info).
Proof.
  cbv zeta. unfold construct_game. rewrite bool_decide_eq_true_2; [reflexivity|].
  unfold game_info.
  repeat (apply map_Forall_insert_2; [reflexivity|]). apply map_Forall_empty.
Qed.

End IngestFacts.

(** X2. The migration never writes a row. Whatever the files hold and
    whatever the storage layer accepts, [process_existing_files] ends with
    the store it started from; its count of processed files is the number
    of files from which a record was assembled, and its count of errors is
    zero. *)
Theorem migration_stores_nothing `{FM : FloatModel}
    (db_accepts : store -> store -> bool) (s : store)
    (html_files : list (string * soup)) :
  let r := process_existing_files db_accepts s html_files in
  r.1 = s /\
  r.2.1 = length (filter (fun f : string * soup =>
                            is_Some (parse_html_file f.2 f.1)) html_files) /\
  r.2.2 = 0%nat.
Proof.
  cbv zeta. unfold process_existing_files.
  assert (forall files st,
    let r := fold_left (process_file db_accepts) files st in
    r.1 = st.1 /\
    r.2.1 = (st.2.1 + length (filter (fun f : string * soup =>
                                  is_Some (parse_html_file f.2 f.1)) files))%nat /\
    r.2.2 = st.2.2) as Hloop.
  { induction files as [|[stem doc] files IH]; intros [s0 [n e]]; cbn [fold_left].
    - cbn. repeat split; lia.
    - cbv zeta in *.
      destruct (IH (process_file db_accepts (s0, (n, e)) (stem, doc)))
        as (-> & -> & ->).
      rewrite filter_cons. cbn [fst snd process_file].
      destruct (parse_html_file doc stem) as [game_data|] eqn:Hp.
      + pose proof (parse_html_file_some _ _ _ Hp) as [Hid _].
        rewrite bool_decide_eq_false_2
          by (intros ->; by rewrite lookup_empty in Hid).
        rewrite decide_True by eauto. cbn [fst snd length].
        split; [|split; [lia|reflexivity]].
        destruct (save_game_to_database_saved db_accepts s0 game_data)
          as [[_ E]|(gid & game & _ & _ & Hc & _)]; [exact E|].
        rewrite (construct_game_parsed _ _ _ Hp) in Hc. discriminate.
      + rewrite decide_False by (by intros [? ?]). cbn. repeat split; lia. }
  destruct (Hloop html_files (s, (0%nat, 0%nat))) as (H1 & H2 & H3).
  cbn in *. auto.
Qed.

(** X3. [save_game_to_database] only appends. It leaves the team, player
    and official rows as they are; the [Game] rows it finds stay in place,
    and at most one row is added after them: the mapping's scalar entries,
    under an identifier that was not stored. Identifiers that were pairwise
    distinct stay so, whatever the storage layer checks. *)
Theorem ingest_only_appends `{FM : FloatModel}
    (db_accepts : store -> store -> bool) (s : store)
    (game_data : gmap string pyval) :
  let s' := (save_game_to_database db_accepts s game_data).1 in
  team_game_stats s' = team_game_stats s /\
  player_game_stats s' = player_game_stats s /\
  game_officials s' = game_officials s /\
  (exists new,
     games s' = (games s ++ new)%list /\ (length new <= 1)%nat /\
     forall g, g ∈ new ->
       g = omap scalar_of game_data /\
       exists gid,
         game_data !! "game_id" = Some (Scalar gid) /\
         g !! "game_id" = Some gid /\ find_game s gid = None) /\
  (NoDup (game_ids s) -> NoDup (game_ids s')).
Proof.
  cbv zeta.
  destruct (save_game_to_database_saved db_accepts s game_data)
    as [[_ ->]|(gid & game & Hid & Hf & Hc & ->)].
  - split; [reflexivity|]. split; [reflexivity|]. split; [reflexivity|].
    split; [|auto]. exists []. rewrite app_nil_r.
    split; [reflexivity|]. split; [simpl; lia|]. intros g Hg. inversion Hg.
  - cbn [fst]. split; [reflexivity|]. split; [reflexivity|].
    split; [reflexivity|]. split.
    + exists [game]. split; [reflexivity|]. split; [simpl; lia|].
      intros g Hg. apply list_elem_of_singleton in Hg as ->.
      pose proof (construct_game_id _ _ _ Hc Hid) as Hgid.
      split; [|eauto].
      revert Hc. unfold construct_game. case_bool_decide; [|discriminate].
      by intros [= <-].
    + intros Hnd. unfold game_ids, add_game. cbn [games].
      rewrite fmap_app. apply NoDup_app. split; [exact Hnd|].
      split; [|apply NoDup_singleton].
      intros x Hx Hin. cbn in Hin. apply list_elem_of_singleton in Hin as ->.
      rewrite (construct_game_id _ _ _ Hc Hid) in Hx.
      by apply (find_game_None s gid Hf).
Qed.

(** X4. What the assembler first builds can be stored; what it hands over
    cannot. The basic information [_parse_basic_game_info] returns holds
    eight columns of [Game]: for an identifier that is not stored, and a
    storage layer that takes the row, [save_game_to_database] adds exactly
    that row and logs success, and a second run skips it. The record
    [parse_html_file] makes of it by adding the three lists is refused for
    the same store. *)
Theorem basic_information_is_stored `{FM : FloatModel}
    (db_accepts : store -> store -> bool) (s : store) (doc : soup)
    (stem : string) (info : gmap string pyval) :
  _parse_basic_game_info doc stem = Some info ->
  find_game s (SStr stem) = None ->
  db_accepts s (add_game (omap scalar_of info) s) = true ->
  let s' := add_game (omap scalar_of info) s in
  save_game_to_database db_accepts s info = (s', LogSaved) /\
  save_game_to_database db_accepts s' info = (s', LogSkipped) /\
  exists game_data,
    parse_html_file doc stem = Some game_data /\
    save_game_to_database db_accepts s game_data = (s, LogError).
Proof.
  intros Hinfo Hf Hdb. cbv zeta.
  pose proof Hinfo as Hshape.
  apply _parse_basic_game_info_some in Hshape
    as (d & ht & awt & hs & aws & _ & Hshape).
  assert (info !! "game_id" = Some (Scalar (SStr stem))) as Hid
    by (subst info; unfold game_info; by simplify_map_eq).
  assert (construct_game info = Ok (omap scalar_of info)) as Hc
    by (subst info; apply construct_game_info).
  assert (info !! "team_stats" = None /\ info !! "player_stats" = None /\
          info !! "officials" = None) as (Hts & Hps & Hos)
    by (subst info; unfold game_info; repeat split; by simplify_map_eq).
  split; [|split].
  - unfold save_game_to_database, getitem. rewrite Hid. simpl.
    rewrite Hf, Hc. simpl. unfold commit at 1.
    rewrite decide_False.
    + rewrite Hdb. simpl.
      rewrite Hts, Hps, Hos. simpl.
      by rewrite add_records_nil, commit_same.
    + intros E. apply (f_equal (fun x => length (games x))) in E.
      unfold add_game in E. cbn in E. rewrite length_app in E. simpl in E. lia.
  - apply save_present with (SStr stem)
            (length (games s), omap scalar_of info); [exact Hid|].
    destruct (find_game_added s (omap scalar_of info) (SStr stem)) as [[i g] Hfound].
    { by rewrite lookup_omap, Hid. }
    rewrite Hfound. f_equal.
    apply list_find_Some in Hfound as (Hi & Hg & Hbefore).
    unfold add_game in Hi, Hbefore. cbn [games] in Hi, Hbefore.
    assert (length (games s) <= i)%nat as Hle.
    { destruct (decide (i < length (games s))%nat) as [Hlt|]; [|lia].
      rewrite lookup_app_l in Hi by exact Hlt.
      unfold find_game in Hf. apply list_find_None in Hf.
      rewrite Forall_forall in Hf. exfalso.
      apply (Hf g); [by apply list_elem_of_lookup_2 with i|exact Hg]. }
    rewrite lookup_app_r in Hi by exact Hle.
    apply list_lookup_singleton_Some in Hi as [Hi <-].
    f_equal. lia.
  - unfold parse_html_file. rewrite Hinfo. eexists. split; [reflexivity|].
    apply save_parsed_game with doc stem; [|exact Hf].
    unfold parse_html_file. by rewrite Hinfo.
Qed.

Lemma basic_information_is_stored_witness :
  let info := game_info "202310240BOS" (Date 2023 10 24) 2023 "BOS" "NYK"
                108 104 true in
  let s' := add_game (omap scalar_of info) empty_store in
  save_game_to_database always empty_store info = (s', LogSaved) /\
  save_game_to_database always s' info = (s', LogSkipped) /\
  exists game_data,
    parse_html_file doc1 "202310240BOS" = Some game_data /\
    save_game_to_database always empty_store game_data
      = (empty_store, LogError).
Proof.
  apply (basic_information_is_stored always empty_store doc1 "202310240BOS");
    reflexivity.
Defined.

(** ** The officials *)

Lemma enumerate_lookup {A} (l : list A) (n i : nat) :
  enumerate n l !! i = (fun a => ((n + i)%nat, a)) <$> l !! i.
Proof.
  revert n i. induction l as [|a l IH]; intros n [|i]; simpl; try reflexivity.
  - by rewrite Nat.add_0_r.
  - rewrite IH. by replace (S n + i)%nat with (n + S i)%nat by lia.
Qed.

Lemma enumerate_length {A} (l : list A) (n : nat) :
  length (enumerate n l) = length l.
Proof. revert n. induction l; intros; simpl; auto. Qed.

(** X5. At most three officials are kept, the first three links after the
    marker, in order and numbered from 1; each record carries the game
    identifier, the text and the address of its link, and is a mapping the
    [GameOfficial] constructor takes as it is. *)
Theorem officials_are_the_first_three_links `{FM : FloatModel} (doc : soup)
    (game_id : string) :
  let links := default [] (official_links doc) in
  let officials := _parse_officials doc game_id in
  length officials = (length links `min` 3)%nat /\
  forall i o, officials !! i = Some o ->
    exists name href,
      links !! i = Some (name, href) /\
      o !! "game_id" = Some (SStr game_id) /\
      o !! "official_name" = Some (SStr name) /\
      o !! "official_url" = Some (SStr href) /\
      o !! "position" = Some (SInt (Z.of_nat i + 1)) /\
      construct GameOfficial o = Ok o.
Proof.
  cbv zeta. unfold _parse_officials.
  destruct (official_links doc) as [links|]; cbn [from_option id].
  - split.
    + rewrite length_fmap, enumerate_length, length_take. lia.
    + intros i o. rewrite list_lookup_fmap, enumerate_lookup, lookup_take.
      case_decide as Hi; [|discriminate].
      destruct (links !! i) as [[name href]|]; [|discriminate].
      cbn. intros [= <-]. exists name, href.
      split; [reflexivity|].
      replace (Z.of_nat (S i)) with (Z.of_nat i + 1) by lia.
      repeat (split; [by simplify_map_eq|]).
      unfold construct.
      rewrite !bool_decide_eq_true_2; [reflexivity| |];
        repeat (apply map_Forall_insert_2; [reflexivity|]);
        apply map_Forall_empty.
  - split; [reflexivity|]. intros i o Ho. inversion Ho.
Qed.

(** ** The fetcher, once more *)

Lemma backoff_total_actions (trace : list fetch_event) :
  backoff_total (List.filter is_action trace) = backoff_total trace /\
  List.filter is_sleep (List.filter is_action trace) = List.filter is_sleep trace.
Proof.
  unfold backoff_total.
  induction trace as [|e trace [IH1 IH2]]; [done|].
  destruct e; cbn; rewrite ?IH1, ?IH2; done.
Qed.

Lemma backoff_schedule_sleep (url : string) (count first : nat) :
  2 * backoff_total (backoff_schedule url first (S count))
    = Z.of_nat count * (2 * Z.of_nat first + Z.of_nat count + 1) /\
  length (List.filter is_sleep (backoff_schedule url first (S count))) = count.
Proof.
  revert first. induction count as [|count IH]; intros first; [done|].
  destruct (IH (S first)) as [IH1 IH2].
  change (backoff_schedule url first (S (S count)))
    with (Goto url first :: Sleep (Z.of_nat first + 1)
            :: backoff_schedule url (S first) (S count)).
  cbn [backoff_total fold_right List.filter is_sleep length].
  change (fold_right _ 0 (backoff_schedule url (S first) (S count)))
    with (backoff_total (backoff_schedule url (S first) (S count))).
  rewrite IH2. split; [lia|reflexivity].
Qed.

(** X6. The waits between attempts add up to a triangular number: a run
    that made [a] attempts waited [a - 1] times between them, never after
    the last one, and these waits come to [1 + 2 + ... + (a - 1)] times the
    configured delay; with the default of three attempts an exhausted run
    has waited three delays between its attempts. The wait inside an
    attempt, after the page has loaded, is not counted. *)
Theorem backoff_is_triangular (page : string -> nat -> attempt_result)
    (url : string) (max_retries : option Z) :
  let r := get_html_with_retry page url max_retries in
  let a := attempts_made r.2 in
  length (List.filter is_sleep r.2) = (a - 1)%nat /\
  2 * backoff_total r.2 = Z.of_nat a * (Z.of_nat a - 1) /\
  (max_retries = None ->
   (forall j, (j < 3)%nat -> loaded (page url j) = None) ->
   r.1 = None /\ a = 3%nat /\ backoff_total r.2 = 3).
Proof.
  cbv zeta. unfold get_html_with_retry.
  destruct (attempts_shape page url (or_default max_retries)
              (Z.to_nat (or_default max_retries)) 0 eq_refl)
    as (_ & _ & Hsched & Hres).
  destruct (backoff_total_actions
              (attempts page url (or_default max_retries)
                 (seq 0 (Z.to_nat (or_default max_retries)))).2) as [Hs Hn].
  rewrite <- Hs, <- Hn, Hsched.
  set (a := attempts_made _) in *.
  assert (length (List.filter is_sleep (backoff_schedule url 0 a)) = (a - 1)%nat /\
          2 * backoff_total (backoff_schedule url 0 a)
            = Z.of_nat a * (Z.of_nat a - 1)) as [H1 H2].
  { destruct a as [|c]; [done|].
    destruct (backoff_schedule_sleep url c 0) as [E1 E2].
    rewrite E1, E2. split; lia. }
  split; [exact H1|]. split; [exact H2|].
  intros -> Hfail. cbn [or_default] in *.
  destruct ((attempts page url MAX_RETRIES (seq 0 (Z.to_nat MAX_RETRIES))).1)
    as [html|].
  - destruct Hres as (k & Hk & Hload & Hbefore).
    assert (a <= 3)%nat as Hle.
    { destruct (attempts_shape page url MAX_RETRIES (Z.to_nat MAX_RETRIES) 0
                  eq_refl) as (_ & Hle & _). exact Hle. }
    specialize (Hfail k ltac:(lia)). simpl in Hload.
    rewrite Hload in Hfail. discriminate.
  - destruct Hres as [Ha _]. change (Z.to_nat MAX_RETRIES) with 3%nat in Ha.
    split; [reflexivity|]. split; [exact Ha|]. rewrite Ha in H2 |- *. lia.
Qed.

(** X7. A negative [max_retries] is taken as it is: the range of attempts
    is empty, so the page is never requested, nothing is logged, and the
    fetcher returns [None] as if every attempt had failed. *)
Theorem negative_retries_make_no_attempt
    (page : string -> nat -> attempt_result) (url : string) (n : Z) :
  n < 0 ->
  or_default (Some n) = n /\
  get_html_with_retry page url (Some n) = (None, []).
Proof.
  intros Hn. assert (or_default (Some n) = n) as E.
  { unfold or_default. destruct (Z.eqb_spec n 0); [lia|reflexivity]. }
  split; [exact E|]. unfold get_html_with_retry. rewrite E.
  by replace (Z.to_nat n) with 0%nat by lia.
Qed.

Lemma negative_retries_make_no_attempt_witness :
  or_default (Some (-1)) = -1 /\
  get_html_with_retry (fun _ _ => Loaded "<html>")
    "https://www.basketball-reference.com/boxscores/202310240BOS.html"
    (Some (-1)) = (None, []).
Proof.
  apply (negative_retries_make_no_attempt (fun _ _ => Loaded "<html>")
           "https://www.basketball-reference.com/boxscores/202310240BOS.html"
           (-1)).
  lia.
Defined.

(** ** The two readers, once more *)

Lemma utf8_decode_ascii (errors : error_handler) (bs : list Byte.byte) :
  is_ascii bs -> utf8_decode errors bs = Ok (latin1_decode bs).
Proof.
  unfold is_ascii, latin1_decode. induction 1 as [|b bs Hb _ IH]; [reflexivity|].
  rewrite utf8_decode_cons.
  assert (utf8_head b bs = (Some (byte_val b), 1%nat)) as ->.
  { unfold utf8_head. cbv zeta. by rewrite (proj2 (Z.ltb_lt _ _) Hb). }
  cbn [fst snd]. change (drop (1 - 1) bs) with bs. rewrite IH. reflexivity.
Qed.

(** X8. On a file of ASCII bytes the decoders cannot be told apart:
    strict UTF-8, UTF-8 with errors ignored and Latin-1 all give the byte
    values, so [parse_html] and [parse_html_file] hand the same text to the
    parser: the byte values with the line endings read as line feeds. The
    text is no longer than the file, and it has one character per byte
    when the file holds no carriage return. *)
Theorem readers_agree_on_ascii (file : list Byte.byte) :
  is_ascii file ->
  let text := universal_newlines (byte_val <$> file) in
  parse_html_read file = Ok (Some text) /\
  parse_html_file_read file = Ok text /\
  read_latin1 file = Ok text /\
  Forall (fun c => 0 <= c < 128) text /\
  (length text <= length file)%nat /\
  (Byte.x0d ∉ file -> text = byte_val <$> file).
Proof.
  intros Hascii. cbv zeta.
  unfold parse_html_read, parse_html_file_read, read_utf8, read_latin1.
  rewrite !utf8_decode_ascii by exact Hascii.
  split; [reflexivity|]. split; [reflexivity|]. split; [reflexivity|].
  destruct (universal_newlines_spec (byte_val <$> file)) as (_ & Hsub & Hlen).
  split; [|split].
  - apply Forall_forall. intros c Hc. destruct (Hsub c Hc) as [->|Hin]; [lia|].
    apply list_elem_of_fmap in Hin as (b & -> & Hb).
    unfold is_ascii in Hascii. rewrite Forall_forall in Hascii.
    specialize (Hascii b Hb). unfold byte_val in *. lia.
  - by rewrite length_fmap in Hlen.
  - intros Hno. apply universal_newlines_id. by apply latin1_decode_no_cr.
Qed.

Lemma readers_agree_on_ascii_witness :
  let file := [Byte.x3c; Byte.x74; Byte.x64; Byte.x3e; Byte.x0d; Byte.x0a] in
  let text := [60; 116; 100; 62; 10] in
  parse_html_read file = Ok (Some text) /\
  parse_html_file_read file = Ok text /\
  read_latin1 file = Ok text /\
  Forall (fun c => 0 <= c < 128) text /\
  (length text <= length file)%nat /\
  (Byte.x0d ∉ file -> text = byte_val <$> file).
Proof.
  apply (readers_agree_on_ascii
           [Byte.x3c; Byte.x74; Byte.x64; Byte.x3e; Byte.x0d; Byte.x0a]).
  repeat constructor.
Defined.

(** ** The keys of the stat mapper *)

Ltac in_list :=
  repeat first [apply list_elem_of_here | apply list_elem_of_further].

Section SchemaFacts.
Context `{FM : FloatModel}.

Lemma fold_left_invariant_in {S A} (P : S -> Prop) (f : S -> A -> S)
    (l : list A) (s : S) :
  (forall s a, a ∈ l -> P s -> P (f s a)) -> P s -> P (fold_left f l s).
Proof.
  revert s. induction l as [|a l IH]; intros s Hstep Hs; [exact Hs|].
  simpl. apply IH.
  - intros s' a' Ha'. apply Hstep. by apply list_elem_of_further.
  - apply Hstep; [apply list_elem_of_here|exact Hs].
Qed.

Lemma enumerate_elem_of {A} (l : list A) (n i : nat) (a : A) :
  (i, a) ∈ enumerate n l -> (n <= i < n + length l)%nat.
Proof.
  intros Hin. apply list_elem_of_lookup in Hin as [j Hj].
  rewrite enumerate_lookup in Hj.
  destruct (l !! j) as [b|] eqn:Hb; [|discriminate].
  apply lookup_lt_Some in Hb. injection Hj as <- <-. lia.
Qed.

Lemma ends_in_max_suffix (name : string) : ends_in_max (name +:+ "_max") = true.
Proof.
  induction name as [|c name IH]; [reflexivity|].
  change (String c name +:+ "_max") with (String c (name +:+ "_max")).
  cbn [ends_in_max]. rewrite IH. apply orb_true_r.
Qed.

(** The entries of the two schemas, checked one by one. *)
Lemma basic_entries_ok :
  Forall (entry_ok (map_to_list basic_mapping)) (map_to_list basic_mapping).
Proof. apply (bool_decide_unpack _). vm_compute. exact I. Qed.

Lemma advanced_entries_ok :
  Forall (entry_ok (map_to_list advanced_mapping)) (map_to_list advanced_mapping).
Proof. apply (bool_decide_unpack _). vm_compute. exact I. Qed.

Lemma stat_mapping_entry (st : string) (i : nat) (name : string) :
  stat_mapping st !! i = Some name ->
  (1 <= i)%nat /\ ends_in_max name = false /\
  (name ∉ ["game_id"; "team"; "is_home"]) /\
  forall j, stat_mapping st !! j = Some name -> j = i.
Proof.
  unfold stat_mapping. intros H.
  assert (Forall (entry_ok (map_to_list
            (if String.eqb st "basic" then basic_mapping else advanced_mapping)))
            (map_to_list
               (if String.eqb st "basic" then basic_mapping else advanced_mapping)))
    as Hall
    by (destruct (String.eqb st "basic");
        [apply basic_entries_ok|apply advanced_entries_ok]).
  rewrite Forall_forall in Hall.
  apply elem_of_map_to_list in H. destruct (Hall _ H) as (H1 & H2 & H3 & H4).
  repeat split; auto.
  intros j Hj. apply elem_of_map_to_list in Hj.
  rewrite Forall_forall in H4. exact (H4 _ Hj eq_refl).
Qed.

Lemma set_total_origin st totals stats ic :
  ic ∈ enumerate 1 (tl totals) ->
  (forall k, is_Some (stats !! k) -> key_origin st totals k) ->
  forall k, is_Some ((set_total st stats ic).1 !! k) -> key_origin st totals k.
Proof.
  intros Hin Hinv k. destruct ic as [i c]. rewrite set_total_eq.
  destruct (stat_mapping st !! i) as [name|] eqn:Hm; cbn [fst]; [|apply Hinv].
  intros Hk. apply lookup_insert_is_Some' in Hk as [<-|Hk]; [|by apply Hinv].
  left. exists i. split; [exact Hm|].
  apply enumerate_elem_of in Hin. destruct totals; simpl in *; lia.
Qed.

Lemma set_row_max_origin st totals stats cells :
  st = "basic" ->
  (forall k, is_Some (stats !! k) -> key_origin st totals k) ->
  forall k, is_Some ((set_row_max st stats cells).1 !! k) -> key_origin st totals k.
Proof.
  intros Hst Hinv. unfold set_row_max.
  rewrite for_each_total by (intros; apply set_max_ok). cbn [fst].
  apply fold_left_invariant; [|exact Hinv].
  intros s [j c] Hs k. rewrite set_max_eq.
  destruct (stat_mapping st !! j) as [name|] eqn:Hm; cbn [fst]; [|apply Hs].
  intros Hk. apply lookup_insert_is_Some' in Hk as [<-|Hk]; [|by apply Hs].
  right. eauto.
Qed.

Lemma _parse_stats_table_origin (rows : table) (totals : row) (st k : string) :
  last rows = Some totals ->
  is_Some (_parse_stats_table (Some rows) st !! k) -> key_origin st totals k.
Proof.
  intros Hlast. rewrite (_parse_stats_table_eq _ _ _ Hlast). cbv zeta.
  assert (forall k, is_Some
            (fold_left (fun s ic => (set_total st s ic).1)
               (enumerate 1 (tl totals)) ∅ !! k) -> key_origin st totals k) as Ht.
  { apply (fold_left_invariant_in
             (fun s => forall k, is_Some (s !! k) -> key_origin st totals k)).
    - intros s ic Hin Hs. by apply set_total_origin.
    - intros k' Hk'. rewrite lookup_empty in Hk'. by destruct Hk'. }
  destruct (String.eqb st "basic") eqn:Hst; [|apply Ht].
  apply String.eqb_eq in Hst. revert k.
  apply (fold_left_invariant
           (fun s => forall k, is_Some (s !! k) -> key_origin st totals k));
    [|exact Ht].
  intros s cells Hs. by apply set_row_max_origin.
Qed.


Lemma _parse_stats_table_schema (tbl : option table) (st k : string) :
  is_Some (_parse_stats_table tbl st !! k) -> schema_key st k.
Proof.
  destruct tbl as [rows|];
    [|intros Hk; unfold _parse_stats_table in Hk; rewrite lookup_empty in Hk;
      by destruct Hk].
  destruct (last rows) as [totals|] eqn:Hlast.
  - intros Hk. apply (_parse_stats_table_origin _ _ _ _ Hlast) in Hk
      as [(i & Hm & _)|(i & name & Hm & Hst & ->)].
    + exists i, k. auto.
    + exists i, name. auto.
  - unfold _parse_stats_table. rewrite Hlast.
    intros Hk. rewrite lookup_empty in Hk. by destruct Hk.
Qed.

End SchemaFacts.

(** X9. The stat mapper fills the schema and nothing else, and fills it
    as far as the totals row goes. Every key of the result is a name of the
    positional schema or, for the basic schema, such a name with the suffix
    [_max]; and a name of the schema is a key of the result exactly when
    the totals row has a cell at the offset of the name: a short row leaves
    the later names out instead of giving them a zero. *)
Theorem stat_mapper_fills_the_schema `{FM : FloatModel} (rows : table)
    (totals : row) (stat_type : string) :
  last rows = Some totals ->
  let stats := _parse_stats_table (Some rows) stat_type in
  (forall key, is_Some (stats !! key) -> schema_key stat_type key) /\
  (forall i name, stat_mapping stat_type !! i = Some name ->
     (is_Some (stats !! name) <-> (i < length totals)%nat)).
Proof.
  intros Hlast. cbv zeta. split; [intros key; apply _parse_stats_table_schema|].
  intros i name Hm.
  destruct (stat_mapping_entry _ _ _ Hm) as (Hi & Hend & _ & Hinj).
  split.
  - intros Hk. apply (_parse_stats_table_origin _ _ _ _ Hlast) in Hk
      as [(j & Hj & Hlt)|(j & name' & _ & _ & E)].
    + by rewrite <- (Hinj j Hj).
    + rewrite E, ends_in_max_suffix in Hend. discriminate.
  - intros Hlt. rewrite (_parse_stats_table_eq _ _ _ Hlast). cbv zeta.
    assert (is_Some
              (fold_left (fun s ic => (set_total stat_type s ic).1)
                 (enumerate 1 (tl totals)) ∅ !! name)) as Ht.
    { assert (exists c, tl totals !! (i - 1)%nat = Some c) as [c Hc].
      { apply lookup_lt_is_Some_2. destruct totals; simpl in *; lia. }
      assert ((i, c) ∈ enumerate 1 (tl totals)) as Hin.
      { apply list_elem_of_lookup. exists (i - 1)%nat.
        rewrite enumerate_lookup, Hc. cbn. do 2 f_equal. lia. }
      apply list_elem_of_split in Hin as (l1 & l2 & ->).
      rewrite fold_left_app. cbn [fold_left].
      apply fold_left_invariant; [intros; by apply set_total_keeps|].
      rewrite set_total_eq, Hm. cbn [fst]. rewrite lookup_insert_eq. eauto. }
    destruct (String.eqb stat_type "basic"); [|exact Ht].
    apply fold_left_invariant; [intros; by apply set_row_max_keeps|exact Ht].
Qed.

Lemma stat_mapper_fills_the_schema_witness :
  let stats := _parse_stats_table (Some box1) "basic" in
  (forall key, is_Some (stats !! key) -> schema_key "basic" key) /\
  (forall i name, stat_mapping "basic" !! i = Some name ->
     (is_Some (stats !! name) <->
      (i < length ["Team Totals"; "240"; "16"; "29"; ".552"; "3"; "9"; ".333";
                   "8"; "11"; ".727"; "3"; "6"; "9"; "12"; "3"; "0"; "6"; "9";
                   "43"; ""])%nat)).
Proof.
  apply (stat_mapper_fills_the_schema box1
           ["Team Totals"; "240"; "16"; "29"; ".552"; "3"; "9"; ".333"; "8";
            "11"; ".727"; "3"; "6"; "9"; "12"; "3"; "0"; "6"; "9"; "43"; ""]
           "basic").
  reflexivity.
Defined.



(** ** The scrapers' player rows *)

Section ScraperPlayers.
Context `{FM : FloatModel}.

(** [float(text)] raises nothing but [ValueError]. *)
Hypothesis py_float_raises :
  forall text e, py_float text = Raise e -> e = ValueError.

Lemma cell_or_int (cells : row) (i : nat) :
  cell_or cells i _safe_int 0 = Ok (coerce_int (default "" (cells !! i))).
Proof.
  unfold cell_or. destruct (cells !! i) as [t|]; [|reflexivity].
  rewrite _safe_int_cell. reflexivity.
Qed.

Lemma _safe_float_cell_ok (t : string) : exists f, _safe_float (Cell t) = Ok f.
Proof.
  rewrite _safe_float_cell. destruct (String.eqb t ""); [eauto|].
  destruct (py_float t) as [f|e] eqn:E; [eauto|].
  apply py_float_raises in E as ->. eauto.
Qed.

Lemma cell_or_float (cells : row) (i : nat) :
  exists f, cell_or cells i _safe_float float_zero = Ok f /\
    _safe_float (Cell (default "" (cells !! i))) = Ok f.
Proof.
  unfold cell_or. destruct (cells !! i) as [t|]; cbn [from_option id].
  - destruct (_safe_float_cell_ok t) as [f Hf]. eauto.
  - exists float_zero. split; reflexivity.
Qed.

(** The two loops over the fields write one entry each and keep the
    others. *)
Lemma foldM_fields {V} (conv : nat -> result V) (wrap : V -> scalar)
    (read : nat -> V) (fields : list (nat * string)) (base : gmap string scalar) :
  (forall i, conv i = Ok (read i)) ->
  foldM (fun (stats : gmap string scalar) '(i, name) =>
           v ← conv i; Ok (<[name := wrap v]> stats)) base fields
  = Ok (fold_left (fun stats '(i, name) => <[name := wrap (read i)]> stats)
          fields base).
Proof.
  intros Hconv. revert base.
  induction fields as [|[i name] fields IH]; intros base; [reflexivity|].
  rewrite foldM_cons. cbn beta iota. rewrite Hconv, !bind_ok. apply IH.
Qed.

Lemma player_basic_stats_ok (cells : row) (game_id team player_name : string) :
  exists stats,
    player_basic_stats cells game_id team player_name = Ok stats /\
    stats !! "game_id" = Some (SStr game_id) /\
    stats !! "team" = Some (SStr team) /\
    stats !! "player_name" = Some (SStr player_name) /\
    stats !! "mp" = Some (SStr (default "0" (cells !! 1%nat))) /\
    (forall i name, (i, name) ∈ int_fields ->
       stats !! name = Some (SInt (coerce_int (default "" (cells !! i))))) /\
    (forall i name, (i, name) ∈ float_fields ->
       exists f, stats !! name = Some (SFloat f) /\
         _safe_float (Cell (default "" (cells !! i))) = Ok f) /\
    construct PlayerGameStats stats = Ok stats.
Proof.
  set (fl := fun i => match cell_or cells i _safe_float float_zero with
                      | Ok f => f
                      | Raise _ => float_zero
                      end).
  assert (forall i, cell_or cells i _safe_float float_zero = Ok (fl i)) as Hfl.
  { intros i. unfold fl. by destruct (cell_or_float cells i) as (f & -> & _). }
  assert (forall i, _safe_float (Cell (default "" (cells !! i))) = Ok (fl i))
    as Hfl'.
  { intros i. destruct (cell_or_float cells i) as (f & Hf & Hf').
    rewrite Hfl in Hf. injection Hf as ->. exact Hf'. }
  unfold player_basic_stats.
  rewrite (foldM_fields (fun i => cell_or cells i _safe_int 0) SInt
             (fun i => coerce_int (default "" (cells !! i))))
    by apply cell_or_int.
  rewrite bind_ok.
  rewrite (foldM_fields (fun i => cell_or cells i _safe_float float_zero) SFloat fl)
    by exact Hfl.
  eexists. split; [reflexivity|].
  cbn [fold_left int_fields float_fields].
  split; [reflexivity|]. split; [reflexivity|]. split; [reflexivity|].
  split; [reflexivity|]. split; [|split].
  - intros i name Hin. unfold int_fields in Hin.
    repeat (apply elem_of_cons in Hin as [Hin|Hin];
            [injection Hin as -> ->; reflexivity|]).
    by apply elem_of_nil in Hin.
  - intros i name Hin. unfold float_fields in Hin. exists (fl i).
    split; [|apply Hfl'].
    repeat (apply elem_of_cons in Hin as [Hin|Hin];
            [injection Hin as -> ->; reflexivity|]).
    by apply elem_of_nil in Hin.
  - unfold construct.
    rewrite !bool_decide_eq_true_2; [reflexivity| |];
      repeat (apply map_Forall_insert_2; [reflexivity|]);
      apply map_Forall_empty.
Qed.

Lemma scraper_row_some (cells : row) (game_id team : string)
    (stats : gmap string scalar) :
  Scraper._parse_player_row cells game_id team = Some stats ->
  stats !! "game_id" = Some (SStr game_id) /\
  stats !! "team" = Some (SStr team) /\
  construct PlayerGameStats stats = Ok stats.
Proof.
  unfold Scraper._parse_player_row.
  destruct (length cells <? 10)%nat; [discriminate|]. cbv zeta.
  destruct (_ || _); [discriminate|].
  destruct (player_basic_stats_ok cells game_id team (default "" (head cells)))
    as (stats' & -> & H1 & H2 & _ & _ & _ & _ & H3).
  cbn. intros [= <-]. auto.
Qed.

Lemma scraper_row_origin (cells : row) (game_id team : string)
    (stats : gmap string scalar) :
  Scraper._parse_player_row cells game_id team = Some stats ->
  (10 <= length cells)%nat /\
  stats !! "player_name" = Some (SStr (default "" (head cells))).
Proof.
  unfold Scraper._parse_player_row.
  destruct (Nat.ltb_spec (length cells) 10); [discriminate|]. cbv zeta.
  destruct (_ || _); [discriminate|].
  destruct (player_basic_stats_ok cells game_id team (default "" (head cells)))
    as (stats' & -> & _ & _ & H3 & _).
  cbn. intros [= <-]. auto.
Qed.

(** A row of at least ten cells whose first cell is a player's name gives
    a record with that name. *)
Lemma scraped_player_row_stored (cells : row) (game_id team : string) :
  (10 <= length cells)%nat ->
  default "" (head cells) ∉ [""; "Reserves"; "Team Totals"] ->
  exists stats,
    Scraper._parse_player_row cells game_id team = Some stats /\
    stats !! "player_name" = Some (SStr (default "" (head cells))).
Proof.
  intros Hlen Hname.
  destruct (player_basic_stats_ok cells game_id team
              (default "" (head cells))) as (stats & Hstats & _ & _ & H3 & _).
  exists stats. split; [|exact H3].
  unfold Scraper._parse_player_row.
  rewrite (proj2 (Nat.ltb_ge _ _) Hlen). cbv zeta.
  assert (String.eqb (default "" (head cells)) ""
          || String.eqb (default "" (head cells)) "Reserves"
          || String.eqb (default "" (head cells)) "Team Totals" = false) as ->.
  { apply orb_false_iff. split; [apply orb_false_iff; split|];
      apply String.eqb_neq; intros E; apply Hname; rewrite E; in_list. }
  by rewrite Hstats.
Qed.

End ScraperPlayers.

(** X11. A player row read by the scrapers can be stored. For a row of at
    least ten cells whose first cell is a player's name, the scrapers'
    [_parse_player_row] returns a mapping in which every integer field is
    the integer its cell holds (0 for a cell that is missing, empty or not
    a number), every percentage is [_safe_float] of its cell, [mp] is the
    text of the second cell, and which the [PlayerGameStats] constructor
    takes as it is: here the coercion helpers receive the cells. *)
Theorem scraped_player_row_can_be_stored `{FM : FloatModel} (cells : row)
    (game_id team : string) :
  (forall text e, py_float text = Raise e -> e = ValueError) ->
  (10 <= length cells)%nat ->
  default "" (head cells) ∉ [""; "Reserves"; "Team Totals"] ->
  exists stats,
    Scraper._parse_player_row cells game_id team = Some stats /\
    stats !! "game_id" = Some (SStr game_id) /\
    stats !! "team" = Some (SStr team) /\
    stats !! "player_name" = Some (SStr (default "" (head cells))) /\
    stats !! "mp" = Some (SStr (default "0" (cells !! 1%nat))) /\
    (forall i name, (i, name) ∈ int_fields ->
       stats !! name = Some (SInt (coerce_int (default "" (cells !! i))))) /\
    (forall i name, (i, name) ∈ float_fields ->
       exists f, stats !! name = Some (SFloat f) /\
         _safe_float (Cell (default "" (cells !! i))) = Ok f) /\
    construct PlayerGameStats stats = Ok stats.
Proof.
  intros Hfloat Hlen Hname.
  destruct (player_basic_stats_ok Hfloat cells game_id team
              (default "" (head cells))) as (stats & Hstats & Hrest).
  exists stats. split; [|exact Hrest].
  unfold Scraper._parse_player_row.
  rewrite (proj2 (Nat.ltb_ge _ _) Hlen). cbv zeta.
  assert (String.eqb (default "" (head cells)) ""
          || String.eqb (default "" (head cells)) "Reserves"
          || String.eqb (default "" (head cells)) "Team Totals" = false) as ->.
  { apply orb_false_iff. split; [apply orb_false_iff; split|];
      apply String.eqb_neq; intros E; apply Hname; rewrite E; in_list. }
  by rewrite Hstats.
Qed.

Lemma dec_float_raises (text : string) (e : exn) :
  dec_float text = Raise e -> e = ValueError.
Proof.
  unfold dec_float.
  destruct (match strip (list_ascii_of_string text) with [] => None | _ => _ end);
    [discriminate|by intros [= <-]].
Qed.

Lemma scraped_player_row_can_be_stored_witness :
  let cells := ["B"; "20:00"; "9"; "15"; ".600"; "1"; "3"; ".333"; "6"; "7";
                ".857"; "1"; "2"; "3"; "4"; "1"; "0"; "2"; "3"; "25"; "-2"] in
  exists stats,
    Scraper._parse_player_row cells "202310240BOS" "home" = Some stats /\
    stats !! "game_id" = Some (SStr "202310240BOS") /\
    stats !! "team" = Some (SStr "home") /\
    stats !! "player_name" = Some (SStr (default "" (head cells))) /\
    stats !! "mp" = Some (SStr (default "0" (cells !! 1%nat))) /\
    (forall i name, (i, name) ∈ int_fields ->
       stats !! name = Some (SInt (coerce_int (default "" (cells !! i))))) /\
    (forall i name, (i, name) ∈ float_fields ->
       exists f, stats !! name = Some (SFloat f) /\
         _safe_float (Cell (default "" (cells !! i))) = Ok f) /\
    construct PlayerGameStats stats = Ok stats.
Proof.
  apply (scraped_player_row_can_be_stored
           ["B"; "20:00"; "9"; "15"; ".600"; "1"; "3"; ".333"; "6"; "7";
            ".857"; "1"; "2"; "3"; "4"; "1"; "0"; "2"; "3"; "25"; "-2"]
           "202310240BOS" "home").
  - exact dec_float_raises.
  - simpl. lia.
  - cbn. intros Hin.
    repeat (apply elem_of_cons in Hin as [Hin|Hin]; [discriminate|]).
    by apply elem_of_nil in Hin.
Defined.

(** X12. The player records the scrapers' [_parse_player_stats] returns
    are the records of the home table followed by the records of the away
    table, a missing table giving none. A record read from the table of a
    side carries the game identifier, that side as its team and the name
    in the first cell of one of the rows between the header and the totals
    row of that table, and is a mapping the [PlayerGameStats] constructor
    takes; every such row of at least ten cells whose first cell is a
    player's name gives a record, and a table gives no more records than
    it has such rows. *)
Theorem scraped_player_records_can_be_stored `{FM : FloatModel} (doc : soup)
    (game_id : string) :
  (forall text e, py_float text = Raise e -> e = ValueError) ->
  let rows_of (team : string) : list row :=
    inner_rows (default [] (find_table doc ("box-" +:+ team +:+ "-game-basic"))) in
  let records_of (team : string) : list (gmap string scalar) :=
    omap (fun cells : row => Scraper._parse_player_row cells game_id team)
      (rows_of team) in
  Scraper._parse_player_stats doc game_id
    = (records_of "home" ++ records_of "away")%list /\
  forall team : string,
    (length (records_of team) <= length (rows_of team))%nat /\
    (forall player_stat, player_stat ∈ records_of team ->
       player_stat !! "game_id" = Some (SStr game_id) /\
       player_stat !! "team" = Some (SStr team) /\
       (exists cells,
          cells ∈ rows_of team /\ (10 <= length cells)%nat /\
          player_stat !! "player_name"
            = Some (SStr (default "" (head cells)))) /\
       construct PlayerGameStats player_stat = Ok player_stat) /\
    (forall cells,
       cells ∈ rows_of team -> (10 <= length cells)%nat ->
       default "" (head cells) ∉ [""; "Reserves"; "Team Totals"] ->
       exists player_stat,
         player_stat ∈ records_of team /\
         player_stat !! "player_name"
           = Some (SStr (default "" (head cells)))).
Proof.
  intros Hfloat. cbv zeta. split.
  - unfold Scraper._parse_player_stats. cbn [omap list_omap].
    destruct (find_table doc ("box-" +:+ "home" +:+ "-game-basic")) as [h|],
             (find_table doc ("box-" +:+ "away" +:+ "-game-basic")) as [a|];
      cbn [mjoin list_join from_option id default app omap list_omap inner_rows
           tl removelast];
      by rewrite ?app_nil_r.
  - intros team.
    set (rows := inner_rows (default [] (find_table doc _))).
    split; [|split].
    + induction rows as [|c rows IH]; [simpl; lia|].
      cbn [omap list_omap].
      destruct (Scraper._parse_player_row c game_id team); simpl in *; lia.
    + intros p Hp. apply list_elem_of_omap in Hp as (cells & Hin & Hp).
      destruct (scraper_row_some Hfloat _ _ _ _ Hp) as (H1 & H2 & H3).
      destruct (scraper_row_origin Hfloat _ _ _ _ Hp) as (H4 & H5).
      split; [exact H1|]. split; [exact H2|]. split; [|exact H3].
      exists cells. auto.
    + intros cells Hin Hlen Hname.
      destruct (scraped_player_row_stored Hfloat cells game_id team Hlen Hname)
        as (stats & Hrow & Hn).
      exists stats. split; [|exact Hn].
      apply list_elem_of_omap. eauto.
Qed.

Lemma scraped_player_records_can_be_stored_witness :
  let records := Scraper._parse_player_stats doc_both "202310240BOS" in
  length records = 4%nat /\
  ((fun player_stat : gmap string scalar =>
      (player_stat !! "player_name", player_stat !! "team")) <$> records)
  = [ (Some (SStr "A"), Some (SStr "home"));
      (Some (SStr "B"), Some (SStr "home"));
      (Some (SStr "C"), Some (SStr "home"));
      (Some (SStr "D"), Some (SStr "away")) ] /\
  Forall (fun player_stat =>
            player_stat !! "game_id" = Some (SStr "202310240BOS") /\
            construct PlayerGameStats player_stat = Ok player_stat) records.
Proof.
  intros records.
  destruct (scraped_player_records_can_be_stored (FM := decimal_floats)
              doc_both "202310240BOS" dec_float_raises) as [Hall Hside].
  fold records in Hall.
  split; [by rewrite Hall|]. split; [by rewrite Hall|].
  rewrite Hall. apply Forall_app. split; apply Forall_forall; intros p Hp.
  - destruct (Hside "home") as (_ & Hrec & _).
    destruct (Hrec p Hp) as (H1 & _ & _ & H4). auto.
  - destruct (Hside "away") as (_ & Hrec & _).
    destruct (Hrec p Hp) as (H1 & _ & _ & H4). auto.
Defined.

(** ** Standings *)

Section StandingsFacts.
Import DatabaseManager.

Abbreviation no_game := (Standing 0 0 0 0).

Lemma record_side_lookup (team : string) (won : bool) (scored conceded : Z)
    (table : gmap string standing) (k : string) :
  record_side team won scored conceded table !! k =
  if decide (k = team)
  then Some (Standing
               (if won then wins (default no_game (table !! team)) + 1
                else wins (default no_game (table !! team)))
               (if won then losses (default no_game (table !! team))
                else losses (default no_game (table !! team)) + 1)
               (points_for (default no_game (table !! team)) + scored)
               (points_against (default no_game (table !! team)) + conceded))
  else table !! k.
Proof.
  unfold record_side. cbv zeta. case_decide as E.
  - subst k. by rewrite lookup_insert_eq.
  - by rewrite lookup_insert_ne.
Qed.

Lemma column_total_insert (column : standing -> Z)
    (table : gmap string standing) (k : string) (v : standing) :
  column no_game = 0 ->
  column_total column (<[k := v]> table)
  = column_total column table - column (default no_game (table !! k)) + column v.
Proof.
  intros Hzero. unfold column_total.
  assert (forall (m : gmap string standing) x, m !! k = None ->
            map_fold (fun _ stats acc => column stats + acc) 0 (<[k := x]> m)
            = column x + map_fold (fun _ stats acc => column stats + acc) 0 m)
    as Hfresh.
  { intros m x Hm. rewrite map_fold_insert_L; [reflexivity| |exact Hm].
    intros; lia. }
  destruct (table !! k) as [v0|] eqn:Hk; cbn [from_option id].
  - rewrite <- (insert_delete_eq table k v).
    rewrite <- (insert_delete_id table k v0 Hk) at 2.
    rewrite !Hfresh by apply lookup_delete_eq. lia.
  - rewrite Hfresh by exact Hk. lia.
Qed.

Lemma column_total_record_game (table : gmap string standing) (game : game_row) :
  column_total wins (record_game table game) = column_total wins table + 1 /\
  column_total losses (record_game table game) = column_total losses table + 1 /\
  column_total points_for (record_game table game)
    = column_total points_for table + (home_score game + away_score game) /\
  column_total points_against (record_game table game)
    = column_total points_against table + (home_score game + away_score game).
Proof.
  unfold record_game, record_side. cbv zeta.
  rewrite !column_total_insert by reflexivity. cbn [wins losses points_for points_against].
  destruct (home_won game); cbn [negb]; repeat split; lia.
Qed.

Lemma standings_totals (games : list game_row) (table : gmap string standing) :
  let table' := fold_left record_game games table in
  column_total wins table' = column_total wins table + Z.of_nat (length games) /\
  column_total losses table' = column_total losses table + Z.of_nat (length games) /\
  column_total points_for table'
    = column_total points_for table
      + fold_right (fun game acc => home_score game + away_score game + acc) 0 games /\
  column_total points_against table'
    = column_total points_against table
      + fold_right (fun game acc => home_score game + away_score game + acc) 0 games.
Proof.
  revert table. induction games as [|game games IH]; intros table.
  - cbn. repeat split; lia.
  - cbn [fold_left fold_right length]. cbv zeta in *.
    destruct (IH (record_game table game)) as (-> & -> & -> & ->).
    destruct (column_total_record_game table game) as (-> & -> & -> & ->).
    repeat split; lia.
Qed.

Lemma appearances_cons (team : string) (game : game_row) (games : list game_row) :
  appearances team (game :: games)
  = (if decide (home_team game = team) then 1 else 0)
    + (if decide (away_team game = team) then 1 else 0)
    + appearances team games.
Proof.
  unfold appearances. rewrite !filter_cons.
  destruct (decide (home_team game = team)), (decide (away_team game = team));
    cbn [length]; lia.
Qed.

Lemma appearances_nonneg (team : string) (games : list game_row) :
  0 <= appearances team games.
Proof. unfold appearances. lia. Qed.

Lemma record_game_team (team : string) (game : game_row)
    (table : gmap string standing) :
  let before := default no_game (table !! team) in
  let after := default no_game (record_game table game !! team) in
  let at_home := if decide (home_team game = team) then 1 else 0 in
  let away := if decide (away_team game = team) then 1 else 0 in
  (is_Some (record_game table game !! team) <->
   is_Some (table !! team) \/ 0 < at_home + away) /\
  wins after = wins before
               + (if home_won game then at_home else away) /\
  losses after = losses before
                 + (if home_won game then away else at_home).
Proof.
  cbv zeta. unfold record_game. rewrite !record_side_lookup.
  destruct (decide (team = away_team game)) as [Ea|Ea].
  - subst team. rewrite (decide_True (P := away_team game = away_team game)) by done.
    destruct (decide (away_team game = home_team game)) as [Eh|Eh].
    + rewrite <- Eh. rewrite (decide_True (P := away_team game = away_team game)) by done.
      cbn [from_option id wins losses].
      destruct (home_won game); cbn [negb];
        (split; [split; [intros _; right; lia|eauto]|split; lia]).
    + rewrite (decide_False (P := home_team game = away_team game)) by congruence.
      cbn [from_option id wins losses].
      destruct (home_won game); cbn [negb];
        (split; [split; [intros _; right; lia|eauto]|split; lia]).
  - rewrite (decide_False (P := away_team game = team)) by congruence.
    destruct (decide (team = home_team game)) as [Eh|Eh].
    + subst team. rewrite (decide_True (P := home_team game = home_team game)) by done.
      cbn [from_option id wins losses].
      destruct (home_won game);
        (split; [split; [intros _; right; lia|eauto]|split; lia]).
    + rewrite (decide_False (P := home_team game = team)) by congruence.
      split; [|split; destruct (home_won game); lia].
      split; [by left|]. intros [H|H]; [exact H|lia].
Qed.

(** What the loop leaves under a team, from what it found there. *)
Lemma standings_of_team (team : string) (games : list game_row)
    (table : gmap string standing) :
  let before := default no_game (table !! team) in
  let table' := fold_left record_game games table in
  let after := default no_game (table' !! team) in
  (is_Some (table' !! team) <->
   is_Some (table !! team) \/ 0 < appearances team games) /\
  wins before <= wins after /\ losses before <= losses after /\
  wins after + losses after
    = wins before + losses before + appearances team games.
Proof.
  revert table. induction games as [|game games IH]; intros table.
  - cbn. unfold appearances. cbn. repeat split; try lia; [tauto|].
    intros [H|H]; [exact H|lia].
  - cbn [fold_left]. cbv zeta in *. rewrite appearances_cons.
    pose proof (appearances_nonneg team games) as Hpos.
    destruct (IH (record_game table game)) as (Hin & Hw & Hl & Hsum).
    destruct (record_game_team team game table) as (Hin1 & Hw1 & Hl1).
    cbv zeta in *. rewrite Hin, Hin1. clear IH Hin Hin1.
    destruct (decide (home_team game = team)), (decide (away_team game = team)),
             (home_won game);
      (split; [split; [intros [[H|H]|H]; [by left|right; lia|right; lia]
                      |intros [H|H]; [by left; left|
                                      first [left; right; lia|right; lia]]]
              |repeat split; lia]).
Qed.

Lemma standings_membership (games : list game_row) (year : Z) (team : string) :
  is_Some (standings games year !! team)
  <-> 0 < appearances team (games_of_season games year).
Proof.
  unfold standings.
  destruct (standings_of_team team (games_of_season games year) ∅)
    as (Hin & _). cbv zeta in Hin. rewrite Hin, lookup_empty.
  split; [intros [[? H]|H]; [discriminate|exact H]|auto].
Qed.

(** X13. The standings count every game of the season once as a win and
    once as a loss, and every point once as scored and once as conceded:
    over the teams, the wins add up to the number of games of the season,
    and so do the losses; the points scored add up to the points conceded,
    both being the sum of the two scores of every game. *)
Theorem standings_count_each_game_both_ways (games : list game_row) (year : Z) :
  let table := standings games year in
  let played := games_of_season games year in
  column_total wins table = Z.of_nat (length played) /\
  column_total losses table = Z.of_nat (length played) /\
  column_total points_for table = column_total points_against table /\
  column_total points_for table
    = fold_right (fun game acc => home_score game + away_score game + acc) 0
        played.
Proof.
  cbv zeta. unfold standings.
  destruct (standings_totals (games_of_season games year) ∅)
    as (Hw & Hl & Hf & Ha).
  cbv zeta in *. rewrite Hw, Hl, Hf, Ha.
  unfold column_total. rewrite !map_fold_empty. repeat split; lia.
Qed.

(** X14. The standings hold exactly the teams that played in the season,
    at home or away. For such a team neither count is negative and wins
    and losses add up to the number of its appearances, which is at least
    one: the guard of [win_pct] is never false, the quotient is the share
    of wins, and it lies between 0 and 1. *)
Theorem standings_hold_the_teams_that_played (games : list game_row)
    (year : Z) (team : string) :
  let table := standings games year in
  let played := games_of_season games year in
  (is_Some (table !! team) <-> 0 < appearances team played) /\
  forall stats, table !! team = Some stats ->
    0 <= wins stats /\ 0 <= losses stats /\
    wins stats + losses stats = appearances team played /\
    0 < wins stats + losses stats /\
    win_pct (row_of stats)
      = Qmake (wins stats) (Z.to_pos (wins stats + losses stats)) /\
    (0 <= win_pct (row_of stats) <= 1)%Q.
Proof.
  cbv zeta. unfold standings.
  destruct (standings_of_team team (games_of_season games year) ∅)
    as (Hin & Hw & Hl & Hsum).
  cbv zeta in *. rewrite lookup_empty in *. cbn [from_option id wins losses] in *.
  split; [apply standings_membership|].
  - intros stats Hstats.
    assert (0 < appearances team (games_of_season games year)) as Hpos.
    { apply proj1 in Hin. destruct Hin as [[? H]|H]; [eauto|discriminate|exact H]. }
    rewrite Hstats in *. cbn [from_option id] in *.
    assert (0 < wins stats + losses stats) as Hplayed by lia.
    split; [lia|]. split; [lia|]. split; [lia|]. split; [exact Hplayed|].
    unfold row_of. cbn [win_pct].
    rewrite (proj2 (Z.ltb_lt _ _) Hplayed).
    split; [reflexivity|].
    unfold Qle. cbn [Qnum Qden]. rewrite Z2Pos.id by exact Hplayed. lia.
Qed.

(** X15. For a season without a stored game [get_team_standings] does not
    return an empty table: the frame it sorts has no column, and the
    method raises [KeyError]. For any other season it returns one row per
    team that played, whose [point_diff] is the difference of its
    points. *)
Theorem standings_of_a_season_without_games_raise (games : list game_row)
    (year : Z) :
  let played := games_of_season games year in
  (played = [] <-> get_team_standings games year = Raise KeyError) /\
  (played <> [] ->
   exists rows,
     get_team_standings games year = Ok rows /\
     (forall team, is_Some (rows !! team) <-> 0 < appearances team played) /\
     (forall team r, rows !! team = Some r ->
        point_diff r = row_points_for r - row_points_against r)).
Proof.
  cbv zeta. unfold get_team_standings. cbv zeta.
  destruct (games_of_season games year) as [|game played] eqn:Hplayed.
  - split; [|intros H; by destruct H].
    unfold standings. rewrite Hplayed. cbn [fold_left].
    rewrite fmap_empty, decide_True by reflexivity. tauto.
  - assert (row_of <$> standings games year <> ∅) as Hne.
    { intros E. apply fmap_empty_inv in E.
      pose proof (standings_membership games year (home_team game)) as Hin.
      rewrite E, Hplayed, lookup_empty in Hin.
      destruct (proj2 Hin) as [? H]; [|discriminate].
      rewrite appearances_cons, decide_True by reflexivity.
      pose proof (appearances_nonneg (home_team game) played).
      destruct (decide (away_team game = home_team game)); lia. }
    rewrite decide_False by exact Hne.
    split; [split; discriminate|]. intros _.
    exists (row_of <$> standings games year). split; [reflexivity|].
    split.
    + intros team. rewrite lookup_fmap, fmap_is_Some, <- Hplayed.
      apply standings_membership.
    + intros team r. rewrite lookup_fmap.
      destruct (standings games year !! team) as [stats|]; [|discriminate].
      cbn. by intros [= <-].
Qed.

End StandingsFacts.

(** ** Dates read off an identifier *)

Lemma is_digit_code (c : ascii) :
  is_digit c = true -> 48 <= code c <= 57.
Proof. unfold is_digit. intros H. apply andb_true_iff in H as [H1 H2]. lia. Qed.

Lemma digit_val_range (c : ascii) : is_digit c = true -> 0 <= digit_val c <= 9.
Proof. intros H. apply is_digit_code in H. unfold digit_val. lia. Qed.

Lemma is_digit_not_space (c : ascii) : is_digit c = true -> is_space c = false.
Proof.
  intros H. apply is_digit_code in H. unfold is_space.
  apply orb_false_iff. split; [lia|apply andb_false_iff; lia].
Qed.

Lemma lstrip_digits (l : list ascii) :
  forallb is_digit (take 1 l) = true -> lstrip l = l.
Proof.
  destruct l as [|c l]; [reflexivity|]. cbn.
  rewrite andb_true_r. intros H. by rewrite (is_digit_not_space c H).
Qed.

Lemma forallb_is_digit_rev (l : list ascii) :
  forallb is_digit l = true -> forallb is_digit (rev l) = true.
Proof.
  rewrite !forallb_forall. intros H c Hc. apply H. by apply in_rev.
Qed.

Lemma forallb_take {A} (f : A -> bool) (n : nat) (l : list A) :
  forallb f l = true -> forallb f (take n l) = true.
Proof.
  revert n. induction l as [|a l IH]; intros [|n]; try reflexivity.
  cbn. intros H. apply andb_true_iff in H as [Ha Hl].
  rewrite Ha. by apply IH.
Qed.

Lemma strip_digits (l : list ascii) : forallb is_digit l = true -> strip l = l.
Proof.
  intros H. unfold strip.
  rewrite (lstrip_digits l) by (by apply forallb_take).
  rewrite lstrip_digits
    by (apply forallb_take; by apply forallb_is_digit_rev).
  apply rev_involutive.
Qed.

Lemma digits_val_digits (l : list ascii) (acc : Z) (after_digit : bool) :
  forallb is_digit l = true ->
  l <> [] \/ after_digit = true ->
  digits_val acc after_digit l = Some (digits_num acc l).
Proof.
  revert acc after_digit. induction l as [|c l IH]; intros acc b Hl Hne.
  - destruct Hne as [Hne| ->]; [done|reflexivity].
  - cbn in Hl. apply andb_true_iff in Hl as [Hc Hl].
    cbn [digits_val digits_num]. rewrite Hc. apply IH; auto.
Qed.

(** [int()] of a text made of digits is the number the digits spell. *)
Lemma py_int_digits (l : list ascii) :
  l <> [] -> forallb is_digit l = true ->
  py_int (string_of_list_ascii l) = Ok (digits_num 0 l).
Proof.
  intros Hne Hl. unfold py_int.
  rewrite list_ascii_of_string_of_list_ascii, (strip_digits l Hl).
  destruct l as [|c l]; [done|].
  pose proof Hl as Hc. cbn in Hc. apply andb_true_iff in Hc as [Hc _].
  apply is_digit_code in Hc.
  rewrite (proj2 (Z.eqb_neq (code c) 45)) by lia.
  rewrite (proj2 (Z.eqb_neq (code c) 43)) by lia.
  rewrite digits_val_digits by auto. reflexivity.
Qed.

(** The ten digits. *)
Lemma is_digit_cases (c : ascii) :
  is_digit c = true ->
  In c (list_ascii_of_string "0123456789").
Proof.
  destruct c as [[] [] [] [] [] [] [] []]; intros H; vm_compute in H;
    try discriminate H; cbn; tauto.
Qed.

(** Month and day after the year, for four digits: the pattern matches
    them all exactly when the first two spell a month and the last two a
    day between 1 and 31; checked for every four digits. *)
Lemma month_day_of_four_digits (m1 m2 d1 d2 : ascii) :
  is_digit m1 = true -> is_digit m2 = true ->
  is_digit d1 = true -> is_digit d2 = true ->
  let m := 10 * digit_val m1 + digit_val m2 in
  let d := 10 * digit_val d1 + digit_val d2 in
  let found :=
    first_alt month_alts
      (fun m r => first_alt day_alts (fun d r' => Some (m, d, r')) r)
      [m1; m2; d1; d2] in
  if (1 <=? m) && (m <=? 12) && (1 <=? d) && (d <=? 31)
  then found = Some (m, d, [])
  else match found with Some (_, _, []) => False | _ => True end.
Proof.
  intros H1 H2 H3 H4.
  set (check := fun m1 m2 d1 d2 : ascii =>
    let m := 10 * digit_val m1 + digit_val m2 in
    let d := 10 * digit_val d1 + digit_val d2 in
    let found :=
      first_alt month_alts
        (fun m r => first_alt day_alts (fun d r' => Some (m, d, r')) r)
        [m1; m2; d1; d2] in
    if (1 <=? m) && (m <=? 12) && (1 <=? d) && (d <=? 31)
    then bool_decide (found = Some (m, d, []))
    else match found with Some (_, _, []) => false | _ => true end).
  assert (forallb (fun m1 => forallb (fun m2 => forallb (fun d1 =>
            forallb (fun d2 => check m1 m2 d1 d2)
              (list_ascii_of_string "0123456789"))
              (list_ascii_of_string "0123456789"))
              (list_ascii_of_string "0123456789"))
              (list_ascii_of_string "0123456789") = true) as Hall
    by (vm_compute; reflexivity).
  rewrite forallb_forall in Hall.
  specialize (Hall m1 (is_digit_cases m1 H1)). rewrite forallb_forall in Hall.
  specialize (Hall m2 (is_digit_cases m2 H2)). rewrite forallb_forall in Hall.
  specialize (Hall d1 (is_digit_cases d1 H3)). rewrite forallb_forall in Hall.
  specialize (Hall d2 (is_digit_cases d2 H4)).
  subst check. cbv beta zeta in *.
  destruct ((1 <=? 10 * digit_val m1 + digit_val m2)
            && (10 * digit_val m1 + digit_val m2 <=? 12)
            && (1 <=? 10 * digit_val d1 + digit_val d2)
            && (10 * digit_val d1 + digit_val d2 <=? 31)).
  - by apply bool_decide_eq_true in Hall.
  - destruct (first_alt _ _ _) as [[[m d] [|? ?]]|]; try exact I.
    discriminate Hall.
Qed.

Lemma days_in_month_le (y m : Z) : days_in_month y m <= 31.
Proof.
  unfold days_in_month.
  destruct (m =? 2); [destruct (is_leap y); lia|].
  destruct (_ || _); lia.
Qed.

(** Eight digits are read alike by [strptime] with the format [%Y%m%d]
    and by [datetime] applied to the numbers they spell. *)
Lemma strptime_of_eight_digits (y1 y2 y3 y4 m1 m2 d1 d2 : ascii) :
  forallb is_digit [y1; y2; y3; y4; m1; m2; d1; d2] = true ->
  strptime_Ymd (string_of_list_ascii [y1; y2; y3; y4; m1; m2; d1; d2])
  = datetime (digits_num 0 [y1; y2; y3; y4]) (digits_num 0 [m1; m2])
      (digits_num 0 [d1; d2]).
Proof.
  intros H. cbn in H.
  repeat (apply andb_true_iff in H as [? H]).
  unfold strptime_Ymd. rewrite list_ascii_of_string_of_list_ascii.
  repeat match goal with E : is_digit _ = true |- _ => rewrite E end.
  cbn [andb].
  pose proof (month_day_of_four_digits m1 m2 d1 d2) as Hmd.
  cbv zeta in Hmd. repeat (specialize (Hmd ltac:(assumption))).
  assert (digits_num 0 [m1; m2] = 10 * digit_val m1 + digit_val m2) as ->
    by (cbn; lia).
  assert (digits_num 0 [d1; d2] = 10 * digit_val d1 + digit_val d2) as ->
    by (cbn; lia).
  assert (digits_num 0 [y1; y2; y3; y4] <= 9999) as Hy.
  { repeat match goal with E : is_digit _ = true |- _ =>
      apply digit_val_range in E end. cbn. lia. }
  set (y := digits_num 0 [y1; y2; y3; y4]) in *.
  set (m := 10 * digit_val m1 + digit_val m2) in *.
  set (d := 10 * digit_val d1 + digit_val d2) in *.
  pose proof (days_in_month_le y m) as Hdim.
  unfold datetime. rewrite (proj2 (Z.leb_le y 9999) Hy), andb_true_r.
  destruct ((1 <=? m) && (m <=? 12) && (1 <=? d) && (d <=? 31)) eqn:Hvalid.
  - rewrite Hmd.
    apply andb_true_iff in Hvalid as [Hvalid _].
    apply andb_true_iff in Hvalid as [Hvalid Hd1].
    apply andb_true_iff in Hvalid as [Hm1 Hm2].
    rewrite Hm1, Hm2, Hd1, !andb_true_r. reflexivity.
  - assert ((1 <=? y) && (1 <=? m) && (m <=? 12) && (1 <=? d)
            && (d <=? days_in_month y m) = false) as ->.
    { destruct (Z.leb_spec 1 m), (Z.leb_spec m 12), (Z.leb_spec 1 d),
        (Z.leb_spec d 31); try discriminate Hvalid;
        rewrite ?andb_false_r; try reflexivity.
      rewrite (proj2 (Z.leb_gt d (days_in_month y m))) by lia.
      apply andb_false_r. }
    destruct (first_alt _ _ _) as [[[m' d'] [|? ?]]|]; try reflexivity.
    destruct Hmd.
Qed.

Lemma re_search_head {A} (match_at : list ascii -> option A)
    (text : list ascii) (m : A) :
  match_at text = Some m -> re_search match_at text = Some m.
Proof. intros H. destruct text; cbn; by rewrite H. Qed.

Section DatedIdentifiers.
Context `{FM : FloatModel}.
Variable now : date.

Lemma date_pattern_Some (text : list ascii) :
  is_Some (date_pattern text) ->
  exists y1 y2 y3 y4 m1 m2 d1 d2 rest,
    text = y1 :: y2 :: y3 :: y4 :: m1 :: m2 :: d1 :: d2 :: rest /\
    forallb is_digit [y1; y2; y3; y4; m1; m2; d1; d2] = true.
Proof.
  unfold date_pattern. cbv zeta.
  destruct text as [|y1 [|y2 [|y3 [|y4 [|m1 [|m2 [|d1 [|d2 rest]]]]]]]];
    try (intros [? H]; discriminate H).
  cbn [take length Nat.eqb andb].
  destruct (forallb is_digit _) eqn:E; [|intros [? H]; discriminate H].
  intros _. eauto 12.
Qed.

Lemma game_date_of_dated (game_id : string) :
  is_Some (date_pattern (list_ascii_of_string game_id)) ->
  Enhanced.game_date_of now game_id = strptime_Ymd (substring 0 8 game_id).
Proof.
  intros H. destruct (date_pattern_Some _ H)
    as (y1 & y2 & y3 & y4 & m1 & m2 & d1 & d2 & rest & Htext & Hd).
  assert (game_id = string_of_list_ascii
            (y1 :: y2 :: y3 :: y4 :: m1 :: m2 :: d1 :: d2 :: rest)) as ->
    by (by rewrite <- Htext, string_of_list_ascii_of_string).
  assert (substring 0 8 (string_of_list_ascii
            (y1 :: y2 :: y3 :: y4 :: m1 :: m2 :: d1 :: d2 :: rest))
          = string_of_list_ascii [y1; y2; y3; y4; m1; m2; d1; d2]) as ->
    by (cbn; by destruct (string_of_list_ascii rest)).
  rewrite (strptime_of_eight_digits _ _ _ _ _ _ _ _ Hd).
  unfold Enhanced.game_date_of.
  rewrite list_ascii_of_string_of_list_ascii.
  assert (re_search date_pattern
            (y1 :: y2 :: y3 :: y4 :: m1 :: m2 :: d1 :: d2 :: rest)
          = Some ([y1; y2; y3; y4], [m1; m2], [d1; d2])) as ->.
  { apply re_search_head. unfold date_pattern. cbv zeta.
    change (take 8 (y1 :: y2 :: y3 :: y4 :: m1 :: m2 :: d1 :: d2 :: rest))
      with [y1; y2; y3; y4; m1; m2; d1; d2].
    by rewrite Hd. }
  cbn in Hd. repeat (apply andb_true_iff in Hd as [? Hd]).
  rewrite !py_int_digits by (first [discriminate | cbn; by repeat
    match goal with E : is_digit _ = true |- _ => rewrite E end]).
  reflexivity.
Qed.

End DatedIdentifiers.

(** X16. The date of a game is read alike by the three parsers when the
    identifier starts with eight digits: [strptime] with the format
    [%Y%m%d] applied to the first eight characters, as the processor and
    [parse_date_from_filename] do, and [datetime] applied to the three
    groups of digits, as the enhanced scraper does, give the same date or
    fail together; and then the enhanced scraper's [_parse_basic_game_info]
    returns what the processor's returns, for every document and whatever
    the clock says. *)
Theorem assemblers_agree_on_dated_identifiers `{FM : FloatModel} (now : date)
    (doc : soup) (game_id : string) :
  is_Some (date_pattern (list_ascii_of_string game_id)) ->
  Enhanced.game_date_of now game_id = Scraper.parse_date_from_filename game_id /\
  Scraper.parse_date_from_filename game_id = strptime_Ymd (substring 0 8 game_id) /\
  Enhanced._parse_basic_game_info now doc game_id
    = _parse_basic_game_info doc game_id.
Proof.
  intros H. pose proof (game_date_of_dated now game_id H) as Hdate.
  split; [exact Hdate|]. split; [reflexivity|].
  unfold Enhanced._parse_basic_game_info, _parse_basic_game_info.
  rewrite Hdate. cbv zeta.
  destruct (find_table doc "line_score") as [tbl|];
    [|by destruct (strptime_Ymd (substring 0 8 game_id))].
  destruct (length (tl tbl) <? 2)%nat;
    [by destruct (strptime_Ymd (substring 0 8 game_id))|].
  destruct (foldM add_line ([], []) (tl tbl)) as [[teams scores]|];
    [|by destruct (strptime_Ymd (substring 0 8 game_id))].
  destruct teams as [|t1 [|t2 [|? ?]]], scores as [|s1 [|s2 [|? ?]]];
    by destruct (strptime_Ymd (substring 0 8 game_id)).
Qed.

Lemma assemblers_agree_on_dated_identifiers_witness :
  Enhanced.game_date_of (Date 2026 1 1) "202310240BOS"
    = Scraper.parse_date_from_filename "202310240BOS" /\
  Scraper.parse_date_from_filename "202310240BOS"
    = strptime_Ymd (substring 0 8 "202310240BOS") /\
  Enhanced._parse_basic_game_info (Date 2026 1 1) doc1 "202310240BOS"
    = _parse_basic_game_info doc1 "202310240BOS".
Proof.
  apply (assemblers_agree_on_dated_identifiers (Date 2026 1 1) doc1
           "202310240BOS").
  vm_compute. eauto.
Defined.

(** ** Identifiers read off an address *)

Lemma re_search_skip {A} (match_at : list ascii -> option A) (c : ascii)
    (text : list ascii) :
  match_at (c :: text) = None ->
  re_search match_at (c :: text) = re_search match_at text.
Proof. intros H. cbn [re_search]. by rewrite H. Qed.

(** X17. The address of a box score gives its identifier back. For an
    identifier of nine digits and three capital letters, the address
    [scrape_season_schedule] builds from the link [/boxscores/<id>.html] is
    read by [parse_game_id] as that identifier; the identifier starts with
    eight digits, so the enhanced scraper takes the date of the game from
    it and not from the clock. *)
Theorem parse_game_id_reads_the_identifier_back (id : list ascii) :
  length id = 12%nat ->
  forallb is_digit (take 9 id) = true ->
  forallb is_upper (drop 9 id) = true ->
  let url := BASE_URL +:+ "/boxscores/" +:+ string_of_list_ascii id +:+ ".html" in
  Scraper.parse_game_id url = string_of_list_ascii id /\
  is_Some (date_pattern (list_ascii_of_string (Scraper.parse_game_id url))).
Proof.
  intros Hlen Hdigits Hupper.
  destruct id as [|c1 [|c2 [|c3 [|c4 [|c5 [|c6 [|c7 [|c8 [|c9 [|c10 [|c11
    [|c12 [|? ?]]]]]]]]]]]]]; try discriminate Hlen.
  change (take 9 [c1; c2; c3; c4; c5; c6; c7; c8; c9; c10; c11; c12])
    with [c1; c2; c3; c4; c5; c6; c7; c8; c9] in Hdigits.
  change (drop 9 [c1; c2; c3; c4; c5; c6; c7; c8; c9; c10; c11; c12])
    with [c10; c11; c12] in Hupper.
  cbv zeta.
  assert (Scraper.parse_game_id
            (BASE_URL +:+ "/boxscores/"
               +:+ string_of_list_ascii
                     [c1; c2; c3; c4; c5; c6; c7; c8; c9; c10; c11; c12]
               +:+ ".html")
          = string_of_list_ascii
              [c1; c2; c3; c4; c5; c6; c7; c8; c9; c10; c11; c12]) as ->.
  { unfold Scraper.parse_game_id. cbv zeta.
    assert (re_search game_id_pattern
              (list_ascii_of_string
                 (BASE_URL +:+ "/boxscores/"
                    +:+ string_of_list_ascii
                          [c1; c2; c3; c4; c5; c6; c7; c8; c9; c10; c11; c12]
                    +:+ ".html"))
            = Some [c1; c2; c3; c4; c5; c6; c7; c8; c9; c10; c11; c12]) as ->;
      [|reflexivity].
    match goal with
    | |- re_search _ ?text = _ =>
        let text' := eval cbv in text in change text with text'
    end.
    repeat (rewrite re_search_skip by reflexivity).
    apply re_search_head. unfold game_id_pattern. cbv zeta.
    cbn [firstn skipn length Nat.eqb].
    rewrite Hdigits, Hupper. reflexivity. }
  split; [reflexivity|].
  rewrite list_ascii_of_string_of_list_ascii. unfold date_pattern. cbv zeta.
  pose proof (forallb_take is_digit 8 _ Hdigits) as Hdate.
  cbn [firstn skipn length Nat.eqb] in Hdate |- *.
  rewrite Hdate. cbn. eauto.
Qed.

Lemma parse_game_id_reads_the_identifier_back_witness :
  let url := BASE_URL +:+ "/boxscores/"
             +:+ string_of_list_ascii (list_ascii_of_string "202310240BOS")
             +:+ ".html" in
  Scraper.parse_game_id url
    = string_of_list_ascii (list_ascii_of_string "202310240BOS") /\
  is_Some (date_pattern (list_ascii_of_string (Scraper.parse_game_id url))).
Proof.
  apply (parse_game_id_reads_the_identifier_back
           (list_ascii_of_string "202310240BOS")); reflexivity.
Defined.

(** ** The scraper's assembler *)

(** X18. The scraper reads the line score as the processor does and dates
    the game otherwise. A record returned by the scraper's
    [_parse_basic_game_info] carries the identifier it was given; its date
    is the first [yyyy-mm-dd] found in the score box or, when the page has
    no score box or the box no such text, the day of the scraping, and its
    season is the season of that date; and for every file name that starts
    with a date the processor returns, from the same document, a record
    with the same teams, scores and outcome. *)
Theorem scraper_reads_the_line_score_alike `{FM : FloatModel}
    (scorebox : option string) (today : string) (doc : soup)
    (game_id : string) (record : gmap string pyval) :
  Scraper._parse_basic_game_info scorebox today doc game_id = Some record ->
  record !! "game_id" = Some (Scalar (SStr game_id)) /\
  (exists d,
     strptime_iso
       (match scorebox ≫= (fun date_text =>
                 re_search iso_date_pattern (list_ascii_of_string date_text)) with
        | Some group => string_of_list_ascii group
        | None => today
        end) = Ok d /\
     record !! "date" = Some (Scalar (SDate (year d) (month d) (day d))) /\
     record !! "season" = Some (Scalar (SInt (season_of d)))) /\
  forall stem d, strptime_Ymd (substring 0 8 stem) = Ok d ->
    exists record',
      _parse_basic_game_info doc stem = Some record' /\
      forall key, key ∈ ["home_team"; "away_team"; "home_score"; "away_score";
                         "home_won"] ->
        record' !! key = record !! key.
Proof.
  unfold Scraper._parse_basic_game_info.
  destruct (find_table doc "line_score") as [tbl|] eqn:Htbl; [|discriminate].
  cbv zeta. destruct (length (tl tbl) <? 2)%nat eqn:Hlen; [discriminate|].
  destruct (foldM add_line ([], []) (tl tbl)) as [[teams scores]|] eqn:Hfold;
    [|discriminate].
  rewrite bind_ok.
  destruct teams as [|t1 [|t2 [|? ?]]]; try discriminate;
    destruct scores as [|s1 [|s2 [|? ?]]]; try discriminate.
  assert (match scorebox with
          | Some date_text =>
              re_search iso_date_pattern (list_ascii_of_string date_text)
          | None => None
          end
          = scorebox ≫= (fun date_text =>
              re_search iso_date_pattern (list_ascii_of_string date_text))) as ->
    by (by destruct scorebox).
  destruct (strptime_iso _) as [d|] eqn:Hdate; [|discriminate].
  cbn. intros [= <-].
  split; [unfold game_info; by simplify_map_eq|]. split.
  - exists d. split; [reflexivity|]. unfold game_info. split; by simplify_map_eq.
  - intros stem d' Hd'. eexists. split.
    + by apply (_parse_basic_game_info_two_teams doc stem d' tbl t1 t2 s1 s2).
    + intros key Hkey. unfold game_info.
      repeat (apply elem_of_cons in Hkey as [->|Hkey]; [by simplify_map_eq|]).
      by apply elem_of_nil in Hkey.
Qed.

Lemma scraper_reads_the_line_score_alike_witness :
  let record := game_info "202310240BOS" (Date 2023 10 24) 2023 "BOS" "NYK"
                  108 104 true in
  record !! "game_id" = Some (Scalar (SStr "202310240BOS")) /\
  (exists d,
     strptime_iso
       (match Some "Tuesday 2023-10-24, TD Garden"
                ≫= (fun date_text =>
                 re_search iso_date_pattern (list_ascii_of_string date_text)) with
        | Some group => string_of_list_ascii group
        | None => "2026-01-01"
        end) = Ok d /\
     record !! "date" = Some (Scalar (SDate (year d) (month d) (day d))) /\
     record !! "season" = Some (Scalar (SInt (season_of d)))) /\
  forall stem d, strptime_Ymd (substring 0 8 stem) = Ok d ->
    exists record',
      _parse_basic_game_info doc1 stem = Some record' /\
      forall key, key ∈ ["home_team"; "away_team"; "home_score"; "away_score";
                         "home_won"] ->
        record' !! key = record !! key.
Proof.
  apply (scraper_reads_the_line_score_alike
           (Some "Tuesday 2023-10-24, TD Garden") "2026-01-01" doc1
           "202310240BOS").
  reflexivity.
Defined.

(** ** Tables read in a guarded loop *)

Lemma for_each_app {S A} (body : S -> A -> S * bool) (s : S) (l1 l2 : list A) :
  for_each body s (l1 ++ l2) =
  if (for_each body s l1).2 then for_each body (for_each body s l1).1 l2
  else ((for_each body s l1).1, false).
Proof.
  revert s. induction l1 as [|a l1 IH]; intros s; [reflexivity|].
  cbn [for_each app]. destruct (body s a) as [s' [|]]; [apply IH|reflexivity].
Qed.

Section LeadersFacts.
Context `{FM : FloatModel}.

Lemma add_leader_passes (leaders : list (gmap string scalar)) (cells : row) :
  passes cells ->
  Enhanced.add_leader leaders cells
  = ((leaders ++ from_option (fun l => [l]) [] (leader_entry cells))%list, true).
Proof.
  unfold passes, leader_entry, Enhanced.add_leader.
  destruct (Nat.leb_spec 8 (length cells)).
  - intros [Hlt|[l Hl]]; [lia|].
    destruct (Enhanced.leader_of cells); [reflexivity|discriminate].
  - intros _. cbn. by rewrite app_nil_r.
Qed.

Lemma for_each_add_leader (rows : list row) (leaders : list (gmap string scalar)) :
  Forall passes rows ->
  for_each Enhanced.add_leader leaders rows
  = ((leaders ++ omap leader_entry rows)%list, true).
Proof.
  intros Hall. revert leaders.
  induction Hall as [|cells rows Hc _ IH]; intros leaders.
  - cbn. by rewrite app_nil_r.
  - cbn [for_each]. rewrite (add_leader_passes leaders cells Hc).
    rewrite IH. cbn [omap list_omap].
    destruct (leader_entry cells); cbn; by rewrite <- ?app_assoc, ?app_nil_r.
Qed.

End LeadersFacts.

(** X19. The leaders table is read up to its first malformed row. The
    loop of [_parse_leaders_table] sits inside the handler: when every row
    is too narrow to be read or can be read, the method returns the entries
    of the rows that can be read, in order; when a row of at least eight
    cells holds a rank, a value or a number of games that is not a number,
    the method returns the entries of the rows before it, and the rows
    after it are dropped whatever they hold. *)
Theorem leaders_stop_at_the_first_malformed_row `{FM : FloatModel}
    (doc : soup) (category : string) (table : table) :
  find_table doc "stats" = Some table ->
  (Forall passes (tl table) ->
   Enhanced._parse_leaders_table doc category = omap leader_entry (tl table)) /\
  (forall before malformed after,
     tl table = (before ++ malformed :: after)%list ->
     Forall passes before ->
     ~ passes malformed ->
     Enhanced._parse_leaders_table doc category = omap leader_entry before /\
     (length (Enhanced._parse_leaders_table doc category) <= length before)%nat).
Proof.
  intros Htable. unfold Enhanced._parse_leaders_table. rewrite Htable. split.
  - intros Hall. by rewrite (for_each_add_leader _ [] Hall).
  - intros before malformed after -> Hbefore Hbad.
    rewrite for_each_app, (for_each_add_leader _ [] Hbefore).
    cbn [fst snd for_each app].
    assert (Enhanced.add_leader (omap leader_entry before) malformed
            = (omap leader_entry before, false)) as ->.
    { unfold Enhanced.add_leader. unfold passes, leader_entry in Hbad.
      destruct (Nat.leb_spec 8 (length malformed)); [|exfalso; apply Hbad; lia].
      destruct (Enhanced.leader_of malformed); [|reflexivity].
      exfalso. apply Hbad. right. eauto. }
    split; [reflexivity|]. cbn [fst].
    clear. induction before as [|c before IH]; [reflexivity|].
    cbn [omap list_omap]. destruct (leader_entry c); simpl in *; lia.
Qed.

Lemma leaders_stop_at_the_first_malformed_row_witness :
  Enhanced._parse_leaders_table leaders1 "pts_per_g"
    = omap leader_entry
        [ ["1"; "Joel Embiid"; "PHI"; "33.1"; "66"; "34.6"; "11.0"; "20.1"];
          ["2"; "Luka Doncic"; "DAL"; "32.4"; "66"; "36.2"; "10.9"; "22.0"] ] /\
  (length (Enhanced._parse_leaders_table leaders1 "pts_per_g") <= 2)%nat.
Proof.
  apply (proj2 (leaders_stop_at_the_first_malformed_row leaders1 "pts_per_g"
                  (default [] (find_table leaders1 "stats")) eq_refl)
           [ ["1"; "Joel Embiid"; "PHI"; "33.1"; "66"; "34.6"; "11.0"; "20.1"];
             ["2"; "Luka Doncic"; "DAL"; "32.4"; "66"; "36.2"; "10.9"; "22.0"] ]
           ["-"; "Damian Lillard"; "POR"; "32.2"; "58"; "36.3"; "9.6"; "20.7"]
           [ ["4"; "Shai Gilgeous-Alexander"; "OKC"; "31.4"; "68"; "35.5";
              "10.4"; "20.3"] ]).
  - reflexivity.
  - repeat (apply Forall_cons_2; [right; apply is_Some_alt; exact I|]).
    apply Forall_nil_2.
  - intros [H|H]; [simpl in H; lia|].
    apply is_Some_alt in H. exact H.
Defined.

Lemma re_search_Some {A} (match_at : list ascii -> option A)
    (text : list ascii) (m : A) :
  re_search match_at text = Some m ->
  exists n, match_at (drop n text) = Some m.
Proof.
  induction text as [|c text IH]; cbn [re_search].
  - destruct (match_at []) eqn:E; [|discriminate].
    intros [= <-]. by exists 0%nat.
  - destruct (match_at (c :: text)) eqn:E.
    + intros [= <-]. by exists 0%nat.
    + intros H. destruct (IH H) as [n Hn]. by exists (S n).
Qed.

Lemma game_id_pattern_Some (text group : list ascii) :
  game_id_pattern text = Some group ->
  length group = 12%nat /\
  forallb is_digit (take 9 group) = true /\
  forallb is_upper (drop 9 group) = true /\
  exists slash, code slash = 47 /\
    take 18 text = (slash :: group ++ list_ascii_of_string ".html")%list.
Proof.
  unfold game_id_pattern. destruct text as [|slash rest]; [discriminate|].
  cbv zeta.
  destruct (code slash =? 47) eqn:H1; [|discriminate].
  destruct (length (take 12 rest) =? 12)%nat eqn:H2; [|discriminate].
  destruct (forallb is_digit (take 9 (take 12 rest))) eqn:H3; [|discriminate].
  destruct (forallb is_upper (drop 9 (take 12 rest))) eqn:H4; [|discriminate].
  cbn [andb]. case_bool_decide as H5; [|discriminate].
  intros [= <-]. apply Nat.eqb_eq in H2. apply Z.eqb_eq in H1.
  repeat split; auto. exists slash. split; [exact H1|].
  rewrite <- H5. cbn [take]. f_equal.
  rewrite <- (take_drop 12 rest) at 1.
  change 17%nat with (12 + 5)%nat.
  rewrite take_app_add' by (symmetry; exact H2). reflexivity.
Qed.

Lemma forallb_not_slash (P : ascii -> bool) (l : list ascii) :
  (forall c, P c = true -> code c <> 47) ->
  forallb P l = true -> Forall (fun c => code c <> 47) l.
Proof.
  intros HP H. rewrite forallb_forall in H. apply Forall_forall.
  intros c Hc. apply HP, H. by apply list_elem_of_In.
Qed.

Lemma split_slash_segments (text : list ascii) :
  split_slash text <> [] /\
  Forall (Forall (fun c => code c <> 47)) (split_slash text).
Proof.
  induction text as [|c text [IH1 IH2]]; cbn [split_slash].
  - split; [discriminate|]. repeat constructor.
  - destruct (Z.eqb_spec (code c) 47) as [E|E].
    + split; [discriminate|]. by constructor.
    + destruct (split_slash text) as [|segment more]; [done|].
      split; [discriminate|].
      apply Forall_cons in IH2 as [Hs Hm]. repeat constructor; auto.
Qed.

Lemma remove_html_keeps (P : ascii -> Prop) (text : list ascii) :
  Forall P text ->
  Forall P (remove_html text) /\ (length (remove_html text) <= length text)%nat.
Proof.
  assert (forall n text, (length text <= n)%nat -> Forall P text ->
            Forall P (remove_html text)
            /\ (length (remove_html text) <= length text)%nat) as H;
    [|by apply (H (length text))].
  clear text. induction n as [|n IH]; intros [|c1 rest] Hlen Hall;
    try (split; [constructor|simpl; lia]); simpl in Hlen; [lia|].
  apply Forall_cons in Hall as [H1 Hrest].
  destruct (IH rest ltac:(lia) Hrest) as [IHP IHlen].
  cbn [remove_html].
  destruct rest as [|c2 [|c3 [|c4 [|c5 after]]]];
    try (split; [by constructor|simpl in *; lia]).
  case_bool_decide.
  - assert (Forall P after) as Hafter.
    { do 4 (apply Forall_cons in Hrest as [_ Hrest]). exact Hrest. }
    destruct (IH after ltac:(simpl in *; lia) Hafter) as [IHP' IHlen'].
    split; [exact IHP'|simpl in *; lia].
  - split; [by constructor|simpl in *; lia].
Qed.

(** X20. An identifier is never a path. Whatever the address,
    [parse_game_id] returns a text without a slash. When the address holds
    a slash, nine digits, three capital letters and [.html] in a row, the
    text is the twelve characters of the first such place; otherwise it is
    what follows the last slash of the address with every [.html] taken
    out, which is no longer than the address. *)
Theorem parse_game_id_is_never_a_path (url : string) :
  let text := list_ascii_of_string url in
  let id := list_ascii_of_string (Scraper.parse_game_id url) in
  Forall (fun c => code c <> 47) id /\
  match re_search game_id_pattern text with
  | Some group =>
      id = group /\ length id = 12%nat /\
      forallb is_digit (take 9 id) = true /\
      forallb is_upper (drop 9 id) = true /\
      exists n slash,
        code slash = 47 /\
        take 18 (drop n text)
          = (slash :: id ++ list_ascii_of_string ".html")%list
  | None =>
      id = remove_html (default [] (last (split_slash text))) /\
      (length id <= length text)%nat
  end.
Proof.
  cbv zeta. unfold Scraper.parse_game_id. cbv zeta.
  destruct (re_search game_id_pattern (list_ascii_of_string url))
    as [group|] eqn:Hsearch; rewrite list_ascii_of_string_of_list_ascii.
  - apply re_search_Some in Hsearch as [n Hn].
    apply game_id_pattern_Some in Hn as (Hlen & Hd & Hu & slash & Hs & Htake).
    split; [|eauto 10].
    rewrite <- (take_drop 9 group). apply Forall_app. split.
    + apply (forallb_not_slash is_digit); [|exact Hd].
      intros c Hc. apply is_digit_code in Hc. lia.
    + apply (forallb_not_slash is_upper); [|exact Hu].
      intros c Hc. unfold is_upper in Hc.
      apply andb_true_iff in Hc as [? ?]. lia.
  - destruct (split_slash_segments (list_ascii_of_string url)) as [Hne Hall].
    assert (Forall (fun c => code c <> 47)
              (default [] (last (split_slash (list_ascii_of_string url)))) /\
            (length (default [] (last (split_slash (list_ascii_of_string url))))
               <= length (list_ascii_of_string url))%nat) as [Hlast Hlen].
    { split.
      - destruct (last (split_slash (list_ascii_of_string url))) as [segment|]
          eqn:El; [|constructor].
        rewrite Forall_forall in Hall. apply Hall.
        apply last_Some in El as [l' ->]. apply elem_of_app. right.
        apply list_elem_of_here.
      - clear. induction (list_ascii_of_string url) as [|c text IH];
          [simpl; lia|].
        cbn [split_slash]. destruct (code c =? 47).
        + destruct (split_slash_segments text) as [Hne _].
          destruct (split_slash text) as [|s more]; [done|].
          change (last ([] :: s :: more)) with (last (s :: more)).
          simpl in *. lia.
        + destruct (split_slash text) as [|s [|s' more]]; [simpl; lia| |].
          * simpl in *. lia.
          * change (last ((c :: s) :: s' :: more)) with (last (s' :: more)).
            change (last (s :: s' :: more)) with (last (s' :: more)) in IH.
            simpl in *. lia. }
    destruct (remove_html_keeps (fun c => code c <> 47) _ Hlast) as [H1 H2].
    split; [exact H1|]. split; [reflexivity|lia].
Qed.

(** ** Running the update a second time *)

Section UpdateRounds.
Context `{FM : FloatModel}.
Variable cls : mapped_class.
Variable stored : list (gmap string scalar).
Variable key_of : gmap string scalar -> result (gmap string scalar -> bool).

Abbreviation srow := (gmap string scalar).
Abbreviation hit := (matched_index stored key_of).

Lemma patched_lookup_same (payload e : srow) (k : string) :
  payload !! k = e !! k -> patched cls payload e !! k = e !! k.
Proof.
  intros Hk. unfold patched. rewrite lookup_union, map_lookup_filter.
  destruct (payload !! k) as [v|] eqn:Hp; simpl.
  - case_guard; simpl; rewrite <- Hk; reflexivity.
  - by destruct (e !! k).
Qed.

Lemma patched_self (payload : srow) : patched cls payload payload = payload.
Proof. unfold patched. apply map_subseteq_union, map_filter_subseteq. Qed.

(** A round that goes through tells that the record can be written over
    any row. *)
Lemma update_record_writes (loaded added : list srow)
    (st' : list srow * list srow) (payload : srow) :
  length loaded = length stored ->
  update_record cls stored key_of (loaded, added) payload = Ok st' ->
  (exists f, key_of payload = Ok f) /\
  (forall e, patch cls e payload = Ok (patched cls payload e)).
Proof.
  intros Hlen. unfold update_record.
  destruct (key_of payload) as [same_key|]; simpl; [|discriminate].
  split; [eauto|].
  destruct (list_find _ stored) as [[i r]|] eqn:Hfind; simpl.
  - destruct (loaded !! i) as [existing|] eqn:Hi.
    + unfold patch, patched in *. case_bool_decide; [done|discriminate].
    + apply list_find_Some in Hfind as (Hr & _).
      apply lookup_lt_Some in Hr. apply lookup_ge_None in Hi. lia.
  - unfold construct, patch, patched in *.
    repeat (case_bool_decide; simpl in *; try discriminate).
    + done.
    + exfalso. match goal with Hn : ~ _ |- _ => apply Hn end.
      match goal with Hc : map_Forall (fun k _ => is_column cls k = true) _
        |- _ => revert Hc end.
      intros Hc. eapply map_Forall_impl; [exact Hc|]. simpl. auto.
Qed.

Lemma update_records_write (payloads : list srow)
    (loaded added : list srow) (res : list srow * list srow) :
  length loaded = length stored ->
  foldM (update_record cls stored key_of) (loaded, added) payloads = Ok res ->
  res.2 = (added ++ filter (fun p => hit p = None) payloads)%list /\
  forall p, p ∈ payloads ->
    (exists f, key_of p = Ok f) /\
    (forall e, patch cls e p = Ok (patched cls p e)).
Proof.
  revert loaded added.
  induction payloads as [|p l IH]; intros loaded added Hlen.
  - simpl. intros [= <-]. split; [by rewrite app_nil_r|].
    intros p Hp. inversion Hp.
  - rewrite foldM_cons.
    destruct (update_record cls stored key_of (loaded, added) p)
      as [[loaded1 added1]|] eqn:Hstep; [|discriminate].
    rewrite bind_ok. intros Hrest.
    destruct (update_record_round _ _ _ _ _ _ _ _ Hlen Hstep) as [Hlen1 Hround].
    destruct (IH _ _ Hlen1 Hrest) as (-> & Hall).
    split.
    + destruct (hit p) as [i|] eqn:Hp.
      * destruct Hround as (-> & _).
        rewrite filter_cons_False; [done|]. by rewrite Hp.
      * destruct Hround as (_ & -> & _).
        rewrite filter_cons_True by done. by rewrite <- app_assoc.
    + intros q Hq. apply elem_of_cons in Hq as [->|Hq]; [|by apply Hall].
      exact (update_record_writes _ _ _ _ Hlen Hstep).
Qed.

End UpdateRounds.

Section UpdateTwice.
Context `{FM : FloatModel}.
Variable cls : mapped_class.
Variable key_of : gmap string scalar -> result (gmap string scalar -> bool).
Variable gid : scalar.
Variable fields : list string.

Abbreviation srow := (gmap string scalar).

(** The query compares the game identifier and the fields of the natural
    sub-key. *)
Hypothesis key_spec : forall (p : srow) f, key_of p = Ok f ->
  forall r : srow, f r = true <->
    r !! "game_id" = Some gid /\ forall k, k ∈ fields -> r !! k = p !! k.

Variable payloads : list srow.
Hypothesis payload_gid : forall p, p ∈ payloads -> p !! "game_id" = Some gid.
Hypothesis payload_distinct : forall p q, p ∈ payloads -> q ∈ payloads ->
  (forall k, k ∈ fields -> p !! k = q !! k) -> p = q.

Variable stored loaded1 added1 : list srow.
Hypothesis first_run :
  foldM (update_record cls stored key_of) (stored, []) payloads
  = Ok (loaded1, added1).

Lemma key_patched (q p e : srow) g f :
  q ∈ payloads -> key_of q = Ok g -> g e = true -> key_of p = Ok f ->
  f (patched cls q e) = f e.
Proof.
  intros Hq Hg He Hf. apply (key_spec _ _ Hg) in He as [Hid Hks].
  apply eq_true_iff_eq. rewrite !(key_spec _ _ Hf).
  rewrite patched_lookup_same by (by rewrite payload_gid, Hid).
  split; intros [H1 H2]; (split; [exact H1|]); intros k Hk;
    specialize (H2 k Hk); specialize (Hks k Hk);
    rewrite patched_lookup_same in * by done; done.
Qed.

Lemma hit_unique (p q : srow) (i : nat) :
  p ∈ payloads -> q ∈ payloads ->
  matched_index stored key_of p = Some i ->
  matched_index stored key_of q = Some i -> q = p.
Proof.
  intros Hp Hq Hpi Hqi.
  apply matched_index_Some in Hpi as (f & r & Hf & Hr & Hfr).
  apply matched_index_Some in Hqi as (g & r' & Hg & Hr' & Hgr).
  rewrite Hr in Hr'. injection Hr' as <-.
  apply (key_spec _ _ Hf) in Hfr as [_ H1].
  apply (key_spec _ _ Hg) in Hgr as [_ H2].
  apply payload_distinct; [done..|].
  intros k Hk. by rewrite <- H1, <- H2.
Qed.

Lemma loaded_hit (p e : srow) (i : nat) :
  p ∈ payloads -> matched_index stored key_of p = Some i ->
  stored !! i = Some e -> loaded1 !! i = Some (patched cls p e).
Proof.
  intros Hp Hhit He.
  destruct (update_records_loop cls stored key_of payloads stored [] loaded1
              added1 eq_refl first_run) as (_ & _ & _ & Hpatch).
  apply (Hpatch i p e); [|eauto|done].
  intros q Hq Hqi. by apply hit_unique with i.
Qed.

Lemma loaded_key (p e r : srow) f (i : nat) :
  stored !! i = Some e -> loaded1 !! i = Some r -> key_of p = Ok f ->
  f r = f e.
Proof.
  intros He Hr Hf.
  destruct (decide (Exists (fun q => matched_index stored key_of q = Some i)
                      payloads)) as [Hex|Hex].
  - apply Exists_exists in Hex as (q & Hq & Hqi).
    rewrite (loaded_hit q e i Hq Hqi He) in Hr. injection Hr as <-.
    apply matched_index_Some in Hqi as (g & e' & Hg & He' & Hge).
    rewrite He in He'. injection He' as <-.
    by apply (key_patched q p e g f).
  - destruct (update_records_loop cls stored key_of payloads stored [] loaded1
                added1 eq_refl first_run) as (_ & _ & Hframe & _).
    rewrite Hframe, He in Hr; [by injection Hr as <-|].
    intros q Hq Hqi. apply Hex. apply Exists_exists. eauto.
Qed.

Lemma loaded_length : length loaded1 = length stored.
Proof.
  by destruct (update_records_loop cls stored key_of payloads stored [] loaded1
                 added1 eq_refl first_run) as (? & _).
Qed.

Lemma added_rows :
  added1 = filter (fun p => matched_index stored key_of p = None) payloads.
Proof.
  destruct (update_records_write cls stored key_of payloads stored []
              (loaded1, added1) eq_refl first_run) as (Hadded & _).
  exact Hadded.
Qed.

(** The row the second query finds for a record already is what the
    record makes of it. *)
Lemma second_find (p r : srow) f (i : nat) :
  p ∈ payloads -> key_of p = Ok f ->
  list_find (fun r => f r = true) (loaded1 ++ added1)%list = Some (i, r) ->
  patched cls p r = r.
Proof.
  intros Hp Hf Hfind. apply list_find_Some in Hfind as (Hr & Hfr & Hfirst).
  destruct (decide (i < length loaded1)%nat) as [Hi|Hi].
  - rewrite lookup_app_l in Hr by done.
    assert (i < length stored)%nat as Hi' by (by rewrite <- loaded_length).
    destruct (lookup_lt_is_Some_2 stored i Hi') as [e He].
    assert (matched_index stored key_of p = Some i) as Hhit.
    { unfold matched_index. rewrite Hf.
      assert (list_find (fun r => f r = true) stored = Some (i, e)) as ->;
        [|done].
      apply list_find_Some. split; [done|]. split.
      - by rewrite <- (loaded_key p e r f i).
      - intros j y Hy Hj.
        assert (j < length loaded1)%nat as Hj' by lia.
        destruct (lookup_lt_is_Some_2 loaded1 j Hj') as [y' Hy'].
        rewrite <- (loaded_key p y y' f j) by done.
        apply (Hfirst j y'); [|done]. by rewrite lookup_app_l. }
    rewrite (loaded_hit p e i Hp Hhit He) in Hr. injection Hr as <-.
    apply patched_twice.
  - rewrite lookup_app_r in Hr by lia.
    apply list_elem_of_lookup_2 in Hr. rewrite added_rows in Hr.
    apply list_elem_of_filter in Hr as [_ Hr].
    apply (key_spec _ _ Hf) in Hfr as [_ Hks].
    rewrite (payload_distinct r p Hr Hp Hks). apply patched_self.
Qed.

Lemma second_find_some (p : srow) f :
  p ∈ payloads -> key_of p = Ok f ->
  is_Some (list_find (fun r => f r = true) (loaded1 ++ added1)%list).
Proof.
  intros Hp Hf.
  destruct (matched_index stored key_of p) as [i|] eqn:Hhit.
  - pose proof Hhit as Hhit'.
    apply matched_index_Some in Hhit' as (g & e & Hg & He & Hge).
    rewrite Hf in Hg. injection Hg as <-.
    apply list_find_elem_of with (patched cls p e).
    + apply elem_of_app. left.
      apply list_elem_of_lookup_2 with i. by apply loaded_hit.
    + by rewrite (key_patched p p e f f).
  - apply list_find_elem_of with p.
    + apply elem_of_app. right. rewrite added_rows.
      by apply list_elem_of_filter.
    + apply (key_spec _ _ Hf). split; [by apply payload_gid|done].
Qed.

Lemma second_step (p : srow) :
  p ∈ payloads ->
  update_record cls (loaded1 ++ added1)%list key_of
    ((loaded1 ++ added1)%list, []) p
  = Ok ((loaded1 ++ added1)%list, []).
Proof.
  intros Hp.
  destruct (update_records_write cls stored key_of payloads stored []
              (loaded1, added1) eq_refl first_run) as (_ & Hall).
  destruct (Hall p Hp) as ((f & Hf) & Hpatch).
  unfold update_record. rewrite Hf, bind_ok.
  destruct (second_find_some p f Hp Hf) as [[i r] Hfind].
  rewrite Hfind.
  pose proof (second_find p r f i Hp Hf Hfind) as Hsame.
  apply list_find_Some in Hfind as (Hr & _).
  rewrite Hr, Hpatch, bind_ok, Hsame.
  by rewrite list_insert_id.
Qed.

Lemma second_run :
  foldM (update_record cls (loaded1 ++ added1)%list key_of)
    ((loaded1 ++ added1)%list, []) payloads
  = Ok ((loaded1 ++ added1)%list, []).
Proof.
  assert (forall l, (forall p, p ∈ l -> p ∈ payloads) ->
            foldM (update_record cls (loaded1 ++ added1)%list key_of)
              ((loaded1 ++ added1)%list, []) l
            = Ok ((loaded1 ++ added1)%list, [])) as Hl.
  { induction l as [|p l IH]; intros Hin; [reflexivity|].
    rewrite foldM_cons, second_step, bind_ok
      by (apply Hin, list_elem_of_here).
    apply IH. intros q Hq. by apply Hin, list_elem_of_further. }
  by apply Hl.
Qed.

End UpdateTwice.

Section UpdateAgain.
Context `{FM : FloatModel}.

Abbreviation srow := (gmap string scalar).

Lemma team_key_spec (gid : scalar) (p : srow) f :
  team_key gid p = Ok f ->
  forall r : srow, f r = true <->
    r !! "game_id" = Some gid /\ forall k, k ∈ ["team"] -> r !! k = p !! k.
Proof.
  unfold team_key, getitem.
  destruct (p !! "team") as [team|] eqn:Ht; [|discriminate].
  simpl. intros [= <-] r.
  rewrite andb_true_iff, !bool_decide_eq_true. split.
  - intros [H1 H2]. split; [exact H1|].
    intros k Hk. apply list_elem_of_singleton in Hk as ->. congruence.
  - intros [H1 H2]. split; [exact H1|].
    rewrite <- Ht. apply H2, list_elem_of_here.
Qed.

Lemma player_key_spec (gid : scalar) (p : srow) f :
  player_key gid p = Ok f ->
  forall r : srow, f r = true <->
    r !! "game_id" = Some gid /\
    forall k, k ∈ ["player_name"; "team"] -> r !! k = p !! k.
Proof.
  unfold player_key, getitem.
  destruct (p !! "player_name") as [name|] eqn:Hn; [|discriminate].
  destruct (p !! "team") as [team|] eqn:Ht; [|discriminate].
  simpl. intros [= <-] r.
  rewrite !andb_true_iff, !bool_decide_eq_true. split.
  - intros [[H1 H2] H3]. split; [exact H1|].
    intros k Hk. apply elem_of_cons in Hk as [->|Hk]; [congruence|].
    apply list_elem_of_singleton in Hk as ->. congruence.
  - intros [H1 H2]. repeat split; [exact H1| |].
    + rewrite <- Hn. apply H2. in_list.
    + rewrite <- Ht. apply H2. in_list.
Qed.

(** What an update that went through has evaluated. *)
Lemma update_game_data_updated (db_accepts : store -> store -> bool)
    (s s' : store) (game_data : gmap string pyval) :
  update_game_data db_accepts s game_data = (s', Some LogUpdated) ->
  exists gid gi game home_score away_score home_won teams players,
    game_data !! "game_id" = Some (Scalar gid) /\
    find_game s gid = Some (gi, game) /\
    game_data !! "home_score" = Some (Scalar home_score) /\
    game_data !! "away_score" = Some (Scalar away_score) /\
    game_data !! "home_won" = Some (Scalar home_won) /\
    iter_rows (game_data !! "team_stats")
      = Ok (payload_rows game_data "team_stats") /\
    foldM (update_record TeamGameStats (team_game_stats s) (team_key gid))
      (team_game_stats s, []) (payload_rows game_data "team_stats")
      = Ok teams /\
    iter_rows (game_data !! "player_stats")
      = Ok (payload_rows game_data "player_stats") /\
    foldM (update_record PlayerGameStats (player_game_stats s) (player_key gid))
      (player_game_stats s, []) (payload_rows game_data "player_stats")
      = Ok players /\
    s' = Store
           (<[gi := <["home_won" := home_won]>
                      (<["away_score" := away_score]>
                         (<["home_score" := home_score]> game))]> (games s))
           (teams.1 ++ teams.2)%list (players.1 ++ players.2)%list
           (game_officials s).
Proof.
  unfold update_game_data.
  destruct (getitem game_data "game_id" ≫= bind_param) as [gid|] eqn:Hid;
    [|discriminate].
  rewrite bind_ok.
  destruct (find_game s gid) as [[gi game]|] eqn:Hf; [|discriminate].
  destruct (getitem game_data "home_score" ≫= bind_param) as [hs|] eqn:Hhs;
    [|discriminate].
  rewrite bind_ok.
  destruct (getitem game_data "away_score" ≫= bind_param) as [aws|] eqn:Has;
    [|discriminate].
  rewrite bind_ok.
  destruct (getitem game_data "home_won" ≫= bind_param) as [hw|] eqn:Hhw;
    [|discriminate].
  rewrite bind_ok.
  destruct (iter_rows (game_data !! "team_stats")) as [ts|] eqn:Hts;
    [|discriminate].
  rewrite bind_ok. pose proof (iter_rows_payload _ _ _ Hts) as ->.
  destruct (foldM (update_record TeamGameStats _ _) _ _) as [teams|] eqn:Ht;
    [|discriminate].
  rewrite bind_ok.
  destruct (iter_rows (game_data !! "player_stats")) as [ps|] eqn:Hps;
    [|discriminate].
  rewrite bind_ok. pose proof (iter_rows_payload _ _ _ Hps) as ->.
  destruct (foldM (update_record PlayerGameStats _ _) _ _) as [players|] eqn:Hp;
    [|discriminate].
  rewrite bind_ok.
  destruct (commit db_accepts s _) as [s1|] eqn:Hc; [|discriminate].
  rewrite bind_ok. apply commit_cases in Hc as ->. intros [= <-].
  exists gid, gi, game, hs, aws, hw, teams, players.
  repeat split; auto using getitem_bind_param.
Qed.

Lemma getitem_scalar (game_data : gmap string pyval) (key : string)
    (x : scalar) :
  game_data !! key = Some (Scalar x) ->
  getitem game_data key ≫= bind_param = Ok x.
Proof. unfold getitem. by intros ->. Qed.

(** The query finds a game row again after its scores were set. *)
Lemma find_game_updated (s : store) (gid : scalar) (gi : nat)
    (game game' : srow) (ts ps : list srow) :
  find_game s gid = Some (gi, game) ->
  game' !! "game_id" = Some gid ->
  find_game (Store (<[gi := game']> (games s)) ts ps (game_officials s)) gid
  = Some (gi, game').
Proof.
  unfold find_game. simpl. intros Hf Hid.
  apply list_find_Some in Hf as (Hgi & _ & Hfirst).
  apply list_find_Some. split; [|split; [exact Hid|]].
  - apply list_lookup_insert_eq. by apply lookup_lt_Some with game.
  - intros j y Hy Hj. rewrite list_lookup_insert_ne in Hy by lia.
    by apply (Hfirst j y).
Qed.

Lemma second_update (db_accepts db_accepts' : store -> store -> bool)
    (s s1 : store) (game_data : gmap string pyval) (gid : scalar) :
  game_data !! "game_id" = Some (Scalar gid) ->
  (forall p, p ∈ payload_rows game_data "team_stats" ->
     p !! "game_id" = Some gid) ->
  (forall p q, p ∈ payload_rows game_data "team_stats" ->
     q ∈ payload_rows game_data "team_stats" ->
     p !! "team" = q !! "team" -> p = q) ->
  (forall p, p ∈ payload_rows game_data "player_stats" ->
     p !! "game_id" = Some gid) ->
  (forall p q, p ∈ payload_rows game_data "player_stats" ->
     q ∈ payload_rows game_data "player_stats" ->
     p !! "player_name" = q !! "player_name" -> p !! "team" = q !! "team" ->
     p = q) ->
  update_game_data db_accepts s game_data = (s1, Some LogUpdated) ->
  update_game_data db_accepts' s1 game_data = (s1, Some LogUpdated).
Proof.
  intros Hid Htid Htd Hpid Hpd Hrun.
  apply update_game_data_updated in Hrun
    as (gid' & gi & game & hs & aws & hw & [tl ta] & [pl pa] & Hid' & Hf & Hhs
        & Has & Hhw & Hts & Ht & Hps & Hp & ->).
  rewrite Hid in Hid'. injection Hid' as <-.
  set (game' := <["home_won" := hw]>
                  (<["away_score" := aws]> (<["home_score" := hs]> game))).
  assert (game' !! "game_id" = Some gid) as Hgid'.
  { apply list_find_Some in Hf as (_ & Hg & _).
    unfold game'. by rewrite !lookup_insert_ne. }
  assert (<["home_won" := hw]>
            (<["away_score" := aws]> (<["home_score" := hs]> game')) = game')
    as Hgame'.
  { rewrite (insert_id game' "home_score" hs)
      by (unfold game'; by simplify_map_eq).
    rewrite (insert_id game' "away_score" aws)
      by (unfold game'; by simplify_map_eq).
    apply insert_id. unfold game'. by simplify_map_eq. }
  simpl.
  pose proof (find_game_updated s gid gi game game' (tl ++ ta)%list
                (pl ++ pa)%list Hf Hgid') as Hf'.
  assert (foldM (update_record TeamGameStats (tl ++ ta)%list (team_key gid))
            ((tl ++ ta)%list, []) (payload_rows game_data "team_stats")
          = Ok ((tl ++ ta)%list, [])) as Ht'.
  { apply (second_run TeamGameStats (team_key gid) gid ["team"]
             (team_key_spec gid) _ Htid) with (team_game_stats s); [|exact Ht].
    intros p q Hp' Hq' Hk. apply Htd; [done..|]. apply Hk. in_list. }
  assert (foldM (update_record PlayerGameStats (pl ++ pa)%list (player_key gid))
            ((pl ++ pa)%list, []) (payload_rows game_data "player_stats")
          = Ok ((pl ++ pa)%list, [])) as Hp'.
  { apply (second_run PlayerGameStats (player_key gid) gid
             ["player_name"; "team"] (player_key_spec gid) _ Hpid)
      with (player_game_stats s); [|exact Hp].
    intros p q Hp' Hq' Hk. apply Hpd; [done..| |]; apply Hk; in_list. }
  unfold update_game_data.
  rewrite (getitem_scalar _ _ _ Hid), bind_ok, Hf'.
  rewrite (getitem_scalar _ _ _ Hhs), bind_ok.
  rewrite (getitem_scalar _ _ _ Has), bind_ok.
  rewrite (getitem_scalar _ _ _ Hhw), bind_ok.
  rewrite Hts, bind_ok. cbn [team_game_stats player_game_stats games
                             game_officials].
  rewrite Ht', bind_ok, Hps, bind_ok, Hp', bind_ok.
  cbn [fst snd]. rewrite !app_nil_r, Hgame'.
  rewrite (list_insert_id (<[gi := game']> (games s)) gi game')
    by (apply list_find_Some in Hf as (Hgi & _);
        apply list_lookup_insert_eq; by apply lookup_lt_Some with game).
  by rewrite commit_same.
Qed.

End UpdateAgain.

(** X22. Refreshing a game twice with the same record is refreshing it
    once, whenever every team and player entry of the record carries the
    record's game identifier and no two team entries name the same team
    and no two player entries the same player of the same team: the second
    [update_game_data] returns the store and the message of the first, and
    after an update that went through it sends nothing to the database,
    whatever the database would have answered. *)
Theorem refreshing_twice_is_refreshing_once `{FM : FloatModel}
    (db_accepts : store -> store -> bool) (s : store)
    (game_data : gmap string pyval) (gid : scalar) :
  game_data !! "game_id" = Some (Scalar gid) ->
  (forall p, p ∈ payload_rows game_data "team_stats" ->
     p !! "game_id" = Some gid) ->
  (forall p q, p ∈ payload_rows game_data "team_stats" ->
     q ∈ payload_rows game_data "team_stats" ->
     p !! "team" = q !! "team" -> p = q) ->
  (forall p, p ∈ payload_rows game_data "player_stats" ->
     p !! "game_id" = Some gid) ->
  (forall p q, p ∈ payload_rows game_data "player_stats" ->
     q ∈ payload_rows game_data "player_stats" ->
     p !! "player_name" = q !! "player_name" -> p !! "team" = q !! "team" ->
     p = q) ->
  let r := update_game_data db_accepts s game_data in
  update_game_data db_accepts r.1 game_data = r /\
  (r.2 = Some LogUpdated ->
   forall db_accepts' : store -> store -> bool,
     update_game_data db_accepts' r.1 game_data = r).
Proof.
  intros Hid Htid Htd Hpid Hpd r.
  destruct (update_game_data_cases db_accepts s game_data)
    as [E|[E|(? & ? & ? & ? & ? & ? & ? & ? & _ & _ & _ & _ & _ & _ & _ & E)]];
    fold r in E.
  - rewrite E. simpl. split; [exact E|discriminate].
  - rewrite E. simpl. split; [exact E|discriminate].
  - rewrite E. cbn [fst snd].
    split; [|intros _ db_accepts'];
      by apply (second_update db_accepts _ s _ game_data gid).
Qed.

Lemma refreshing_twice_is_refreshing_once_witness :
  let r := update_game_data always store1 refresh1 in
  r.2 = Some LogUpdated /\ r.1 <> store1 /\
  update_game_data always r.1 refresh1 = r.
Proof.
  assert (payload_rows refresh1 "team_stats" = [home_line]) as Hts
    by reflexivity.
  assert (payload_rows refresh1 "player_stats" = [brown_line]) as Hps
    by reflexivity.
  intros r. split; [reflexivity|]. split.
  { intros Heq.
    assert (team_game_stats r.1 !! 0%nat ≫= (.!! "pts") = Some (SInt 110))
      as Hnew by reflexivity.
    assert (team_game_stats store1 !! 0%nat ≫= (.!! "pts") = Some (SInt 108))
      as Hold by reflexivity.
    rewrite Heq, Hold in Hnew. discriminate Hnew. }
  refine (proj1 (refreshing_twice_is_refreshing_once always store1 refresh1
                   (SStr "202310240BOS") _ _ _ _ _)).
  - reflexivity.
  - intros p Hp. rewrite Hts in Hp. by apply list_elem_of_singleton in Hp as ->.
  - intros p q Hp Hq _. rewrite Hts in Hp, Hq.
    apply list_elem_of_singleton in Hp as ->.
    by apply list_elem_of_singleton in Hq as ->.
  - intros p Hp. rewrite Hps in Hp. by apply list_elem_of_singleton in Hp as ->.
  - intros p q Hp Hq _ _. rewrite Hps in Hp, Hq.
    apply list_elem_of_singleton in Hp as ->.
    by apply list_elem_of_singleton in Hq as ->.
Defined.

(** ** Refreshing a game that was just stored *)

Section RefreshAfterSave.
Context `{FM : FloatModel}.

Abbreviation srow := (gmap string scalar).

Lemma construct_game_scalar (game_data : gmap string pyval) (game : srow)
    (key : string) :
  construct_game game_data = Ok game ->
  key ∉ relationships Game ->
  is_Some (game_data !! key) ->
  exists x, game_data !! key = Some (Scalar x) /\ game !! key = Some x.
Proof.
  intros Hc Hrel [v Hv].
  pose proof (construct_game_entry _ _ _ _ Hc Hv) as Hok.
  destruct v as [x|l].
  - exists x. split; [done|]. revert Hc. unfold construct_game.
    case_bool_decide; [|discriminate].
    intros [= <-]. by rewrite lookup_omap, Hv.
  - simpl in Hok. apply andb_true_iff in Hok as [Hin _].
    by apply bool_decide_eq_true in Hin.
Qed.

Lemma find_game_last (s : store) (game : srow) (gid : scalar) :
  find_game s gid = None -> game !! "game_id" = Some gid ->
  find_game (add_game game s) gid = Some (length (games s), game).
Proof.
  unfold find_game, add_game. simpl. intros Hnone Hid.
  apply list_find_None in Hnone. rewrite Forall_forall in Hnone.
  apply list_find_Some. split; [|split; [exact Hid|]].
  - by rewrite lookup_app_r, Nat.sub_diag by lia.
  - intros j y Hy Hj. rewrite lookup_app_l in Hy by done.
    apply Hnone. by apply list_elem_of_lookup_2 with j.
Qed.

Ltac not_related :=
  let Hin := fresh "Hin" in
  intros Hin;
  repeat (apply elem_of_cons in Hin as [Hin|Hin]; [discriminate Hin|]);
  inversion Hin.

Lemma refresh_of_saved (db_accepts db_accepts' : store -> store -> bool)
    (s s1 : store) (game_data : gmap string pyval) :
  save_game_to_database db_accepts s game_data = (s1, LogSaved) ->
  is_Some (game_data !! "home_score") ->
  is_Some (game_data !! "away_score") ->
  is_Some (game_data !! "home_won") ->
  update_game_data db_accepts' s1 game_data = (s1, Some LogUpdated).
Proof.
  intros Hsave Hhs Has Hhw.
  destruct (save_game_to_database_saved db_accepts s game_data)
    as [[Hno _]|(gid & game & Hid & Hnone & Hc & E)].
  { exfalso. apply Hno. by rewrite Hsave. }
  rewrite Hsave in E. injection E as ->.
  destruct (construct_game_scalar _ _ "home_score" Hc) as (hs & Hhs' & Hghs);
    [not_related|done|].
  destruct (construct_game_scalar _ _ "away_score" Hc) as (aws & Has' & Hgas);
    [not_related|done|].
  destruct (construct_game_scalar _ _ "home_won" Hc) as (hw & Hhw' & Hghw);
    [not_related|done|].
  destruct (construct_game_no_subrecords _ _ Hc) as (Hts & Hps & _).
  pose proof (construct_game_id _ _ _ Hc Hid) as Hgid.
  unfold update_game_data.
  rewrite (getitem_scalar _ _ _ Hid), bind_ok.
  rewrite (find_game_last s game gid Hnone Hgid).
  rewrite (getitem_scalar _ _ _ Hhs'), bind_ok.
  rewrite (getitem_scalar _ _ _ Has'), bind_ok.
  rewrite (getitem_scalar _ _ _ Hhw'), bind_ok.
  rewrite Hts, bind_ok. cbn [foldM]. rewrite bind_ok.
  rewrite Hps, bind_ok. cbn [foldM]. rewrite bind_ok.
  cbn [fst snd]. rewrite !app_nil_r.
  rewrite (insert_id game "home_score" hs) by done.
  rewrite (insert_id game "away_score" aws) by done.
  rewrite (insert_id game "home_won" hw) by done.
  rewrite list_insert_id
    by (unfold add_game; simpl; by rewrite lookup_app_r, Nat.sub_diag by lia).
  unfold add_game. simpl. by rewrite commit_same.
Qed.

End RefreshAfterSave.

(** X23. Refreshing a game with the record it was just stored from changes
    nothing. After [save_game_to_database] logged success,
    [update_game_data] with the same record leaves the store as the save
    left it, whatever the database would answer; it is logged as an update
    exactly when the record holds the two scores and the outcome, and as
    an error otherwise. *)
Theorem refresh_of_a_saved_record_changes_nothing `{FM : FloatModel}
    (db_accepts db_accepts' : store -> store -> bool) (s s1 : store)
    (game_data : gmap string pyval) :
  save_game_to_database db_accepts s game_data = (s1, LogSaved) ->
  (update_game_data db_accepts' s1 game_data).1 = s1 /\
  (is_Some (game_data !! "home_score") /\ is_Some (game_data !! "away_score")
   /\ is_Some (game_data !! "home_won") ->
   update_game_data db_accepts' s1 game_data = (s1, Some LogUpdated)) /\
  (~ (is_Some (game_data !! "home_score") /\
      is_Some (game_data !! "away_score") /\
      is_Some (game_data !! "home_won")) ->
   update_game_data db_accepts' s1 game_data = (s1, Some LogError)).
Proof.
  intros Hsave.
  assert (is_Some (game_data !! "home_score") /\
          is_Some (game_data !! "away_score") /\
          is_Some (game_data !! "home_won") ->
          update_game_data db_accepts' s1 game_data = (s1, Some LogUpdated))
    as Hfull.
  { intros (Hhs & Has & Hhw).
    by apply (refresh_of_saved db_accepts db_accepts' s). }
  destruct (update_game_data_cases db_accepts' s1 game_data)
    as [E|[E|(gid & gi & game & hs & aws & hw & ? & ? & _ & _ & Hhs & Has & Hhw
              & _)]].
  - exfalso.
    destruct (save_game_to_database_saved db_accepts s game_data)
      as [[Hno _]|(gid & game & Hid & Hnone & Hc & E')].
    { apply Hno. by rewrite Hsave. }
    rewrite Hsave in E'. injection E' as ->.
    pose proof (construct_game_id _ _ _ Hc Hid) as Hgid.
    revert E. unfold update_game_data.
    rewrite (getitem_scalar _ _ _ Hid), bind_ok.
    rewrite (find_game_last s game gid Hnone Hgid).
    repeat (match goal with
            | |- context [?r ≫= _] =>
                lazymatch r with
                | Ok _ => rewrite bind_ok
                | _ => destruct r; simpl
                end
            end; try discriminate).
  - split; [by rewrite E|]. split; [exact Hfull|]. intros _. exact E.
  - assert (is_Some (game_data !! "home_score") /\
            is_Some (game_data !! "away_score") /\
            is_Some (game_data !! "home_won")) as Hall
      by (rewrite Hhs, Has, Hhw; eauto).
    split; [by rewrite (Hfull Hall)|]. split; [exact Hfull|].
    intros Hno. by destruct Hno.
Qed.

Lemma refresh_of_a_saved_record_changes_nothing_witness :
  let info := game_info "202310240BOS" (Date 2023 10 24) 2023 "BOS" "NYK"
                108 104 true in
  let s1 := add_game (omap scalar_of info) empty_store in
  save_game_to_database always empty_store info = (s1, LogSaved) /\
  update_game_data always s1 info = (s1, Some LogUpdated).
Proof.
  intros info s1.
  assert (save_game_to_database always empty_store info = (s1, LogSaved))
    as Hsave by reflexivity.
  split; [exact Hsave|].
  refine (proj1 (proj2 (refresh_of_a_saved_record_changes_nothing always always
                          empty_store s1 info Hsave)) _).
  repeat split; apply is_Some_alt; exact I.
Defined.
